(** * Nestable activation checkpointing: [torch/utils/checkpoint.py]

    A shallow embedding of the non-reentrant ("nestable") checkpoint engine:
    the keyword-argument packing helpers, the identity-save adapter, the
    checkpoint frames, the global stack of frame stacks, and the two
    saved-tensor interceptors (the outer [_checkpoint_hook] and the inner
    [_recomputation_hook]).

    Python objects that are shared and mutated (frames, holders, the frame
    lists held by the stack entries) live in explicit stores indexed by
    object identity, so that aliasing is as in the source.  User callbacks
    (the body of a checkpoint region and its recompute callback) are finite
    interaction trees: they can only act on the engine through the events the
    source reacts to. *)

From stdpp Require Import gmap strings list fin_maps.

(* ===================================================================== *)
(** ** Python containers *)
(* ===================================================================== *)

(** [l[i]] for a possibly negative Python index. *)
Definition py_getitem {A} (l : list A) (i : Z) : option A :=
  if (i <? 0)%Z
  then if (i + Z.of_nat (length l) <? 0)%Z then None
       else l !! Z.to_nat (i + Z.of_nat (length l))
  else l !! Z.to_nat i.

(** [l[-1]]. *)
Definition py_last {A} (l : list A) : option A := py_getitem l (-1).

(** [l[:-n]] and [l[-n:]] for [n > 0]: the slice bounds are clamped. *)
Definition py_slice_until_neg {A} (l : list A) (n : nat) : list A :=
  take (length l - n) l.
Definition py_slice_from_neg {A} (l : list A) (n : nat) : list A :=
  drop (length l - n) l.

(** A Python [dict] with string keys: insertion-ordered, one entry per key.
    [d[k] = v] overwrites in place when [k] is present and appends
    otherwise. *)
Fixpoint dict_setitem {A} (k : string) (v : A) (d : list (string * A))
  : list (string * A) :=
  match d with
  | [] => [(k, v)]
  | (k', v') :: d' =>
      if decide (k' = k) then (k, v) :: d' else (k', v') :: dict_setitem k v d'
  end.

(** [{k: v for k, v in kvs}]. *)
Definition dict_of_pairs {A} (kvs : list (string * A)) : list (string * A) :=
  fold_left (fun d kv => dict_setitem kv.1 kv.2 d) kvs [].

(* ===================================================================== *)
(** ** [_pack_kwargs] / [_unpack_kwargs] *)
(* ===================================================================== *)

(** One turn of [for k, v in kwargs.items()]. *)
Definition pack_step {A} (acc : list string * list A) (kv : string * A)
  : list string * list A :=
  (acc.1 ++ [kv.1], acc.2 ++ [kv.2]).

Definition _pack_kwargs {A} (args : list A) (kwargs : list (string * A))
  : list A * list string :=
  let '(kwarg_keys, flat_args) := fold_left pack_step kwargs ([], args) in
  (flat_args, kwarg_keys).

(** [None] stands for the failed [assert len(kwarg_keys) <= len(flat_args)]. *)
Definition _unpack_kwargs {A} (flat_args : list A) (kwarg_keys : list string)
  : option (list A * list (string * A)) :=
  if decide (length kwarg_keys ≤ length flat_args) then
    if decide (length kwarg_keys = 0) then Some (flat_args, [])
    else
      let args := py_slice_until_neg flat_args (length kwarg_keys) in
      let kwargs :=
        dict_of_pairs
          (zip kwarg_keys (py_slice_from_neg flat_args (length kwarg_keys))) in
      Some (args, kwargs)
  else None.

(* ===================================================================== *)
(** ** Tensors and values *)
(* ===================================================================== *)

Inductive Dtype := Floating | Complex | Integral.

Inductive GradFn := NoopSaveInputsBackward | OpBackward (node : nat).

(** What the engine needs of a tensor: the identity of the data it carries,
    its dtype class, and its attachment to a differentiation graph. *)
Record Tensor := mkTensor {
  data : Z;
  dtype : Dtype;
  requires_grad : bool;
  grad_fn : option GradFn;
}.

Definition is_floating_point (t : Tensor) : bool :=
  match dtype t with Floating => true | _ => false end.
Definition is_complex (t : Tensor) : bool :=
  match dtype t with Complex => true | _ => false end.

(** [t.detach()]: same data, cut from the graph. *)
Definition detach (t : Tensor) : Tensor :=
  {| data := data t; dtype := dtype t; requires_grad := false; grad_fn := None |}.

(** A positional argument: a tensor, or any other Python object. *)
Inductive Value := VTensor (t : Tensor) | VOther (o : Z).

Definition value_requires_grad (v : Value) : bool :=
  match v with VTensor t => requires_grad t | VOther _ => false end.

(* ===================================================================== *)
(** ** Identity tokens, packed placeholders, user callbacks *)
(* ===================================================================== *)

(** Objects are named by their identity (what [id(obj)] would give).  A
    [_Handle] has no payload, so a handle is its identity alone. *)
Record _Holder := mkHolder { handle : option nat }.

(** What a save interceptor hands to the graph in place of the tensor. *)
Inductive Packed :=
| PPair (holder : nat) (frames : list nat)
    (* [_checkpoint_hook.pack_hook]: [(holder, tuple(current_frames))] *)
| PDetached (t : Tensor)
    (* [_recomputation_hook.pack_hook]: [x.detach()] *)
| PPlain (t : Tensor).
    (* no interceptor installed: the tensor itself *)

(** A user callback, as the engine sees it: a finite tree of the events
    through which running the callback reaches the checkpoint machinery. *)
Inductive Prog :=
| Ret (out : list Value)
    (* the callback returns *)
| Save (x : Tensor) (k : Packed → Prog)
    (* an operation retains [x] for backward *)
| Restore (graph_task : Z) (saved : Packed) (k : Tensor → Prog)
    (* a backward step asks for a retained value; [graph_task] is what
       [torch._C._current_graph_task_id()] answers at that moment *)
| Release (holder : nat) (k : Prog)
    (* the graph frees the saved slot owning this holder *)
| Checkpoint (fn recompute_fn : list Value → Prog) (args : list Value)
             (k : list Value → Prog).
    (* a nested call of [_checkpoint_impl(fn, recompute_fn, *args)] *)

(* ===================================================================== *)
(** ** Frames, stack entries, global state *)
(* ===================================================================== *)

Record _CheckpointFrame := mkFrame {
  recompute_fn : list Value → Prog;
  maybe_args : option (list Value);
  args_idx : option (list nat);
  child_args_idx : list nat;
  args_handles : option (list nat);
  (** weak references to holders: holder identities, dereferenced through
      the holder store *)
  weak_holders : list nat;
  (** [defaultdict(WeakKeyDictionary)], keyed by graph-task id, then handle *)
  recomputed : gmap Z (gmap nat Tensor);
  (** [defaultdict(lambda: 0)] *)
  recomp_counter : gmap Z nat;
  (** [defaultdict(lambda: False)] *)
  is_recomputed : gmap Z bool;
}.

(** [_CheckpointFrame.__init__]. *)
Definition new_frame (rfn : list Value → Prog) : _CheckpointFrame :=
  {| recompute_fn := rfn; maybe_args := None; args_idx := None;
     child_args_idx := []; args_handles := None; weak_holders := [];
     recomputed := ∅; recomp_counter := ∅; is_recomputed := ∅ |}.

(** Reads of the three default dictionaries. *)
Definition recomputed_at (fr : _CheckpointFrame) (gid : Z) : gmap nat Tensor :=
  default ∅ (recomputed fr !! gid).
Definition recomp_counter_at (fr : _CheckpointFrame) (gid : Z) : nat :=
  default 0 (recomp_counter fr !! gid).
Definition is_recomputed_at (fr : _CheckpointFrame) (gid : Z) : bool :=
  default false (is_recomputed fr !! gid).

Definition set_maybe_args (a : option (list Value)) (fr : _CheckpointFrame) :=
  {| recompute_fn := recompute_fn fr; maybe_args := a; args_idx := args_idx fr;
     child_args_idx := child_args_idx fr; args_handles := args_handles fr;
     weak_holders := weak_holders fr; recomputed := recomputed fr;
     recomp_counter := recomp_counter fr; is_recomputed := is_recomputed fr |}.
Definition set_args_idx (a : option (list nat)) (fr : _CheckpointFrame) :=
  {| recompute_fn := recompute_fn fr; maybe_args := maybe_args fr; args_idx := a;
     child_args_idx := child_args_idx fr; args_handles := args_handles fr;
     weak_holders := weak_holders fr; recomputed := recomputed fr;
     recomp_counter := recomp_counter fr; is_recomputed := is_recomputed fr |}.
Definition set_child_args_idx (a : list nat) (fr : _CheckpointFrame) :=
  {| recompute_fn := recompute_fn fr; maybe_args := maybe_args fr;
     args_idx := args_idx fr; child_args_idx := a;
     args_handles := args_handles fr; weak_holders := weak_holders fr;
     recomputed := recomputed fr; recomp_counter := recomp_counter fr;
     is_recomputed := is_recomputed fr |}.
Definition set_args_handles (a : option (list nat)) (fr : _CheckpointFrame) :=
  {| recompute_fn := recompute_fn fr; maybe_args := maybe_args fr;
     args_idx := args_idx fr; child_args_idx := child_args_idx fr;
     args_handles := a; weak_holders := weak_holders fr;
     recomputed := recomputed fr; recomp_counter := recomp_counter fr;
     is_recomputed := is_recomputed fr |}.
Definition set_weak_holders (a : list nat) (fr : _CheckpointFrame) :=
  {| recompute_fn := recompute_fn fr; maybe_args := maybe_args fr;
     args_idx := args_idx fr; child_args_idx := child_args_idx fr;
     args_handles := args_handles fr; weak_holders := a;
     recomputed := recomputed fr; recomp_counter := recomp_counter fr;
     is_recomputed := is_recomputed fr |}.
Definition set_recomputed (a : gmap Z (gmap nat Tensor)) (fr : _CheckpointFrame) :=
  {| recompute_fn := recompute_fn fr; maybe_args := maybe_args fr;
     args_idx := args_idx fr; child_args_idx := child_args_idx fr;
     args_handles := args_handles fr; weak_holders := weak_holders fr;
     recomputed := a; recomp_counter := recomp_counter fr;
     is_recomputed := is_recomputed fr |}.
Definition set_recomp_counter (a : gmap Z nat) (fr : _CheckpointFrame) :=
  {| recompute_fn := recompute_fn fr; maybe_args := maybe_args fr;
     args_idx := args_idx fr; child_args_idx := child_args_idx fr;
     args_handles := args_handles fr; weak_holders := weak_holders fr;
     recomputed := recomputed fr; recomp_counter := a;
     is_recomputed := is_recomputed fr |}.
Definition set_is_recomputed (a : gmap Z bool) (fr : _CheckpointFrame) :=
  {| recompute_fn := recompute_fn fr; maybe_args := maybe_args fr;
     args_idx := args_idx fr; child_args_idx := child_args_idx fr;
     args_handles := args_handles fr; weak_holders := weak_holders fr;
     recomputed := recomputed fr; recomp_counter := recomp_counter fr;
     is_recomputed := a |}.

(** [_CheckpointStack]: [stack] is a reference to a mutable list of frames. *)
Record _CheckpointStack := mkStack { stack : nat; is_recompute : bool }.

(** The saved-tensor interceptor installed by a [with] block. *)
Inductive Hook :=
| CheckpointHook
| RecomputationHook (target_frame : nat) (gid : Z).

Record State := mkState {
  _enable_checkpoint_early_stop : bool;
  _checkpoint_stacks : list _CheckpointStack;
  (** the list objects the stack entries point to *)
  frame_lists : gmap nat (list nat);
  frame_store : gmap nat _CheckpointFrame;
  (** live holders; a holder the graph has freed is absent, and a weak
      reference to it then answers [None] *)
  holder_store : gmap nat _Holder;
  next_id : nat;
  (** the engine's stack of installed interceptors, innermost last *)
  saved_tensors_hooks : list Hook;
  grad_enabled : bool;
  (** the successive answers of [int(uuid.uuid4())] and how many were drawn *)
  uuid4 : nat → Z;
  uuid_drawn : nat;
  (** instrumentation only: every call [frame.recompute_fn( *args )], oldest
      first, as (frame, graph-task id, arguments) *)
  recompute_calls : list (nat * Z * list Value);
}.

Definition set_checkpoint_stacks (a : list _CheckpointStack) (s : State) :=
  {| _enable_checkpoint_early_stop := _enable_checkpoint_early_stop s;
     _checkpoint_stacks := a; frame_lists := frame_lists s;
     frame_store := frame_store s; holder_store := holder_store s;
     next_id := next_id s; saved_tensors_hooks := saved_tensors_hooks s;
     grad_enabled := grad_enabled s; uuid4 := uuid4 s;
     uuid_drawn := uuid_drawn s; recompute_calls := recompute_calls s |}.
Definition set_frame_lists (a : gmap nat (list nat)) (s : State) :=
  {| _enable_checkpoint_early_stop := _enable_checkpoint_early_stop s;
     _checkpoint_stacks := _checkpoint_stacks s; frame_lists := a;
     frame_store := frame_store s; holder_store := holder_store s;
     next_id := next_id s; saved_tensors_hooks := saved_tensors_hooks s;
     grad_enabled := grad_enabled s; uuid4 := uuid4 s;
     uuid_drawn := uuid_drawn s; recompute_calls := recompute_calls s |}.
Definition set_frame_store (a : gmap nat _CheckpointFrame) (s : State) :=
  {| _enable_checkpoint_early_stop := _enable_checkpoint_early_stop s;
     _checkpoint_stacks := _checkpoint_stacks s; frame_lists := frame_lists s;
     frame_store := a; holder_store := holder_store s;
     next_id := next_id s; saved_tensors_hooks := saved_tensors_hooks s;
     grad_enabled := grad_enabled s; uuid4 := uuid4 s;
     uuid_drawn := uuid_drawn s; recompute_calls := recompute_calls s |}.
Definition set_holder_store (a : gmap nat _Holder) (s : State) :=
  {| _enable_checkpoint_early_stop := _enable_checkpoint_early_stop s;
     _checkpoint_stacks := _checkpoint_stacks s; frame_lists := frame_lists s;
     frame_store := frame_store s; holder_store := a;
     next_id := next_id s; saved_tensors_hooks := saved_tensors_hooks s;
     grad_enabled := grad_enabled s; uuid4 := uuid4 s;
     uuid_drawn := uuid_drawn s; recompute_calls := recompute_calls s |}.
Definition set_next_id (a : nat) (s : State) :=
  {| _enable_checkpoint_early_stop := _enable_checkpoint_early_stop s;
     _checkpoint_stacks := _checkpoint_stacks s; frame_lists := frame_lists s;
     frame_store := frame_store s; holder_store := holder_store s;
     next_id := a; saved_tensors_hooks := saved_tensors_hooks s;
     grad_enabled := grad_enabled s; uuid4 := uuid4 s;
     uuid_drawn := uuid_drawn s; recompute_calls := recompute_calls s |}.
Definition set_saved_tensors_hooks (a : list Hook) (s : State) :=
  {| _enable_checkpoint_early_stop := _enable_checkpoint_early_stop s;
     _checkpoint_stacks := _checkpoint_stacks s; frame_lists := frame_lists s;
     frame_store := frame_store s; holder_store := holder_store s;
     next_id := next_id s; saved_tensors_hooks := a;
     grad_enabled := grad_enabled s; uuid4 := uuid4 s;
     uuid_drawn := uuid_drawn s; recompute_calls := recompute_calls s |}.
Definition set_grad_enabled (a : bool) (s : State) :=
  {| _enable_checkpoint_early_stop := _enable_checkpoint_early_stop s;
     _checkpoint_stacks := _checkpoint_stacks s; frame_lists := frame_lists s;
     frame_store := frame_store s; holder_store := holder_store s;
     next_id := next_id s; saved_tensors_hooks := saved_tensors_hooks s;
     grad_enabled := a; uuid4 := uuid4 s;
     uuid_drawn := uuid_drawn s; recompute_calls := recompute_calls s |}.
Definition set_uuid_drawn (a : nat) (s : State) :=
  {| _enable_checkpoint_early_stop := _enable_checkpoint_early_stop s;
     _checkpoint_stacks := _checkpoint_stacks s; frame_lists := frame_lists s;
     frame_store := frame_store s; holder_store := holder_store s;
     next_id := next_id s; saved_tensors_hooks := saved_tensors_hooks s;
     grad_enabled := grad_enabled s; uuid4 := uuid4 s;
     uuid_drawn := a; recompute_calls := recompute_calls s |}.
Definition set_recompute_calls (a : list (nat * Z * list Value)) (s : State) :=
  {| _enable_checkpoint_early_stop := _enable_checkpoint_early_stop s;
     _checkpoint_stacks := _checkpoint_stacks s; frame_lists := frame_lists s;
     frame_store := frame_store s; holder_store := holder_store s;
     next_id := next_id s; saved_tensors_hooks := saved_tensors_hooks s;
     grad_enabled := grad_enabled s; uuid4 := uuid4 s;
     uuid_drawn := uuid_drawn s; recompute_calls := a |}.

(** The module as loaded: one non-recompute stack entry over an empty list
    (placed at identity 0), nothing else allocated. *)
Definition initial_state (early_stop : bool) (entropy : nat → Z) : State :=
  {| _enable_checkpoint_early_stop := early_stop;
     _checkpoint_stacks := [ {| stack := 0; is_recompute := false |} ];
     frame_lists := {[ 0 := [] ]};
     frame_store := ∅; holder_store := ∅; next_id := 1;
     saved_tensors_hooks := []; grad_enabled := true;
     uuid4 := entropy; uuid_drawn := 0; recompute_calls := [] |}.

(* ===================================================================== *)
(** ** Effects: state threaded through calls that may raise *)
(* ===================================================================== *)

Inductive Exception :=
| _StopRecomputationError
| DoubleConsumption
    (* RuntimeError: "If you are calling ctx.saved_tensor in backward, make
       sure to do so only once. ..." *)
| MissingRecomputedValue
    (* RuntimeError: "Attempt to retrieve a tensor saved by autograd multiple
       times without checkpoint recomputation being triggered in between..." *)
| AssertionError
| IndexError
| KeyError
| TypeError
| RecursionError
    (* the nesting of restores inside recompute callbacks ran out of depth *)
| DanglingReference.
    (* a strong reference to an object that is not in its store; cannot
       happen in Python, where the reference keeps the object alive *)

Inductive Outcome (A : Type) :=
| Ok (a : A) (s : State)
| Raise (e : Exception) (s : State).
Arguments Ok {A} a s.
Arguments Raise {A} e s.

Definition final_state {A} (o : Outcome A) : State :=
  match o with Ok _ s => s | Raise _ s => s end.

Definition M (A : Type) : Type := State → Outcome A.

Definition ret {A} (a : A) : M A := fun s => Ok a s.
Definition raise {A} (e : Exception) : M A := fun s => Raise e s.
Definition bind {A B} (m : M A) (k : A → M B) : M B :=
  fun s => match m s with Ok a s' => k a s' | Raise e s' => Raise e s' end.
Definition get : M State := fun s => Ok s s.
Definition modify (f : State → State) : M unit := fun s => Ok tt (f s).

Declare Scope py_scope.
Delimit Scope py_scope with py.
Notation "'let!' x ':=' c 'in' k" := (bind c (fun x => k))
  (at level 10, x name, c at level 100, k at level 200) : py_scope.
Notation "c ';;;' k" := (bind c (fun _ => k))
  (at level 100, k at level 200, right associativity) : py_scope.
Open Scope py_scope.

(** [x] when the option holds a value, the exception otherwise. *)
Definition or_raise {A} (e : Exception) (o : option A) : M A :=
  match o with Some a => ret a | None => raise e end.

(** [for x in l: body(x)], an exception leaving the loop. *)
Fixpoint for_each {A} (l : list A) (body : A → M unit) : M unit :=
  match l with
  | [] => ret tt
  | x :: l' => body x ;;; for_each l' body
  end.

(** [[f(x) for x in l]]. *)
Fixpoint map_m {A B} (f : A → M B) (l : list A) : M (list B) :=
  match l with
  | [] => ret []
  | x :: l' => let! y := f x in let! ys := map_m f l' in ret (y :: ys)
  end.

(** [try: body  finally: cleanup], for a cleanup that cannot raise. *)
Definition finally {A} (body : M A) (cleanup : State → State) : M A :=
  fun s => match body s with
           | Ok a s' => Ok a (cleanup s')
           | Raise e s' => Raise e (cleanup s')
           end.

(* ===================================================================== *)
(** ** Object stores *)
(* ===================================================================== *)

(** A new object identity. *)
Definition alloc : M nat :=
  fun s => Ok (next_id s) (set_next_id (S (next_id s)) s).

Definition get_frame (f : nat) : M _CheckpointFrame :=
  let! s := get in or_raise DanglingReference (frame_store s !! f).

Definition update_frame (f : nat) (upd : _CheckpointFrame → _CheckpointFrame)
  : M unit :=
  let! fr := get_frame f in
  modify (fun s => set_frame_store (<[f := upd fr]> (frame_store s)) s).

Definition get_holder (h : nat) : M _Holder :=
  let! s := get in or_raise DanglingReference (holder_store s !! h).

Definition put_holder (h : nat) (ho : _Holder) : M unit :=
  modify (fun s => set_holder_store (<[h := ho]> (holder_store s)) s).

(** [ref()] on a weak reference to a holder: [None] once the holder died. *)
Definition deref_weak_holder (h : nat) : M (option _Holder) :=
  let! s := get in ret (holder_store s !! h).

Definition get_list (l : nat) : M (list nat) :=
  let! s := get in or_raise DanglingReference (frame_lists s !! l).

Definition put_list (l : nat) (fs : list nat) : M unit :=
  modify (fun s => set_frame_lists (<[l := fs]> (frame_lists s)) s).

(** A handle that lost its last strong reference is dropped, as a key, from
    every [WeakKeyDictionary] that held it. *)
Definition forget_handle_in (hd : nat) (fr : _CheckpointFrame) : _CheckpointFrame :=
  set_recomputed (delete hd <$> recomputed fr) fr.

Definition forget_handle (hd : option nat) (s : State) : State :=
  match hd with
  | None => s
  | Some hd => set_frame_store (forget_handle_in hd <$> frame_store s) s
  end.

(** The graph frees a saved slot: its holder dies, and with it the holder's
    handle. *)
Definition release_holder (h : nat) : M unit :=
  fun s => match holder_store s !! h with
           | None => Ok tt s
           | Some ho =>
               Ok tt (forget_handle (handle ho)
                        (set_holder_store (delete h (holder_store s)) s))
           end.

(* ===================================================================== *)
(** ** [with] blocks of the engine *)
(* ===================================================================== *)

(** [with <saved_tensors_hooks>: body]: the interceptor is innermost for the
    duration of the body and removed however the body ends. *)
Definition with_hook {A} (h : Hook) (body : M A) : M A :=
  modify (fun s => set_saved_tensors_hooks (saved_tensors_hooks s ++ [h]) s) ;;;
  finally body
    (fun s => set_saved_tensors_hooks (removelast (saved_tensors_hooks s)) s).

(** [with torch.autograd.enable_grad(): body]. *)
Definition with_enable_grad {A} (body : M A) : M A :=
  let! s0 := get in
  modify (set_grad_enabled true) ;;;
  finally body (set_grad_enabled (grad_enabled s0)).

(* ===================================================================== *)
(** ** The inner interceptor: [_recomputation_hook] *)
(* ===================================================================== *)

Module _recomputation_hook.

(** The value published for position [recomp_idx]: the tensor itself for a
    delegated child input, a detached copy otherwise. *)
Definition published (fr : _CheckpointFrame) (recomp_idx : nat) (x : Tensor)
  : Tensor :=
  if decide (recomp_idx ∈ child_args_idx fr) then x else detach x.

(** [target_frame.recomputed[gid][handle] = v]. *)
Definition store_recomputed (gid : Z) (hd : nat) (v : Tensor)
    (fr : _CheckpointFrame) : _CheckpointFrame :=
  set_recomputed (<[gid := <[hd := v]> (recomputed_at fr gid)]> (recomputed fr)) fr.

(** [target_frame.recomp_counter[gid] += 1]. *)
Definition bump_counter (gid : Z) (fr : _CheckpointFrame) : _CheckpointFrame :=
  set_recomp_counter
    (<[gid := S (recomp_counter_at fr gid)]> (recomp_counter fr)) fr.

Definition pack_hook (target_frame : nat) (gid : Z) (x : Tensor) : M Packed :=
  let! s0 := get in
  (* target_frame = target_frame_ref(); assert target_frame is not None *)
  let! fr := or_raise AssertionError (frame_store s0 !! target_frame) in
  let recomp_idx := recomp_counter_at fr gid in
  update_frame target_frame (bump_counter gid) ;;;
  (* holder = target_frame.weak_holders[recomp_idx]() *)
  let! weak := or_raise IndexError (weak_holders fr !! recomp_idx) in
  let! holder := deref_weak_holder weak in
  match holder with
  | None => ret tt
  | Some ho =>
      let! hd :=
        match handle ho with
        | Some hd => ret hd
        | None =>
            let! hd := alloc in
            put_holder weak {| handle := Some hd |} ;;; ret hd
        end in
      update_frame target_frame
        (store_recomputed gid hd (published fr recomp_idx x))
  end ;;;
  let! s1 := get in
  let! fr1 := get_frame target_frame in
  if _enable_checkpoint_early_stop s1
     && (recomp_counter_at fr1 gid =? length (weak_holders fr1))
  then raise _StopRecomputationError
  else ret (PDetached (detach x)).

Definition unpack_hook (x : Tensor) : M Tensor := ret x.

End _recomputation_hook.

(* ===================================================================== *)
(** ** Frame methods used by a restore *)
(* ===================================================================== *)

(** [_CheckpointFrame.get_args_from_parent(self, parent_frame, gid)]. *)
Definition get_args_from_parent (self parent_frame : nat) (gid : Z)
  : M (list Value) :=
  let! me := get_frame self in
  (* assert self.args_idx is not None *)
  let! idxs := or_raise AssertionError (args_idx me) in
  map_m
    (fun idx =>
       let! parent := get_frame parent_frame in
       let! weak := or_raise IndexError (weak_holders parent !! idx) in
       let! holder := deref_weak_holder weak in
       (* assert holder is not None *)
       let! ho := or_raise AssertionError holder in
       (* a weak-key dictionary cannot be indexed by None *)
       let! hd := or_raise TypeError (handle ho) in
       let! x := or_raise KeyError (recomputed_at parent gid !! hd) in
       ret (VTensor x))
    idxs.

(* ===================================================================== *)
(** ** The outer interceptor: [_checkpoint_hook] *)
(* ===================================================================== *)

Module _checkpoint_hook.

Definition pack_hook (_unused_x : Tensor) : M Packed :=
  let! s := get in
  (* current_frames, is_recompute = _checkpoint_stacks[-1] *)
  let! entry := or_raise IndexError (py_last (_checkpoint_stacks s)) in
  let! current_frames := get_list (stack entry) in
  let! top_frame := or_raise IndexError (py_last current_frames) in
  let! hd := alloc in
  let! holder := alloc in
  put_holder holder {| handle := Some hd |} ;;;
  update_frame top_frame
    (fun fr => set_weak_holders (weak_holders fr ++ [holder]) fr) ;;;
  ret (PPair holder current_frames).

(** [gid = torch._C._current_graph_task_id()], replaced by
    [int(uuid.uuid4())] when it is [-1]. *)
Definition current_gid (graph_task : Z) : M Z :=
  if decide (graph_task = (-1)%Z)
  then fun s => Ok (uuid4 s (uuid_drawn s)) (set_uuid_drawn (S (uuid_drawn s)) s)
  else ret graph_task.

(** [_checkpoint_stacks.append(_CheckpointStack(stack=[], is_recompute=True))]. *)
Definition push_recompute_stack : M unit :=
  let! l := alloc in
  put_list l [] ;;;
  modify (fun s => set_checkpoint_stacks
                     (_checkpoint_stacks s ++ [ {| stack := l; is_recompute := true |} ]) s).

(** [_checkpoint_stacks.pop()]. *)
Definition pop_stack : M unit :=
  let! s := get in
  match _checkpoint_stacks s with
  | [] => raise IndexError
  | _ => modify (set_checkpoint_stacks (removelast (_checkpoint_stacks s)))
  end.

(** [frame.is_recomputed[gid] = True]. *)
Definition mark_recomputed (gid : Z) (fr : _CheckpointFrame) : _CheckpointFrame :=
  set_is_recomputed (<[gid := true]> (is_recomputed fr)) fr.

Section WithCallbacks.
(** How a stored recompute callback is run. *)
Variable run_callback : Prog → M (list Value).

(** [frame.recompute_fn( *args )], noted in the call record. *)
Definition call_recompute_fn (frame : nat) (gid : Z) (args : list Value)
  : M unit :=
  let! fr := get_frame frame in
  modify (fun s => set_recompute_calls
                     (recompute_calls s ++ [(frame, gid, args)]) s) ;;;
  run_callback (recompute_fn fr args) ;;; ret tt.

(** The [try ... except _StopRecomputationError] statement of the loop. *)
Definition try_recompute (frame : nat) (gid : Z) (args : list Value)
  : M unit :=
  fun s =>
    match (push_recompute_stack ;;;
           with_hook (RecomputationHook frame gid)
             (with_enable_grad
                (call_recompute_fn frame gid args ;;;
                 let! s' := get in
                 if _enable_checkpoint_early_stop s'
                 then raise AssertionError else ret tt))) s with
    | Ok _ s' => Ok tt s'
    | Raise _StopRecomputationError s' => pop_stack s'
    | Raise e s' => Raise e s'
    end.

(** One turn of [for i in range(len(frames))]. *)
Definition recompute_frame (frames : list nat) (gid : Z) (i : nat) : M unit :=
  let! frame := or_raise IndexError (frames !! i) in
  let! fr := get_frame frame in
  if is_recomputed_at fr gid then ret tt
  else
    let! args :=
      match maybe_args fr with
      | None =>
          let! parent :=
            or_raise IndexError (py_getitem frames (Z.of_nat i - 1)) in
          get_args_from_parent frame parent gid
      | Some args => ret args
      end in
    try_recompute frame gid args ;;;
    update_frame frame (mark_recomputed gid).

(** The tail of [unpack_hook], after the loop. *)
Definition retrieve (holder top_frame : nat) (gid : Z) : M Tensor :=
  let! ho := get_holder holder in
  match handle ho with
  | None => raise DoubleConsumption
  | Some hd =>
      let! top := get_frame top_frame in
      match recomputed_at top gid !! hd with
      | None => raise MissingRecomputedValue
      | Some ret_ =>
          (* holder.handle = None *)
          put_holder holder {| handle := None |} ;;;
          modify (forget_handle (Some hd)) ;;;
          ret ret_
      end
  end.

Definition unpack_hook (graph_task : Z) (holder : nat) (frames : list nat)
  : M Tensor :=
  let! top_frame := or_raise IndexError (py_last frames) in
  let! gid := current_gid graph_task in
  for_each (seq 0 (length frames)) (recompute_frame frames gid) ;;;
  retrieve holder top_frame gid.

End WithCallbacks.

End _checkpoint_hook.

(* ===================================================================== *)
(** ** The engine routing saves and restores to the interceptors *)
(* ===================================================================== *)

(** Modelled from the spec: the differentiation engine, which is not part of
    this module, routes every value-retention event to the innermost
    installed interceptor pair; with none installed the tensor is kept as it
    is. *)
Definition engine_save (x : Tensor) : M Packed :=
  let! s := get in
  match last (saved_tensors_hooks s) with
  | None => ret (PPlain x)
  | Some CheckpointHook => _checkpoint_hook.pack_hook x
  | Some (RecomputationHook f gid) => _recomputation_hook.pack_hook f gid x
  end.

(** Modelled from the spec: a retrieval goes to the restore side of the pair
    that packed the value. *)
Definition engine_restore (run_callback : Prog → M (list Value))
    (graph_task : Z) (saved : Packed) : M Tensor :=
  match saved with
  | PPair holder frames =>
      _checkpoint_hook.unpack_hook run_callback graph_task holder frames
  | PDetached x => _recomputation_hook.unpack_hook x
  | PPlain x => ret x
  end.

(* ===================================================================== *)
(** ** The nested-input adapter *)
(* ===================================================================== *)

Module _NoopSaveInputs.

(** [forward( *args )]: the inputs, as they are. *)
Definition forward (args : list Value) : list Value := args.

(** [setup_context]: [ctx.save_for_backward( *inputs )], one save per
    tensor input, in order. *)
Definition setup_context (inputs : list Value) : M unit :=
  for_each inputs
    (fun v => match v with
              | VTensor t => engine_save t ;;; ret tt
              | VOther _ => ret tt
              end).

(** Modelled from the spec: how [torch.autograd.Function.apply], which is
    not part of this module, hands back the outputs of [forward].  When
    gradient tracking is on and some input requires grad, every output of a
    differentiable dtype is attached to the new graph node, and so requires
    grad whether or not the matching input did (this is what the wrapper
    below undoes); otherwise the outputs are the inputs. *)
Definition wrap_output (v : Value) : Value :=
  match v with
  | VTensor t =>
      if is_floating_point t || is_complex t
      then VTensor {| data := data t; dtype := dtype t; requires_grad := true;
                      grad_fn := Some NoopSaveInputsBackward |}
      else v
  | VOther _ => v
  end.

(** Modelled from the spec: [torch.autograd.Function.apply] runs [forward]
    and [setup_context] and hands back the wrapped outputs. *)
Definition apply (args : list Value) : M (list Value) :=
  let! s := get in
  let output := forward args in
  setup_context args ;;;
  if grad_enabled s && existsb value_requires_grad args
  then ret (wrap_output <$> output)
  else ret output.

End _NoopSaveInputs.

(** Whether position [i], holding [t], goes into [idx_no_req_grad]. *)
Definition no_req_grad (t : Value) : bool :=
  match t with
  | VTensor t => negb (requires_grad t) && (is_floating_point t || is_complex t)
  | VOther _ => false
  end.

(** [[i for i, t in enumerate(args) if ...]]. *)
Fixpoint indices_no_req_grad (i : nat) (args : list Value) : list nat :=
  match args with
  | [] => []
  | t :: args' =>
      if no_req_grad t then i :: indices_no_req_grad (S i) args'
      else indices_no_req_grad (S i) args'
  end.

Definition detach_value (v : Value) : Value :=
  match v with VTensor t => VTensor (detach t) | VOther _ => v end.

Definition _applyAutogradFunctionToSaveInputs (args : list Value) : M (list Value) :=
  let idx_no_req_grad := indices_no_req_grad 0 args in
  let! new_args := _NoopSaveInputs.apply args in
  ret (imap (fun i t => if decide (i ∈ idx_no_req_grad) then detach_value t else t)
         new_args).

(** [_CheckpointFrame.save_args_to_parent(self, parent_frame, args)]. *)
Definition save_args_to_parent (self parent_frame : nat) (args : list Value)
  : M (list Value) :=
  let! parent0 := get_frame parent_frame in
  let parent_pre_len := length (weak_holders parent0) in
  let! new_args := _applyAutogradFunctionToSaveInputs args in
  let! parent1 := get_frame parent_frame in
  let post_len := length (weak_holders parent1) in
  update_frame self
    (set_args_handles
       (Some (drop parent_pre_len (take post_len (weak_holders parent1))))) ;;;
  let indices := seq parent_pre_len (post_len - parent_pre_len) in
  update_frame parent_frame
    (fun fr => set_child_args_idx (child_args_idx fr ++ indices) fr) ;;;
  update_frame self (set_args_idx (Some indices)) ;;;
  ret new_args.

(* ===================================================================== *)
(** ** [_checkpoint_impl] *)
(* ===================================================================== *)

(** [fn] is given by what running it does; [recompute_fn] is kept on the
    frame for later. *)
Definition _checkpoint_impl (fn : list Value → M (list Value))
    (recompute_fn : list Value → Prog) (args : list Value) : M (list Value) :=
  let! s := get in
  (* curr_stack, is_curr_stack_recompute = _checkpoint_stacks[-1] *)
  let! entry := or_raise IndexError (py_last (_checkpoint_stacks s)) in
  let curr_stack := stack entry in
  let! new_frame_id := alloc in
  modify (fun s => set_frame_store
                     (<[new_frame_id := new_frame recompute_fn]> (frame_store s)) s) ;;;
  let! frames := get_list curr_stack in
  let! args :=
    if 0 <? length frames then
      let! parent := or_raise IndexError (py_last frames) in
      save_args_to_parent new_frame_id parent args
    else if is_recompute entry then
      let! args := _applyAutogradFunctionToSaveInputs args in
      update_frame new_frame_id (set_maybe_args (Some args)) ;;;
      ret args
    else
      update_frame new_frame_id (set_maybe_args (Some args)) ;;;
      ret args in
  (* curr_stack.append(new_frame) *)
  (let! frames := get_list curr_stack in
   put_list curr_stack (frames ++ [new_frame_id])) ;;;
  let! ret_ := with_hook CheckpointHook (fn args) in
  (* curr_stack.pop() *)
  (let! frames := get_list curr_stack in
   match frames with
   | [] => raise IndexError
   | _ => put_list curr_stack (removelast frames)
   end) ;;;
  ret ret_.

(** What is left of [_checkpoint_impl] once [fn] has ended in outcome [o]:
    the [with] block is left, and after a normal return [curr_stack.pop()]
    runs. *)
Definition leave_region (curr_stack : nat) (o : Outcome (list Value))
  : Outcome (list Value) :=
  match o with
  | Ok ret_ s =>
      let s := set_saved_tensors_hooks (removelast (saved_tensors_hooks s)) s in
      match frame_lists s !! curr_stack with
      | None => Raise DanglingReference s
      | Some [] => Raise IndexError s
      | Some frames =>
          Ok ret_ (set_frame_lists (<[curr_stack := removelast frames]> (frame_lists s)) s)
      end
  | Raise e s =>
      Raise e (set_saved_tensors_hooks (removelast (saved_tensors_hooks s)) s)
  end.

(** The tensors among the arguments, in order. *)
Definition tensors_of (args : list Value) : list Tensor :=
  omap (fun v => match v with VTensor t => Some t | VOther _ => None end) args.

(* ===================================================================== *)
(** ** Running callbacks *)
(* ===================================================================== *)

Section Run.
(** How the recompute callbacks stored on frames are run when a restore
    inside this callback needs them. *)
Variable run_callback : Prog → M (list Value).

Fixpoint run (p : Prog) : M (list Value) :=
  match p with
  | Ret out => ret out
  | Save x k => let! packed := engine_save x in run (k packed)
  | Restore graph_task saved k =>
      let! x := engine_restore run_callback graph_task saved in run (k x)
  | Release holder k => release_holder holder ;;; run k
  | Checkpoint fn rfn args k =>
      let! out := _checkpoint_impl (fun a => run (fn a)) rfn args in run (k out)
  end.
End Run.

(** Callbacks nest through restores; [depth] bounds that nesting. *)
Fixpoint exec (depth : nat) : Prog → M (list Value) :=
  match depth with
  | 0 => fun _ => raise RecursionError
  | S d => run (exec d)
  end.

(** The outcome is a failure of the depth bound itself. *)
Definition overflowed {A} (o : Outcome A) : bool :=
  match o with Raise RecursionError _ => true | _ => false end.

(** [c2] agrees with [c1] wherever [c1] stays within the depth bound. *)
Definition extends {A} (c1 c2 : M A) : Prop :=
  ∀ s, overflowed (c1 s) = false → c2 s = c1 s.

(* ===================================================================== *)
(** ** Vocabulary of the properties *)
(* ===================================================================== *)

(** No identity in use by a holder or as a handle reaches the allocation
    counter. *)
Definition ids_below_next (s : State) : Prop :=
  ∀ h ho, holder_store s !! h = Some ho →
    h < next_id s ∧ ∀ hd, handle ho = Some hd → hd < next_id s.

(** The recompute calls recorded for graph task [gid]. *)
Definition calls_under (gid : Z) (log : list (nat * Z * list Value))
  : list (nat * Z * list Value) :=
  filter (fun c => c.1.2 = gid) log.

(** How many times frame [f]'s recompute callback was called for [gid]. *)
Definition calls_of (f : nat) (gid : Z) (log : list (nat * Z * list Value)) : nat :=
  length (filter (fun c => c.1.1 = f) (calls_under gid log)).

(** The callback never asks for a restore under graph task [gid]. *)
Fixpoint avoids (gid : Z) (p : Prog) : Prop :=
  match p with
  | Ret _ => True
  | Save _ k => ∀ packed, avoids gid (k packed)
  | Restore graph_task _ k => graph_task ≠ gid ∧ ∀ x, avoids gid (k x)
  | Release _ k => avoids gid k
  | Checkpoint fn rfn _ k =>
      (∀ a, avoids gid (fn a)) ∧ (∀ a, avoids gid (rfn a)) ∧
      ∀ out, avoids gid (k out)
  end.

(** The restores one backward pass asks for, in order, all under [gid]; the
    first exception ends the pass. *)
Definition restore_all (run_callback : Prog → M (list Value)) (gid : Z)
    (saved : list (nat * list nat)) : M unit :=
  for_each saved
    (fun hf => _checkpoint_hook.unpack_hook run_callback gid hf.1 hf.2 ;;; ret tt).

(** Frame [f] is marked as recomputed for [gid]. *)
Definition flagged (s : State) (f : nat) (gid : Z) : Prop :=
  ∃ fr, frame_store s !! f = Some fr ∧ is_recomputed_at fr gid = true.

(** What the pass under [gid] relies on: no stored callback restores under
    [gid], no identifier synthesized from now on equals [gid], and frame
    identities come from the allocation counter. *)
Definition good (gid : Z) (s : State) : Prop :=
  (∀ f fr a, frame_store s !! f = Some fr → avoids gid (recompute_fn fr a)) ∧
  (∀ n, uuid_drawn s ≤ n → uuid4 s n ≠ gid) ∧
  (∀ f fr, frame_store s !! f = Some fr → f < next_id s).

(** The frame still has its callback and its flag for [gid]. *)
Definition frame_kept (gid : Z) (fr fr' : _CheckpointFrame) : Prop :=
  recompute_fn fr' = recompute_fn fr ∧
  is_recomputed_at fr' gid = is_recomputed_at fr gid.

(** Between [s] and [s'] nothing was recorded as called under [gid] and
    every frame was kept. *)
Definition steady (gid : Z) (s s' : State) : Prop :=
  calls_under gid (recompute_calls s') = calls_under gid (recompute_calls s) ∧
  ∀ f fr, frame_store s !! f = Some fr →
          ∃ fr', frame_store s' !! f = Some fr' ∧ frame_kept gid fr fr'.

(** Running [m] from [s] keeps [good] and is [steady]. *)
Definition safe {A} (gid : Z) (m : M A) (s : State) : Prop :=
  good gid s → good gid (final_state (m s)) ∧ steady gid s (final_state (m s)).

(** The backward pass under [gid] has called no callback twice, and has
    flagged every frame whose callback it called. *)
Definition once_and_flagged (gid : Z) (s : State) : Prop :=
  ∀ f, calls_of f gid (recompute_calls s) ≤ 1 ∧
       (calls_of f gid (recompute_calls s) = 1 → flagged s f gid).

(** No callback was called twice under [gid]. *)
Definition at_most_once (gid : Z) (s : State) : Prop :=
  ∀ f, calls_of f gid (recompute_calls s) ≤ 1.

(** As [steady], except that one call of [frame]'s callback under [gid] may
    have been recorded. *)
Definition one_call (gid : Z) (frame : nat) (args : list Value) (s s' : State)
  : Prop :=
  (calls_under gid (recompute_calls s') = calls_under gid (recompute_calls s) ∨
   calls_under gid (recompute_calls s')
   = calls_under gid (recompute_calls s) ++ [(frame, gid, args)]) ∧
  ∀ f fr, frame_store s !! f = Some fr →
          ∃ fr', frame_store s' !! f = Some fr' ∧ frame_kept gid fr fr'.

(** Running [m] from [s] keeps [good] and records at most that one call. *)
Definition calls_once {A} (gid : Z) (frame : nat) (args : list Value)
    (m : M A) (s : State) : Prop :=
  good gid s →
  good gid (final_state (m s)) ∧ one_call gid frame args s (final_state (m s)).

(** The state in which [try_recompute] starts the callback, and what the two
    [with] blocks undo once the callback has ended in [s1]. *)
Definition recompute_entered (frame : nat) (gid : Z) (args : list Value)
    (s : State) : State :=
  set_recompute_calls (recompute_calls s ++ [(frame, gid, args)])
    (set_grad_enabled true
       (set_saved_tensors_hooks
          (saved_tensors_hooks s ++ [RecomputationHook frame gid])
          (set_checkpoint_stacks
             (_checkpoint_stacks s ++ [ {| stack := next_id s; is_recompute := true |} ])
             (set_frame_lists (<[next_id s := []]> (frame_lists s))
                (set_next_id (S (next_id s)) s))))).

Definition recompute_left (s s1 : State) : State :=
  set_saved_tensors_hooks (removelast (saved_tensors_hooks s1))
    (set_grad_enabled (grad_enabled s) s1).


(* ===================================================================== *)
(** ** Sample tensors, callbacks and states *)
(* ===================================================================== *)

Module Sample.

Definition entropy (n : nat) : Z := 1000 + Z.of_nat n.

(** A leaf input, an intermediate value, an integer tensor. *)
Definition x : Tensor :=
  {| data := 10; dtype := Floating; requires_grad := true; grad_fn := None |}.
Definition y : Tensor :=
  {| data := 11; dtype := Floating; requires_grad := true;
     grad_fn := Some (OpBackward 1) |}.
Definition plain : Tensor :=
  {| data := 12; dtype := Floating; requires_grad := false; grad_fn := None |}.
Definition index : Tensor :=
  {| data := 13; dtype := Integral; requires_grad := false; grad_fn := None |}.

(** Inputs of every kind the adapter tells apart. *)
Definition mixed : list Value :=
  [VTensor plain; VTensor x; VTensor index; VOther 5].

(** [y = x.sin(); z = y.cos()]: two saves. *)
Definition sin_cos (_ : list Value) : Prog :=
  Save x (fun _ => Save y (fun _ => Ret [])).

(** The same, then [torch.autograd.grad(z, x)] inside the region (a restore
    of what [cos] saved, under the graph task of that call), then
    [w = x.sin()]. *)
Definition grad_inside (_ : list Value) : Prog :=
  Save x (fun _ => Save y (fun py =>
    Restore 1 py (fun v => Save x (fun _ => Ret [VTensor v])))).

(** The state in which the body of a top-level region runs [sin_cos]: the
    region's frame is frame 1, on the initial stack entry. *)
Definition in_region (early_stop : bool) : State :=
  set_saved_tensors_hooks [CheckpointHook]
    (set_frame_lists {[ 0 := [1] ]}
       (set_frame_store {[ 1 := set_maybe_args (Some [VTensor x]) (new_frame sin_cos) ]}
          (set_next_id 2 (initial_state early_stop entropy)))).

(** After [checkpoint(sin_cos, x)] returned: holders 3 and 5 stand for the
    values saved by [sin] and [cos]. *)
Definition after_forward (early_stop : bool) : State :=
  final_state
    (exec 1 (Checkpoint sin_cos sin_cos [VTensor x] Ret)
       (initial_state early_stop entropy)).

(** A region whose body is one nested region running [sin_cos] on [x]. *)
Definition nested (_ : list Value) : Prog :=
  Checkpoint sin_cos sin_cos [VTensor x] (fun _ => Ret []).

(** After [checkpoint(nested, x)] returned: frame 1 is the outer region,
    frame 2 the inner one; holder 4 stands for the inner region's input,
    saved onto frame 1, holders 6 and 8 for what [sin] and [cos] saved. *)
Definition after_nested_forward (early_stop : bool) : State :=
  final_state
    (exec 1 (Checkpoint nested nested [VTensor x] Ret)
       (initial_state early_stop entropy)).

(** At the start of recomputing frame 1 for graph task 7 after that forward:
    the inner interceptor is installed and nothing has been replayed yet. *)
Definition in_recompute (early_stop : bool) : State :=
  recompute_entered 1 7 [VTensor x] (after_forward early_stop).

End Sample.

(* ===================================================================== *)
(** ** Outside the engine: results and Python's built-in errors *)
(* ===================================================================== *)

Module builtins.
Inductive error :=
| RuntimeError (args : list string)
| ValueError (msg : string)
| ZeroDivisionError
| IndexError
| Raised (code : Z).
    (* whatever else a user's callable raises *)
End builtins.

(** What a call that keeps no state of its own comes to. *)
Inductive result (A : Type) :=
| Returns (a : A)
| Raises (e : builtins.error).
Arguments Returns {A} a.
Arguments Raises {A} e.

(** [None], one object among the non-tensors. *)
Definition py_None : Value := VOther 0.

(** [range(start, stop)]. *)
Definition py_range (start stop : Z) : list Z := seqZ start (stop - start).

(** [range(start, stop, step)]; [None] stands for
    [ValueError: range() arg 3 must not be zero]. *)
Definition py_range_step (start stop step : Z) : option (list Z) :=
  if decide (step = 0)%Z then None
  else
    let len :=
      if (0 <? step)%Z then ((stop - start + step - 1) / step)%Z
      else ((start - stop - step - 1) / (- step))%Z in
    Some ((fun k => (start + step * Z.of_nat k)%Z) <$> seq 0 (Z.to_nat len)).

(** [for j in js: x = body(j, x)], an exception leaving the loop. *)
Fixpoint for_in {S} (js : list Z) (body : Z → S → result S) (x : S) : result S :=
  match js with
  | [] => Returns x
  | j :: js' =>
      match body j x with
      | Returns x' => for_in js' body x'
      | Raises e => Raises e
      end
  end.

(** [d.pop(k, default)] on a dictionary: the value popped, and what is left
    of [d]. *)
Definition dict_pop {A} (k : string) (default_ : A) (d : list (string * A))
  : A * list (string * A) :=
  match list_find (fun kv => kv.1 = k) d with
  | Some (_, kv) => (kv.2, filter (fun kv => kv.1 ≠ k) d)
  | None => (default_, d)
  end.

(* ===================================================================== *)
(** ** [detach_variable], [check_backward_validity] *)
(* ===================================================================== *)

(** What [detach_variable] may be handed: a tuple, or an object of another
    type, of which only the type's name is looked at. *)
Inductive Inputs :=
| a_tuple (items : list Value)
| not_a_tuple (type_name : string).

(** One turn of [for inp in inputs]: a non-tensor is passed on; a tensor is
    detached and given the [requires_grad] of the original.  (A tensor that
    requires grad is of a differentiable dtype, so the assignment is one the
    library accepts.) *)
Definition detach_input (inp : Value) : Value :=
  match inp with
  | VOther _ => inp
  | VTensor t =>
      let x := detach t in
      VTensor {| data := data x; dtype := dtype x;
                 requires_grad := requires_grad t; grad_fn := grad_fn x |}
  end.

Definition detach_variable (inputs : Inputs) : result (list Value) :=
  match inputs with
  | a_tuple items =>
      Returns (fold_left (fun out inp => out ++ [detach_input inp]) items [])
  | not_a_tuple type_name =>
      Raises (builtins.RuntimeError
                ["Only tuple of tensors is supported. Got Unsupported input type: ";
                 type_name])
  end.

(** The warnings [check_backward_validity] issues. *)
Definition check_backward_validity (inputs : list Value) : list string :=
  if negb (existsb requires_grad (tensors_of inputs))
  then ["None of the inputs have requires_grad=True. Gradients will be None"]
  else [].

(* ===================================================================== *)
(** ** [CheckpointFunction]: the bookkeeping of inputs and outputs *)
(* ===================================================================== *)

Module CheckpointFunction.

(** What [forward] leaves on [ctx] about its arguments, and the tensors it
    hands to [ctx.save_for_backward]. *)
Record Ctx := mkCtx {
  inputs : list Value;
  tensor_indices : list nat;
  tensor_inputs : list Tensor;
}.

(** One turn of [for i, arg in enumerate(args)] in [forward]. *)
Definition forward_step (ctx : Ctx) (i : nat) (arg : Value) : Ctx :=
  match arg with
  | VTensor t =>
      {| inputs := inputs ctx ++ [py_None];
         tensor_indices := tensor_indices ctx ++ [i];
         tensor_inputs := tensor_inputs ctx ++ [t] |}
  | VOther _ =>
      {| inputs := inputs ctx ++ [arg];
         tensor_indices := tensor_indices ctx;
         tensor_inputs := tensor_inputs ctx |}
  end.

(** The loop of [forward] over its arguments. *)
Definition forward_inputs (args : list Value) : Ctx :=
  fold_left (fun ctx ia => forward_step ctx ia.1 ia.2) (imap pair args)
    {| inputs := []; tensor_indices := []; tensor_inputs := [] |}.

(** One turn of [for i, idx in enumerate(tensor_indices)] in [backward]:
    [inputs[idx] = tensors[i]]. *)
Definition backward_step (tensors : list Tensor) (inputs : list Value)
    (i idx : nat) : result (list Value) :=
  match tensors !! i with
  | None => Raises builtins.IndexError
  | Some t =>
      if decide (idx < length inputs) then Returns (<[idx := VTensor t]> inputs)
      else Raises builtins.IndexError
  end.

(** The loop of [backward] that fills the saved tensors into a copy of
    [ctx.inputs]. *)
Definition backward_inputs (ctx_inputs : list Value) (tensor_indices : list nat)
    (tensors : list Tensor) : result (list Value) :=
  fold_left
    (fun acc iidx =>
       match acc with
       | Returns inputs => backward_step tensors inputs iidx.1 iidx.2
       | Raises e => Raises e
       end)
    (imap pair tensor_indices) (Returns ctx_inputs).

(** What the recomputation returned: one tensor, or a sequence. *)
Inductive Outputs :=
| one_tensor (t : Tensor)
| several (items : list Value).

(** One turn of [for i in range(len(outputs))] in [backward]; [args] are the
    gradients [backward] was called with. *)
Definition select_step {G} (outputs : list Value) (args : list G)
    (acc : list Tensor * list G) (i : nat) : result (list Tensor * list G) :=
  match outputs !! i with
  | Some (VTensor o) =>
      if requires_grad o then
        match args !! i with
        | Some g => Returns (acc.1 ++ [o], acc.2 ++ [g])
        | None => Raises builtins.IndexError
        end
      else Returns acc
  | _ => Returns acc
  end.

(** [outputs_with_grad] and [args_with_grad] as [backward] builds them, and
    its check that something is left to differentiate. *)
Definition outputs_with_grad {G} (outputs : Outputs) (args : list G)
  : result (list Tensor * list G) :=
  let outputs :=
    match outputs with one_tensor t => [VTensor t] | several items => items end in
  let selected :=
    fold_left
      (fun acc i =>
         match acc with
         | Returns acc => select_step outputs args acc i
         | Raises e => Raises e
         end)
      (seq 0 (length outputs)) (Returns ([], [])) in
  match selected with
  | Returns (outputs_with_grad, args_with_grad) =>
      if decide (length outputs_with_grad = 0)
      then Raises (builtins.RuntimeError
                     ["none of output has requires_grad=True, this checkpoint() is not necessary"])
      else Returns (outputs_with_grad, args_with_grad)
  | Raises e => Raises e
  end.

(** What [backward] returns: [(None, None) + grads], where [grad i] is what
    the [.grad] of the [i]-th detached input holds after the inner backward
    pass. *)
Definition backward_result (detached_inputs : list Value) (grad : nat → Value)
  : list Value :=
  [py_None; py_None]
  ++ imap (fun i inp => match inp with VTensor _ => grad i | VOther _ => py_None end)
       detached_inputs.

End CheckpointFunction.

(* ===================================================================== *)
(** ** [checkpoint] and [checkpoint_sequential] *)
(* ===================================================================== *)

Section Checkpoint.
(** The callable, its positional arguments, the values of keyword
    arguments, and what a call returns. *)
Context {Fn Args V R : Type}.
(** [True]. *)
Variable py_True : V.
(** [CheckpointFunction.apply(function, preserve, *args)]. *)
Variable CheckpointFunction_apply : Fn → V → Args → result R.
(** [_checkpoint_without_reentrant(function, preserve, *args, **kwargs)]. *)
Variable _checkpoint_without_reentrant :
  Fn → V → Args → list (string * V) → result R.

Definition checkpoint (function : Fn) (args : Args) (use_reentrant : bool)
    (kwargs : list (string * V)) : result R :=
  let '(preserve, kwargs) := dict_pop "preserve_rng_state" py_True kwargs in
  if bool_decide (kwargs ≠ []) && use_reentrant then
    Raises (builtins.ValueError
              ("Unexpected keyword arguments: " ++ String.concat "," kwargs.*1))
  else if use_reentrant then CheckpointFunction_apply function preserve args
  else _checkpoint_without_reentrant function preserve args kwargs.

End Checkpoint.

Section Sequential.
(** What flows through the chain, and the values of keyword arguments. *)
Context {X V : Type}.
Variable py_True : V.
(** [checkpoint(function, input, use_reentrant=..., **kwargs)]. *)
Variable checkpoint :
  (X → result X) → X → bool → list (string * V) → result X.

(** [functions]: a [torch.nn.Sequential], or a list. *)
Inductive Functions :=
| Sequential (children : list (X → result X))
| function_list (items : list (X → result X)).

(** The closure [forward] that [run_function(start, end, functions)]
    returns. *)
Definition run_function (start end_ : Z) (functions : list (X → result X))
    (input : X) : result X :=
  for_in (py_range start (end_ + 1))
    (fun j input =>
       match py_getitem functions j with
       | Some f => f input
       | None => Raises builtins.IndexError
       end)
    input.

Definition checkpoint_sequential (functions : Functions) (segments : Z)
    (input : X) (use_reentrant : bool) (kwargs : list (string * V))
  : result X :=
  let '(preserve, kwargs) := dict_pop "preserve_rng_state" py_True kwargs in
  if bool_decide (kwargs ≠ []) then
    Raises (builtins.ValueError
              ("Unexpected keyword arguments: " ++ String.concat "," kwargs.*1))
  else
    let functions :=
      match functions with
      | Sequential children => children
      | function_list items => items
      end in
    if decide (segments = 0)%Z then Raises builtins.ZeroDivisionError
    else
      let segment_size := (Z.of_nat (length functions) / segments)%Z in
      match py_range_step 0 (segment_size * (segments - 1)) segment_size with
      | None => Raises (builtins.ValueError "range() arg 3 must not be zero")
      | Some starts =>
          match
            for_in starts
              (fun start st =>
                 let end_ := (start + segment_size - 1)%Z in
                 match
                   checkpoint (run_function start end_ functions) st.2
                     use_reentrant [("preserve_rng_state", preserve)]
                 with
                 | Returns input => Returns (end_, input)
                 | Raises e => Raises e
                 end)
              ((-1)%Z, input)
          with
          | Returns (end_, input) =>
              run_function (end_ + 1) (Z.of_nat (length functions) - 1)
                functions input
          | Raises e => Raises e
          end
      end.

End Sequential.

(** The functions of a chain applied in order, the first exception ending
    it. *)
Fixpoint chain {X} (fs : list (X → result X)) (x : X) : result X :=
  match fs with
  | [] => Returns x
  | f :: fs' =>
      match f x with
      | Returns x' => chain fs' x'
      | Raises e => Raises e
      end
  end.

(* ===================================================================== *)
(** ** [get_device_states] / [set_device_states] *)
(* ===================================================================== *)

(** What the two functions ask of the CUDA runtime, whose state is [W]:
    the current device and the random-number-generator state of the current
    device, each read and written. *)
Class CudaRuntime (W : Type) := {
  current_device : W → nat;
  set_device : nat → W → W;
  get_rng_state : W → Z;
  set_rng_state : Z → W → W;
}.

(** What the runtime is relied on for: devices and generator states are
    independent cells. *)
Class CudaRuntimeLaws (W : Type) `{CudaRuntime W} := {
  current_set_device d w : current_device (set_device d w) = d;
  set_device_twice d d' w : set_device d (set_device d' w) = set_device d w;
  set_device_current w : set_device (current_device w) w = w;
  get_set_rng_state z w : get_rng_state (set_rng_state z w) = z;
  current_set_rng_state z w :
    current_device (set_rng_state z w) = current_device w;
  other_set_rng_state d z w :
    d ≠ current_device w →
    get_rng_state (set_device d (set_rng_state z w))
    = get_rng_state (set_device d w);
}.

(** What the two functions look at in an argument. *)
Inductive Placed :=
| cuda_tensor (device : nat)
| cpu_tensor
| non_tensor.

Section DeviceStates.
Context {W : Type} `{CudaRuntime W}.
(** The order in which a set of devices is listed by [list({...})]. *)
Variable set_order : list nat → list nat.

(** [with torch.cuda.device(device): body]: [device] is the current device
    for the body, and the device that was current before is current again
    after it. *)
Definition with_device {A} (device : nat) (body : W → A * W) : W → A * W :=
  fun w =>
    let prev := current_device w in
    let '(a, w') := body (set_device device w) in
    (a, set_device prev w').

Definition get_device_states (args : list Placed) : W → (list nat * list Z) * W :=
  fun w =>
    let fwd_gpu_devices :=
      set_order
        (omap (fun arg => match arg with cuda_tensor d => Some d | _ => None end)
           args) in
    let '(fwd_gpu_states, w') :=
      fold_left
        (fun acc device =>
           let '(state, w') :=
             with_device device (fun w => (get_rng_state w, w)) acc.2 in
           (acc.1 ++ [state], w'))
        fwd_gpu_devices ([], w) in
    ((fwd_gpu_devices, fwd_gpu_states), w').

Definition set_device_states (devices : list nat) (states : list Z) : W → W :=
  fun w =>
    fold_left
      (fun w ds =>
         (with_device ds.1 (fun w => (tt, set_rng_state ds.2 w)) w).2)
      (zip devices states) w.

(** The generator state of [device], whichever device is current. *)
Definition rng_state_of (device : nat) (w : W) : Z :=
  get_rng_state (set_device device w).

End DeviceStates.

(** A runtime to try the two functions on: the current device and one
    generator state per device. *)
Module SampleRuntime.

Record World := { current : nat; generators : nat → Z }.

#[global] Instance runtime : CudaRuntime World := {
  current_device w := current w;
  set_device d w := {| current := d; generators := generators w |};
  get_rng_state w := generators w (current w);
  set_rng_state z w :=
    {| current := current w;
       generators := fun d => if decide (d = current w) then z else generators w d |};
}.

(** Each device once, in order of last occurrence. *)
Definition set_order (l : list nat) : list nat := remove_dups l.

(** On device 1, with generator state [10 * d + 7] on device [d]; and a
    later world on device 0 whose generators have all moved on. *)
Definition world : World :=
  {| current := 1; generators := fun d => (10 * Z.of_nat d + 7)%Z |}.
Definition later : World :=
  {| current := 0; generators := fun d => (Z.of_nat d - 100)%Z |}.

End SampleRuntime.

(* ===================================================================== *)
(** ** Switching early stop, resetting the stacks *)
(* ===================================================================== *)

Definition set_enable_checkpoint_early_stop (a : bool) (s : State) :=
  {| _enable_checkpoint_early_stop := a;
     _checkpoint_stacks := _checkpoint_stacks s; frame_lists := frame_lists s;
     frame_store := frame_store s; holder_store := holder_store s;
     next_id := next_id s; saved_tensors_hooks := saved_tensors_hooks s;
     grad_enabled := grad_enabled s; uuid4 := uuid4 s;
     uuid_drawn := uuid_drawn s; recompute_calls := recompute_calls s |}.

(** [with _set_checkpoint_early_stop(enable): body]. *)
Definition _set_checkpoint_early_stop {A} (enable : bool) (body : M A) : M A :=
  fun s =>
    let prev := _enable_checkpoint_early_stop s in
    finally body (set_enable_checkpoint_early_stop prev)
      (set_enable_checkpoint_early_stop enable s).


(* ===================================================================== *)
(** ** Vocabulary: what a run leaves of the engine's switches and stacks *)
(* ===================================================================== *)

(** The early-stop switch, the installed interceptors and the grad mode are
    the same in both states. *)
Definition same_modes (s s' : State) : Prop :=
  _enable_checkpoint_early_stop s' = _enable_checkpoint_early_stop s ∧
  saved_tensors_hooks s' = saved_tensors_hooks s ∧
  grad_enabled s' = grad_enabled s.

(** So are, in addition, the list of stack entries and the call record. *)
Definition same_control (s s' : State) : Prop :=
  same_modes s s' ∧
  _checkpoint_stacks s' = _checkpoint_stacks s ∧
  recompute_calls s' = recompute_calls s.

(** Run from [s], [m] touches none of these, and ends in the early-stop
    signal only when early stop is enabled. *)
Definition calm {A} (m : M A) (s : State) : Prop :=
  same_control s (final_state (m s)) ∧
  ∀ s', m s = Raise _StopRecomputationError s' →
        _enable_checkpoint_early_stop s = true.

(** Run from [s], [m] ends in a state related to [s] by [N] when it returns,
    by [T] when it ends in the early-stop signal, and by [E] when it ends in
    another exception. *)
Definition meets {A} (N T E : State → State → Prop) (m : M A) (s : State)
  : Prop :=
  match m s with
  | Ok _ s' => N s s'
  | Raise _StopRecomputationError s' => T s s'
  | Raise _ s' => E s s'
  end.

(** With early stop enabled in [s], the list of stack entries is the same in
    [s'], and early stop is still enabled. *)
Definition stacks_kept (s s' : State) : Prop :=
  _enable_checkpoint_early_stop s = true →
  _checkpoint_stacks s' = _checkpoint_stacks s ∧
  _enable_checkpoint_early_stop s' = true.

(** With early stop disabled in [s], it still is in [s'], entries were only
    added to the list of stack entries, and no more calls were recorded than
    entries were added ([exactly]: as many). *)
Definition stacks_grown (exactly : bool) (s s' : State) : Prop :=
  _enable_checkpoint_early_stop s = false →
  _enable_checkpoint_early_stop s' = false ∧
  ∃ entries calls,
    _checkpoint_stacks s' = _checkpoint_stacks s ++ entries ∧
    recompute_calls s' = recompute_calls s ++ calls ∧
    if exactly then length calls = length entries
    else length calls ≤ length entries.

(** Nothing is required between two states. *)
Definition always (s s' : State) : Prop := True.

(** Early stop is enabled in the first state: what never holds of a run that
    started with early stop disabled. *)
Definition never_off (s s' : State) : Prop :=
  _enable_checkpoint_early_stop s = false → False.

(* ===================================================================== *)
(** ** Vocabulary: replaying a region that only saves *)
(* ===================================================================== *)

(** A callback that retains the tensors [xs], in order, and returns. *)
Definition saves (xs : list Tensor) : Prog :=
  foldr (fun x k => Save x (fun _ => k)) (Ret []) xs.

(** A callback that retains the tensors [xs], in order, and goes on with
    [rest]. *)
Definition saves_then (xs : list Tensor) (rest : Prog) : Prog :=
  foldr (fun x k => Save x (fun _ => k)) rest xs.

(** A callback that enters a nested region on the tensor [a] and returns;
    the nested region's body, and its recompute callback, retain the tensors
    [xs]. *)
Definition nests (xs : list Tensor) (a : Tensor) : list Value → Prog :=
  fun _ =>
    Checkpoint (fun _ => saves xs) (fun _ => saves xs) [VTensor a]
      (fun _ => Ret []).

(** Where the replay of frame [f] for [gid] stands in state [t] after [k]
    saves, as far as the value [v] expected under handle [hd] of holder [h]
    at position [i] is concerned: the inner interceptor of [f] is innermost,
    the frame has counted [k] saves and still has the recorded holders of
    [fr], [v] is in the cache once position [i] is passed, [h] still has
    its handle, and no other recorded holder has or gets that handle. *)
Definition replayed (f : nat) (gid : Z) (fr : _CheckpointFrame) (i h hd : nat)
    (v : Tensor) (k : nat) (s t : State) : Prop :=
  _enable_checkpoint_early_stop t = _enable_checkpoint_early_stop s ∧
  _checkpoint_stacks t ≠ [] ∧
  last (saved_tensors_hooks t) = Some (RecomputationHook f gid) ∧
  hd < next_id t ∧
  holder_store t !! h = Some {| handle := Some hd |} ∧
  (∀ j h' hd', j ≠ i → weak_holders fr !! j = Some h' →
     holder_store t !! h' = Some {| handle := Some hd' |} → hd' ≠ hd) ∧
  ∃ frk, frame_store t !! f = Some frk ∧
         weak_holders frk = weak_holders fr ∧
         child_args_idx frk = child_args_idx fr ∧
         recomp_counter_at frk gid = k ∧
         (i < k → recomputed_at frk gid !! hd = Some v).

(* ===================================================================== *)
(** ** Vocabulary: the lists of frames *)
(* ===================================================================== *)

(** The list regions are entered on: that of the last entry of
    [_checkpoint_stacks]. *)
Definition current_list (s : State) : option nat :=
  stack <$> py_last (_checkpoint_stacks s).

(** Every list of frames was allocated in the past. *)
Definition lists_below_next (s : State) : Prop :=
  ∀ l fs, frame_lists s !! l = Some fs → l < next_id s.

(** Every list of [s] has the same frames in [s']. *)
Definition lists_kept (s s' : State) : Prop :=
  ∀ l fs, frame_lists s !! l = Some fs → frame_lists s' !! l = Some fs.

(** Every list of [s] has in [s'] the frames it had, followed, in the case
    of the current list of [s], by the frames left on it. *)
Definition lists_left (s s' : State) : Prop :=
  ∀ l fs, frame_lists s !! l = Some fs →
    ∃ more, frame_lists s' !! l = Some (fs ++ more) ∧
            (current_list s ≠ Some l → more = []).

(** Run from [s], [m] changes no list of frames and takes no identity
    back. *)
Definition still {A} (m : M A) (s : State) : Prop :=
  frame_lists (final_state (m s)) = frame_lists s ∧
  next_id s ≤ next_id (final_state (m s)).

(** [_checkpoint_stacks] has in [s'] the entries it had in [s], followed by
    entries over lists allocated since; none with early stop enabled. *)
Definition entries_added (s s' : State) : Prop :=
  ∃ entries,
    _checkpoint_stacks s' = _checkpoint_stacks s ++ entries ∧
    Forall (fun e => next_id s ≤ stack e) entries ∧
    (_enable_checkpoint_early_stop s = true → entries = []).

(** What a return leaves: the lists kept, the early-stop switch as it was,
    entries only added. *)
Definition balanced (s s' : State) : Prop :=
  lists_below_next s →
  lists_below_next s' ∧ next_id s ≤ next_id s' ∧ lists_kept s s' ∧
  _enable_checkpoint_early_stop s' = _enable_checkpoint_early_stop s ∧
  entries_added s s'.

(** What the early-stop signal leaves: early stop is enabled,
    [_checkpoint_stacks] is as it was, and the lists are kept ([kept]) or
    have frames left on the current one. *)
Definition cut_short (kept : bool) (s s' : State) : Prop :=
  lists_below_next s →
  lists_below_next s' ∧ next_id s ≤ next_id s' ∧
  (if kept then lists_kept s s' else lists_left s s') ∧
  _enable_checkpoint_early_stop s = true ∧
  _enable_checkpoint_early_stop s' = true ∧
  _checkpoint_stacks s' = _checkpoint_stacks s.

(** What another exception leaves: the lists kept ([kept]), or with frames
    left on the current one. *)
Definition abandoned (kept : bool) (s s' : State) : Prop :=
  lists_below_next s →
  lists_below_next s' ∧ next_id s ≤ next_id s' ∧
  (if kept then lists_kept s s' else lists_left s s').

(* ===================================================================== *)
(** * Properties *)
(* ===================================================================== *)

(** ** Keyword-argument packing *)

Lemma pack_loop_spec {A} (kwargs : list (string * A)) acc :
  fold_left pack_step kwargs acc = (acc.1 ++ kwargs.*1, acc.2 ++ kwargs.*2).
Proof.
  revert acc. induction kwargs as [|[k v] kwargs IH]; intros [keys flat]; simpl.
  - by rewrite !app_nil_r.
  - rewrite IH. simpl. by rewrite <- !app_assoc.
Qed.

Lemma _pack_kwargs_spec {A} (args : list A) (kwargs : list (string * A)) :
  _pack_kwargs args kwargs = (args ++ kwargs.*2, kwargs.*1).
Proof. unfold _pack_kwargs. by rewrite pack_loop_spec. Qed.

Lemma dict_setitem_fresh {A} k (v : A) d :
  k ∉ d.*1 → dict_setitem k v d = d ++ [(k, v)].
Proof.
  induction d as [|[k' v'] d IH]; simpl; intros Hk; [done|].
  apply not_elem_of_cons in Hk as [Hne Hk].
  destruct (decide (k' = k)); [congruence|]. by rewrite IH.
Qed.

Lemma dict_fill_fresh {A} (kvs d : list (string * A)) :
  NoDup (d.*1 ++ kvs.*1) →
  fold_left (fun d kv => dict_setitem kv.1 kv.2 d) kvs d = d ++ kvs.
Proof.
  revert d. induction kvs as [|[k v] kvs IH]; intros d Hnd; simpl.
  - by rewrite app_nil_r.
  - simpl in Hnd. rewrite dict_setitem_fresh.
    + rewrite IH; [by rewrite <- app_assoc|].
      rewrite fmap_app. simpl. by rewrite <- app_assoc.
    + apply NoDup_app in Hnd as (_ & Hd & _). intros Hin.
      apply (Hd k Hin). left.
Qed.

Lemma dict_of_pairs_nodup {A} (kvs : list (string * A)) :
  NoDup kvs.*1 → dict_of_pairs kvs = kvs.
Proof. intros Hnd. unfold dict_of_pairs. by rewrite dict_fill_fresh. Qed.

Lemma zip_fst_snd {A B} (l : list (A * B)) : zip l.*1 l.*2 = l.
Proof. induction l as [|[a b] l IH]; simpl; [done|]. f_equal. exact IH. Qed.

(** C10. For every tuple of positional arguments and every keyword
    dictionary (string keys, one entry per key), unpacking what
    [_pack_kwargs] produced gives back the positional arguments and the
    keyword dictionary, entries in their original order. *)
Theorem unpack_pack_kwargs {A} (args : list A) (kwargs : list (string * A)) :
  NoDup kwargs.*1 →
  _unpack_kwargs (_pack_kwargs args kwargs).1 (_pack_kwargs args kwargs).2
  = Some (args, kwargs).
Proof.
  intros Hnd. rewrite _pack_kwargs_spec. simpl. unfold _unpack_kwargs.
  assert (Hlen : length kwargs.*1 = length kwargs.*2) by by rewrite !length_fmap.
  destruct (decide _) as [_|Hbad].
  2:{ exfalso. apply Hbad. rewrite length_app. lia. }
  destruct (decide (length kwargs.*1 = 0)) as [Hz|Hnz].
  - rewrite length_fmap in Hz. apply nil_length_inv in Hz. subst kwargs.
    simpl. by rewrite app_nil_r.
  - unfold py_slice_until_neg, py_slice_from_neg.
    replace (length (args ++ kwargs.*2) - length kwargs.*1) with (length args)
      by (rewrite length_app; lia).
    rewrite take_app_length, drop_app_length, zip_fst_snd.
    by rewrite dict_of_pairs_nodup.
Qed.

Lemma unpack_pack_kwargs_witness :
  _unpack_kwargs (_pack_kwargs [1; 2] [("a", 3); ("b", 4)]).1
                 (_pack_kwargs [1; 2] [("a", 3); ("b", 4)]).2
  = Some ([1; 2], [("a", 3); ("b", 4)]).
Proof.
  apply (unpack_pack_kwargs [1; 2] [("a", 3); ("b", 4)]).
  apply (bool_decide_unpack _). vm_compute. exact I.
Defined.

(** ** Reasoning about effectful code *)


Lemma bind_Ok {A B} (m : M A) (k : A → M B) s b s' :
  bind m k s = Ok b s' ↔ ∃ a s1, m s = Ok a s1 ∧ k a s1 = Ok b s'.
Proof.
  unfold bind. destruct (m s) as [a s1|e s1]; split.
  - eauto.
  - by intros (a' & s1' & [= -> ->] & Hk).
  - done.
  - by intros (a' & s1' & [=] & _).
Qed.

Lemma bind_Raise {A B} (m : M A) (k : A → M B) s e s' :
  bind m k s = Raise e s' ↔
  m s = Raise e s' ∨ ∃ a s1, m s = Ok a s1 ∧ k a s1 = Raise e s'.
Proof.
  unfold bind. destruct (m s) as [a s1|e1 s1]; split.
  - eauto.
  - by intros [[=]|(a' & s1' & [= -> ->] & Hk)].
  - intros [= -> ->]. by left.
  - by intros [[= -> ->]|(a' & s1' & [=] & _)].
Qed.

(** ** The nested-input adapter *)












(** ** Stepping through effectful code *)

Ltac mred :=
  unfold alloc, get_frame, update_frame, get_holder, put_holder,
    deref_weak_holder, get_list, put_list;
  unfold bind, ret, raise, get, modify, or_raise, finally;
  cbn beta iota zeta delta
      [_enable_checkpoint_early_stop _checkpoint_stacks frame_lists frame_store
       holder_store next_id saved_tensors_hooks grad_enabled uuid4 uuid_drawn
       recompute_calls
       set_checkpoint_stacks set_frame_lists set_frame_store set_holder_store
       set_next_id set_saved_tensors_hooks set_grad_enabled set_uuid_drawn
       set_recompute_calls handle].

Ltac mnorm :=
  unfold set_checkpoint_stacks, set_frame_lists, set_frame_store,
    set_holder_store, set_next_id, set_saved_tensors_hooks, set_grad_enabled,
    set_uuid_drawn, set_recompute_calls;
  cbn beta iota zeta delta
      [_enable_checkpoint_early_stop _checkpoint_stacks frame_lists frame_store
       holder_store next_id saved_tensors_hooks grad_enabled uuid4 uuid_drawn
       recompute_calls handle].

Ltac mrun_with rw := repeat (progress (mred; rw)).

Lemma bind_step {A B} (m : M A) (k : A → M B) s a s' :
  m s = Ok a s' → bind m k s = k a s'.
Proof. unfold bind. by intros ->. Qed.

Lemma bind_fail {A B} (m : M A) (k : A → M B) s e s' :
  m s = Raise e s' → bind m k s = Raise e s'.
Proof. unfold bind. by intros ->. Qed.

(** ** The outer interceptor, save side *)

Lemma checkpoint_pack_hook_eval (x : Tensor) s entry fs top fr :
  py_last (_checkpoint_stacks s) = Some entry →
  frame_lists s !! stack entry = Some fs →
  py_last fs = Some top →
  frame_store s !! top = Some fr →
  _checkpoint_hook.pack_hook x s
  = Ok (PPair (S (next_id s)) fs)
      (set_frame_store
         (<[top := set_weak_holders (weak_holders fr ++ [S (next_id s)]) fr]>
            (frame_store s))
         (set_holder_store
            (<[S (next_id s) := {| handle := Some (next_id s) |}]> (holder_store s))
            (set_next_id (S (S (next_id s))) s))).
Proof.
  intros He Hfs Htop Hfr. unfold _checkpoint_hook.pack_hook.
  mrun_with ltac:(rewrite ?He, ?Hfs, ?Htop, ?Hfr). reflexivity.
Qed.

(** C6. With an innermost frame [top] on the current stack entry, an outer
    save allocates a handle and a holder wrapping it (both unused before,
    when identities are allocated from the counter), appends the weak
    reference to the holder to [top]'s [weak_holders], touches neither the
    stacks nor the frame lists, and returns the holder paired with the
    entry's frame sequence as it is at that instant.  Read back from the new
    state: the frame found at [top] has the old weak references followed by
    the new one, which is its last and leads to the new holder, whose handle
    is the new handle; nothing else on that frame and no other frame has
    changed.  Neither the result nor the new state depends on the tensor
    being saved. *)
Theorem checkpoint_pack_hook_spec (x : Tensor) s entry fs top fr :
  py_last (_checkpoint_stacks s) = Some entry →
  frame_lists s !! stack entry = Some fs →
  py_last fs = Some top →
  frame_store s !! top = Some fr →
  let hd := next_id s in
  let holder := S (next_id s) in
  ∃ s',
    _checkpoint_hook.pack_hook x s = Ok (PPair holder fs) s' ∧
    holder_store s' = <[holder := {| handle := Some hd |}]> (holder_store s) ∧
    frame_store s' =
      <[top := set_weak_holders (weak_holders fr ++ [holder]) fr]> (frame_store s) ∧
    next_id s' = S (S (next_id s)) ∧
    _checkpoint_stacks s' = _checkpoint_stacks s ∧
    frame_lists s' = frame_lists s ∧
    (ids_below_next s →
       holder_store s !! holder = None ∧
       ∀ h ho, holder_store s !! h = Some ho → handle ho ≠ Some hd) ∧
    (∀ x', _checkpoint_hook.pack_hook x' s = Ok (PPair holder fs) s') ∧
    (∃ fr',
       frame_store s' !! top = Some fr' ∧
       weak_holders fr' = weak_holders fr ++ [holder] ∧
       last (weak_holders fr') = Some holder ∧
       length (weak_holders fr') = S (length (weak_holders fr)) ∧
       holder_store s' !! holder = Some {| handle := Some hd |} ∧
       recompute_fn fr' = recompute_fn fr ∧ maybe_args fr' = maybe_args fr ∧
       args_idx fr' = args_idx fr ∧ child_args_idx fr' = child_args_idx fr ∧
       args_handles fr' = args_handles fr ∧ recomputed fr' = recomputed fr ∧
       recomp_counter fr' = recomp_counter fr ∧
       is_recomputed fr' = is_recomputed fr) ∧
    (∀ f, f ≠ top → frame_store s' !! f = frame_store s !! f).
Proof.
  intros He Hfs Htop Hfr hd holder.
  eexists. split; [by apply (checkpoint_pack_hook_eval x s entry fs top fr)|].
  repeat (split; [reflexivity|]). split; [|split; [|split]].
  - intros Hids. split.
    + destruct (holder_store s !! holder) as [ho|] eqn:Hho; [|done].
      apply Hids in Hho as [Hlt _]. unfold holder in Hlt. lia.
    + intros h ho Hho Heq. apply Hids in Hho as [_ Hlt].
      apply Hlt in Heq. unfold hd in Heq. lia.
  - intros x'. by apply (checkpoint_pack_hook_eval x' s entry fs top fr).
  - eexists. split; [apply lookup_insert_eq|].
    cbn [weak_holders set_weak_holders].
    split; [reflexivity|]. split; [apply last_snoc|].
    split; [rewrite length_app; simpl; lia|].
    split; [apply lookup_insert_eq|]. by destruct fr.
  - intros f Hf. cbn [frame_store set_frame_store set_holder_store set_next_id].
    by rewrite lookup_insert_ne.
Qed.

Lemma checkpoint_pack_hook_spec_witness :
  ∃ s' fr',
    _checkpoint_hook.pack_hook Sample.x (Sample.in_region false)
    = Ok (PPair 3 [1]) s' ∧
    holder_store s' = {[ 3 := {| handle := Some 2 |} ]} ∧
    frame_store s' !! 1 = Some fr' ∧
    weak_holders fr' = [3] ∧
    maybe_args fr' = Some [VTensor Sample.x].
Proof.
  destruct (checkpoint_pack_hook_spec Sample.x (Sample.in_region false)
              {| stack := 0; is_recompute := false |} [1] 1
              (set_maybe_args (Some [VTensor Sample.x]) (new_frame Sample.sin_cos)))
    as (s' & Hrun & Hholders & _ & _ & _ & _ & _ & _ & Hread & _);
    [reflexivity..|].
  destruct Hread as (fr' & Hfr' & Hwh & _ & _ & _ & _ & Hargs & _).
  exists s', fr'. split; [exact Hrun|]. split; [by rewrite Hholders|].
  split; [exact Hfr'|]. split; [exact Hwh | exact Hargs].
Defined.

(** ** The inner interceptor, save side *)

Lemma recomp_counter_at_bump gid fr :
  recomp_counter_at (_recomputation_hook.bump_counter gid fr) gid
  = S (recomp_counter_at fr gid).
Proof.
  unfold recomp_counter_at, _recomputation_hook.bump_counter. simpl.
  by rewrite lookup_insert_eq.
Qed.

Lemma recomp_counter_at_store gid hd v fr :
  recomp_counter_at (_recomputation_hook.store_recomputed gid hd v fr) gid
  = recomp_counter_at fr gid.
Proof. done. Qed.

Lemma weak_holders_bump gid fr :
  weak_holders (_recomputation_hook.bump_counter gid fr) = weak_holders fr.
Proof. done. Qed.

Lemma weak_holders_store gid hd v fr :
  weak_holders (_recomputation_hook.store_recomputed gid hd v fr) = weak_holders fr.
Proof. done. Qed.

Lemma recomputed_at_store gid hd v fr :
  recomputed_at (_recomputation_hook.store_recomputed gid hd v fr) gid !! hd
  = Some v.
Proof.
  unfold recomputed_at, _recomputation_hook.store_recomputed. simpl.
  rewrite lookup_insert_eq. simpl. by rewrite lookup_insert_eq.
Qed.

(** C5. An inner save for frame [target] and graph task [gid] bumps the
    frame's counter for [gid] and looks [weak_holders] up at the value [idx]
    the counter had before.  Past the end of the list the lookup raises.  If
    the weak reference is dead, only the counter has changed.  If it is live,
    the value recorded in the frame's cache for [gid], under the holder's
    handle (a newly allocated one, stored into the holder, when the holder
    had none), is the tensor itself when [idx] is in [child_args_idx] and its
    detached copy otherwise.  The save then either raises the early-stop
    signal (early stop enabled and the counter has reached the number of
    recorded positions) or returns the detached copy of the tensor; it never
    returns anything else. *)
Theorem recomputation_pack_hook_spec target gid (x : Tensor) s fr :
  frame_store s !! target = Some fr →
  let idx := recomp_counter_at fr gid in
  let v := if decide (idx ∈ child_args_idx fr) then x else detach x in
  let counted :=
    set_frame_store
      (<[target := _recomputation_hook.bump_counter gid fr]> (frame_store s)) s in
  let recorded (hd : nat) (s0 : State) : State :=
    set_frame_store
      (<[target := _recomputation_hook.store_recomputed gid hd v
                     (_recomputation_hook.bump_counter gid fr)]> (frame_store s0))
      s0 in
  let conclude (s' : State) : Outcome Packed :=
    if _enable_checkpoint_early_stop s && (S idx =? length (weak_holders fr))
    then Raise _StopRecomputationError s'
    else Ok (PDetached (detach x)) s' in
  (weak_holders fr !! idx = None →
     _recomputation_hook.pack_hook target gid x s = Raise IndexError counted) ∧
  (∀ w, weak_holders fr !! idx = Some w →
     (holder_store s !! w = None →
        _recomputation_hook.pack_hook target gid x s = conclude counted) ∧
     (∀ hd, holder_store s !! w = Some {| handle := Some hd |} →
        _recomputation_hook.pack_hook target gid x s = conclude (recorded hd s)) ∧
     (holder_store s !! w = Some {| handle := None |} →
        _recomputation_hook.pack_hook target gid x s
        = conclude
            (recorded (next_id s)
               (set_holder_store
                  (<[w := {| handle := Some (next_id s) |}]> (holder_store s))
                  (set_next_id (S (next_id s)) s))))) ∧
  (∀ p s', _recomputation_hook.pack_hook target gid x s = Ok p s' →
     p = PDetached (detach x)).
Proof.
  intros Hfr idx v counted recorded conclude.
  unfold conclude, counted, recorded. clear conclude counted recorded.
  unfold _recomputation_hook.pack_hook, _recomputation_hook.published.
  subst v idx.
  destruct (weak_holders fr !! recomp_counter_at fr gid) as [w|] eqn:Hw.
  - destruct (holder_store s !! w) as [[[hd|]]|] eqn:Hho;
      mrun_with ltac:(rewrite ?Hfr, ?Hw, ?Hho, ?lookup_insert_eq);
      rewrite ?weak_holders_store, ?weak_holders_bump,
        ?recomp_counter_at_store, ?recomp_counter_at_bump;
      mnorm; rewrite ?insert_insert_eq;
      (split; [done|]); (split; [|by destruct (_ && _); congruence]);
      intros w' [= <-]; repeat split; intros; simplify_eq;
      by destruct (_ && _).
  - mrun_with ltac:(rewrite ?Hfr, ?Hw, ?lookup_insert_eq, ?insert_insert_eq).
    done.
Qed.

Lemma recomputation_pack_hook_spec_witness :
  ∃ fr s',
    frame_store (Sample.in_recompute false) !! 1 = Some fr ∧
    _recomputation_hook.pack_hook 1 7 Sample.y (Sample.in_recompute false)
    = Ok (PDetached (detach Sample.y)) s' ∧
    ∃ fr', frame_store s' !! 1 = Some fr' ∧
           recomputed_at fr' 7 !! 2 = Some (detach Sample.y) ∧
           recomp_counter_at fr' 7 = 1.
Proof.
  destruct (frame_store (Sample.in_recompute false) !! 1) as [fr|] eqn:Hfr;
    [|by vm_compute in Hfr].
  destruct (recomputation_pack_hook_spec 1 7 Sample.y
              (Sample.in_recompute false) fr Hfr) as (_ & Hlive & _).
  assert (Hfr' : fr = set_weak_holders [3; 5]
                        (set_maybe_args (Some [VTensor Sample.x])
                           (new_frame Sample.sin_cos))).
  { vm_compute in Hfr. by injection Hfr as <-. }
  subst fr.
  destruct (Hlive 3 eq_refl) as (_ & Hsome & _).
  specialize (Hsome 2 eq_refl).
  eexists _, _. split; [exact Hfr|]. split; [exact Hsome|].
  eexists. split; [apply lookup_insert_eq|].
  split; [apply recomputed_at_store|reflexivity].
Defined.

(** ** The outer interceptor, restore side: after the loop *)

Lemma recomputed_at_forget hd fr gid :
  recomputed_at (forget_handle_in hd fr) gid !! hd = None.
Proof.
  unfold recomputed_at, forget_handle_in. simpl. rewrite lookup_fmap.
  destruct (recomputed fr !! gid); simpl; [apply lookup_delete_eq|done].
Qed.

Lemma unpack_hook_after_loop run graph_task holder frames s top gid s0 s1 :
  py_last frames = Some top →
  _checkpoint_hook.current_gid graph_task s = Ok gid s0 →
  for_each (seq 0 (length frames))
    (_checkpoint_hook.recompute_frame run frames gid) s0 = Ok tt s1 →
  _checkpoint_hook.unpack_hook run graph_task holder frames s
  = _checkpoint_hook.retrieve holder top gid s1.
Proof.
  intros Htop Hgid Hloop. unfold _checkpoint_hook.unpack_hook.
  rewrite Htop. simpl. rewrite (bind_step _ _ _ _ _ eq_refl).
  rewrite (bind_step _ _ _ _ _ Hgid).
  by rewrite (bind_step _ _ _ _ _ Hloop).
Qed.

(** C2. Once the loop over the captured frames has finished for the current
    identifier, a restore of [(holder, frames)] raises the double-consumption
    error if the holder's handle is [None] at that point; raises the
    missing-value error if the handle has no entry in the innermost frame's
    cache for the identifier; and otherwise returns the cached value, leaving
    the holder with handle [None] and the handle with no entry in any
    frame's cache. *)
Theorem unpack_hook_retrieves run graph_task holder frames s top gid s0 s1 ho :
  py_last frames = Some top →
  _checkpoint_hook.current_gid graph_task s = Ok gid s0 →
  for_each (seq 0 (length frames))
    (_checkpoint_hook.recompute_frame run frames gid) s0 = Ok tt s1 →
  holder_store s1 !! holder = Some ho →
  (handle ho = None →
     _checkpoint_hook.unpack_hook run graph_task holder frames s
     = Raise DoubleConsumption s1) ∧
  (∀ hd top_fr,
     handle ho = Some hd → frame_store s1 !! top = Some top_fr →
     (recomputed_at top_fr gid !! hd = None →
        _checkpoint_hook.unpack_hook run graph_task holder frames s
        = Raise MissingRecomputedValue s1) ∧
     (∀ v, recomputed_at top_fr gid !! hd = Some v →
        ∃ s2,
          _checkpoint_hook.unpack_hook run graph_task holder frames s = Ok v s2 ∧
          holder_store s2 !! holder = Some {| handle := None |} ∧
          ∀ f fr g, frame_store s2 !! f = Some fr →
                    recomputed_at fr g !! hd = None)).
Proof.
  intros Htop Hgid Hloop Hho.
  rewrite (unpack_hook_after_loop _ _ _ _ _ _ _ _ _ Htop Hgid Hloop).
  unfold _checkpoint_hook.retrieve. split.
  - intros Hnone. mrun_with ltac:(rewrite ?Hho, ?Hnone). done.
  - intros hd top_fr Hsome Hfr. split.
    + intros Hmiss. mrun_with ltac:(rewrite ?Hho, ?Hsome, ?Hfr, ?Hmiss). done.
    + intros v Hv. mrun_with ltac:(rewrite ?Hho, ?Hsome, ?Hfr, ?Hv).
      eexists. split; [reflexivity|]. unfold forget_handle. mnorm. split.
      * apply lookup_insert_eq.
      * intros f fr g. rewrite lookup_fmap.
        destruct (frame_store s1 !! f) as [fr0|]; simpl; [|done].
        intros [= <-]. apply recomputed_at_forget.
Qed.

Lemma unpack_hook_retrieves_witness :
  ∃ s2,
    _checkpoint_hook.unpack_hook (exec 1) 7 5 [1] (Sample.after_forward false)
    = Ok (detach Sample.y) s2 ∧
    holder_store s2 !! 5 = Some {| handle := None |}.
Proof.
  pose (s := Sample.after_forward false).
  pose (s1 := final_state
                (for_each (seq 0 1)
                   (_checkpoint_hook.recompute_frame (exec 1) [1] 7) s)).
  assert (Hfr : ∃ top_fr, frame_store s1 !! 1 = Some top_fr ∧
                          recomputed_at top_fr 7 !! 4 = Some (detach Sample.y)).
  { destruct (frame_store s1 !! 1) as [top_fr|] eqn:Hfr; [|by vm_compute in Hfr].
    exists top_fr. split; [done|].
    assert (Some (recomputed_at top_fr 7 !! 4)
            = (λ fr, recomputed_at fr 7 !! 4) <$> frame_store s1 !! 1) as Heq
      by (by rewrite Hfr).
    vm_compute in Heq. by injection Heq. }
  destruct Hfr as (top_fr & Hfr & Hv).
  destruct (unpack_hook_retrieves (exec 1) 7 5 [1] s 1 7 s s1
              {| handle := Some 4 |}) as (_ & Hsome);
    [reflexivity | reflexivity | by vm_compute | by vm_compute |].
  destruct (Hsome 4 top_fr eq_refl Hfr) as (_ & Hok).
  destruct (Hok _ Hv) as (s2 & Hrun & Hcleared & _).
  exists s2. split; [exact Hrun | exact Hcleared].
Defined.

(** Asking twice for the same saved value within one backward: the second
    restore finds the handle cleared. *)
Example second_restore_is_double_consumption :
  ∃ s,
    exec 2 (Restore 7 (PPair 5 [1]) (fun _ =>
            Restore 7 (PPair 5 [1]) (fun v => Ret [VTensor v])))
      (Sample.after_forward false)
    = Raise DoubleConsumption s.
Proof. eexists. vm_compute. reflexivity. Qed.

(** ** Entering a region *)

Lemma engine_save_outer (x : Tensor) s :
  last (saved_tensors_hooks s) = Some CheckpointHook →
  engine_save x s = _checkpoint_hook.pack_hook x s.
Proof. intros H. unfold engine_save. mred. by rewrite H. Qed.

Lemma setup_context_outer args : ∀ s entry fs top fr,
  last (saved_tensors_hooks s) = Some CheckpointHook →
  py_last (_checkpoint_stacks s) = Some entry →
  frame_lists s !! stack entry = Some fs →
  py_last fs = Some top →
  frame_store s !! top = Some fr →
  ∃ ws s',
    _NoopSaveInputs.setup_context args s = Ok tt s' ∧
    length ws = length (tensors_of args) ∧
    frame_store s' = <[top := set_weak_holders (weak_holders fr ++ ws) fr]> (frame_store s) ∧
    _checkpoint_stacks s' = _checkpoint_stacks s ∧
    frame_lists s' = frame_lists s ∧
    saved_tensors_hooks s' = saved_tensors_hooks s ∧
    grad_enabled s' = grad_enabled s ∧
    next_id s' = next_id s + 2 * length (tensors_of args).
Proof.
  unfold _NoopSaveInputs.setup_context.
  induction args as [|v args IH]; intros s entry fs top fr Hh He Hfs Htop Hfr.
  - exists [], s. simpl. rewrite app_nil_r.
    assert (set_weak_holders (weak_holders fr) fr = fr) as -> by by destruct fr.
    rewrite insert_id by done. repeat split; try done; lia.
  - simpl. destruct v as [t|o].
    + pose proof (checkpoint_pack_hook_eval t s entry fs top fr He Hfs Htop Hfr)
        as Hpack.
      set (s1 := set_frame_store
                   (<[top := set_weak_holders (weak_holders fr ++ [S (next_id s)]) fr]>
                      (frame_store s))
                   (set_holder_store
                      (<[S (next_id s) := {| handle := Some (next_id s) |}]>
                         (holder_store s))
                      (set_next_id (S (S (next_id s))) s))) in *.
      assert (Hfs1 : frame_store s1
                     = <[top := set_weak_holders (weak_holders fr ++ [S (next_id s)]) fr]>
                         (frame_store s)) by done.
      assert (Hn1 : next_id s1 = S (S (next_id s))) by done.
      assert (Hst1 : _checkpoint_stacks s1 = _checkpoint_stacks s) by done.
      assert (Hl1 : frame_lists s1 = frame_lists s) by done.
      assert (Hh1 : saved_tensors_hooks s1 = saved_tensors_hooks s) by done.
      assert (Hg1 : grad_enabled s1 = grad_enabled s) by done.
      destruct (IH s1 entry fs top
                  (set_weak_holders (weak_holders fr ++ [S (next_id s)]) fr))
        as (ws & s' & Hrun & Hlen & Hfs' & Hst' & Hl' & Hh' & Hg' & Hn');
        [congruence|congruence|congruence|done|by rewrite Hfs1, lookup_insert_eq|].
      exists (S (next_id s) :: ws), s'. split.
      { rewrite <- engine_save_outer in Hpack by done.
        rewrite (bind_step _ _ _ tt s1); [done|].
        by rewrite (bind_step _ _ _ _ _ Hpack). }
      simpl. rewrite Hlen. split; [done|]. split.
      { rewrite Hfs', Hfs1, insert_insert_eq. simpl. by rewrite <- app_assoc. }
      repeat split; try congruence; lia.
    + destruct (IH s entry fs top fr) as (ws & s' & Hrun & ?); [done..|].
      exists ws, s'. split; [|done]. by rewrite (bind_step _ _ _ _ _ eq_refl).
Qed.

Lemma adapter_unfold args s :
  _applyAutogradFunctionToSaveInputs args s
  = match _NoopSaveInputs.setup_context args s with
    | Ok _ s' =>
        Ok (imap (fun i t => if decide (i ∈ indices_no_req_grad 0 args)
                             then detach_value t else t)
              (if grad_enabled s && existsb value_requires_grad args
               then _NoopSaveInputs.wrap_output <$> args else args)) s'
    | Raise e s' => Raise e s'
    end.
Proof.
  unfold _applyAutogradFunctionToSaveInputs, _NoopSaveInputs.apply,
    _NoopSaveInputs.forward. mred.
  destruct (_NoopSaveInputs.setup_context args s); [|done].
  by destruct (_ && _).
Qed.

Lemma adapter_outer args s entry fs top fr :
  last (saved_tensors_hooks s) = Some CheckpointHook →
  py_last (_checkpoint_stacks s) = Some entry →
  frame_lists s !! stack entry = Some fs →
  py_last fs = Some top →
  frame_store s !! top = Some fr →
  ∃ args' ws s',
    _applyAutogradFunctionToSaveInputs args s = Ok args' s' ∧
    length ws = length (tensors_of args) ∧
    frame_store s' = <[top := set_weak_holders (weak_holders fr ++ ws) fr]> (frame_store s) ∧
    _checkpoint_stacks s' = _checkpoint_stacks s ∧
    frame_lists s' = frame_lists s ∧
    saved_tensors_hooks s' = saved_tensors_hooks s.
Proof.
  intros Hh He Hfs Htop Hfr.
  destruct (setup_context_outer args s entry fs top fr Hh He Hfs Htop Hfr)
    as (ws & s' & Hrun & Hlen & Hst & Hstk & Hl & Hhk & _).
  rewrite adapter_unfold, Hrun. by eexists _, ws, s'.
Qed.

Lemma get_frame_Some f fr s :
  frame_store s !! f = Some fr → get_frame f s = Ok fr s.
Proof. intros H. unfold get_frame. mred. by rewrite H. Qed.

Lemma update_frame_Some f upd fr s :
  frame_store s !! f = Some fr →
  update_frame f upd s = Ok tt (set_frame_store (<[f := upd fr]> (frame_store s)) s).
Proof. intros H. unfold update_frame. mred. by rewrite H. Qed.

Lemma drop_take_app {A} (l ws : list A) :
  drop (length l) (take (length (l ++ ws)) (l ++ ws)) = ws.
Proof. by rewrite firstn_all, drop_app_length. Qed.

Lemma save_args_to_parent_outer self parent args s entry fs pfr sfr :
  last (saved_tensors_hooks s) = Some CheckpointHook →
  py_last (_checkpoint_stacks s) = Some entry →
  frame_lists s !! stack entry = Some fs →
  py_last fs = Some parent →
  frame_store s !! parent = Some pfr →
  frame_store s !! self = Some sfr →
  parent ≠ self →
  ∃ args' ws s1,
    _applyAutogradFunctionToSaveInputs args s = Ok args' s1 ∧
    length ws = length (tensors_of args) ∧
    frame_lists s1 = frame_lists s ∧
    saved_tensors_hooks s1 = saved_tensors_hooks s ∧
    let indices := seq (length (weak_holders pfr)) (length ws) in
    save_args_to_parent self parent args s
    = Ok args'
        (set_frame_store
           (<[self := set_args_idx (Some indices) (set_args_handles (Some ws) sfr)]>
              (<[parent := set_child_args_idx (child_args_idx pfr ++ indices)
                             (set_weak_holders (weak_holders pfr ++ ws) pfr)]>
                 (frame_store s1))) s1).
Proof.
  intros Hh He Hfs Htop Hpfr Hsfr Hne.
  destruct (adapter_outer args s entry fs parent pfr)
    as (args' & ws & s1 & Hadapt & Hlen & Hst & Hstk & Hl & Hhk); try done.
  exists args', ws, s1. repeat (split; [done|]). intros indices.
  unfold save_args_to_parent.
  rewrite (bind_step _ _ _ _ _ (get_frame_Some _ _ _ Hpfr)).
  rewrite (bind_step _ _ _ _ _ Hadapt).
  assert (Hp1 : frame_store s1 !! parent
                = Some (set_weak_holders (weak_holders pfr ++ ws) pfr))
    by (by rewrite Hst, lookup_insert_eq).
  assert (Hs1 : frame_store s1 !! self = Some sfr)
    by (by rewrite Hst, lookup_insert_ne).
  rewrite (bind_step _ _ _ _ _ (get_frame_Some _ _ _ Hp1)).
  rewrite (bind_step _ _ _ _ _ (update_frame_Some _ _ _ _ Hs1)).
  cbn [weak_holders set_weak_holders].
  rewrite drop_take_app, length_app.
  replace (length (weak_holders pfr) + length ws - length (weak_holders pfr))
    with (length ws) by lia.
  fold indices.
  rewrite (bind_step _ _ _ tt
     (set_frame_store
        (<[parent := set_child_args_idx (child_args_idx pfr ++ indices)
                       (set_weak_holders (weak_holders pfr ++ ws) pfr)]>
           (<[self := set_args_handles (Some ws) sfr]> (frame_store s1))) s1)).
  2:{ erewrite update_frame_Some.
      2:{ mred. rewrite lookup_insert_ne by done. exact Hp1. }
      mnorm. done. }
  rewrite (bind_step _ _ _ tt
     (set_frame_store
        (<[self := set_args_idx (Some indices) (set_args_handles (Some ws) sfr)]>
        (<[parent := set_child_args_idx (child_args_idx pfr ++ indices)
                       (set_weak_holders (weak_holders pfr ++ ws) pfr)]>
           (frame_store s1))) s1)).
  2:{ erewrite update_frame_Some.
      2:{ mred. rewrite lookup_insert_ne by done. apply lookup_insert_eq. }
      mnorm. f_equal. f_equal.
      rewrite (insert_insert_ne _ parent self) by done.
      by rewrite insert_insert_eq. }
  done.
Qed.

(** C9. [_checkpoint_impl] creates the frame, settles where its inputs live,
    and then runs [fn], under the outer interceptor, with the frame appended
    to the current stack entry's list.  (1) With no active frame and no
    recomputation under way, the raw inputs go to [maybe_args] and to [fn].
    (2) With no active frame but a recomputation under way, the inputs go
    through the identity-save adapter, and the adapter's outputs are both
    stored in [maybe_args] and passed to [fn].  (3) With an active frame
    [parent] whose outer interceptor is the innermost one, the adapter saves
    each tensor input onto [parent] (one new weak holder each); the new
    frame's [maybe_args] stays [None], its [args_idx] is the run of positions
    those holders took in the parent's list, the same positions are added to
    the parent's [child_args_idx], and [fn] receives the adapter's outputs.
    In each case the fields are read back from the state [fn] starts in:
    the frame found under the new identity, the parent found under its own,
    and the list of the stack entry, which ends with the new frame. *)
Theorem checkpoint_impl_input_provenance
    (fn : list Value → M (list Value)) rfn args s entry frames :
  py_last (_checkpoint_stacks s) = Some entry →
  frame_lists s !! stack entry = Some frames →
  let new := next_id s in
  let created :=
    set_frame_store (<[new := new_frame rfn]> (frame_store s))
      (set_next_id (S new) s) in
  let entered (fr : _CheckpointFrame) (frames1 : list nat) (s1 : State) : State :=
    set_saved_tensors_hooks (saved_tensors_hooks s1 ++ [CheckpointHook])
      (set_frame_lists (<[stack entry := frames1 ++ [new]]> (frame_lists s1))
         (set_frame_store (<[new := fr]> (frame_store s1)) s1)) in
  (frames = [] → is_recompute entry = false →
     let e := entered (set_maybe_args (Some args) (new_frame rfn)) [] created in
     _checkpoint_impl fn rfn args s = leave_region (stack entry) (fn args e) ∧
     ∃ fr,
       frame_store e !! new = Some fr ∧
       maybe_args fr = Some args ∧ args_idx fr = None ∧
       args_handles fr = None ∧ recompute_fn fr = rfn ∧
       frame_lists e !! stack entry = Some [new] ∧
       last (saved_tensors_hooks e) = Some CheckpointHook ∧
       holder_store e = holder_store s) ∧
  (frames = [] → is_recompute entry = true →
     ∀ args' s1 fr1 frames1,
       _applyAutogradFunctionToSaveInputs args created = Ok args' s1 →
       frame_store s1 !! new = Some fr1 →
       frame_lists s1 !! stack entry = Some frames1 →
       let e := entered (set_maybe_args (Some args') fr1) frames1 s1 in
       _checkpoint_impl fn rfn args s
       = leave_region (stack entry) (fn args' e) ∧
       ∃ fr,
         frame_store e !! new = Some fr ∧
         maybe_args fr = Some args' ∧ args_idx fr = args_idx fr1 ∧
         args_handles fr = args_handles fr1 ∧
         recompute_fn fr = recompute_fn fr1 ∧
         frame_lists e !! stack entry = Some (frames1 ++ [new]) ∧
         last (saved_tensors_hooks e) = Some CheckpointHook) ∧
  (∀ parent pfr,
     py_last frames = Some parent →
     frame_store s !! parent = Some pfr →
     parent ≠ new →
     last (saved_tensors_hooks s) = Some CheckpointHook →
     ∃ args' ws s1,
       _applyAutogradFunctionToSaveInputs args created = Ok args' s1 ∧
       length ws = length (tensors_of args) ∧
       let indices := seq (length (weak_holders pfr)) (length ws) in
       let child :=
         set_args_idx (Some indices) (set_args_handles (Some ws) (new_frame rfn)) in
       let parent' :=
         set_child_args_idx (child_args_idx pfr ++ indices)
           (set_weak_holders (weak_holders pfr ++ ws) pfr) in
       let e :=
         entered child frames
           (set_frame_store (<[parent := parent']> (frame_store s1)) s1) in
       maybe_args child = None ∧
       _checkpoint_impl fn rfn args s
       = leave_region (stack entry) (fn args' e) ∧
       ∃ c p,
         frame_store e !! new = Some c ∧
         maybe_args c = None ∧ args_idx c = Some indices ∧
         args_handles c = Some ws ∧ recompute_fn c = rfn ∧
         frame_store e !! parent = Some p ∧
         weak_holders p = weak_holders pfr ++ ws ∧
         child_args_idx p = child_args_idx pfr ++ indices ∧
         maybe_args p = maybe_args pfr ∧
         (∀ j, j < length ws →
               weak_holders p !! (length (weak_holders pfr) + j) = ws !! j ∧
               indices !! j = Some (length (weak_holders pfr) + j)) ∧
         frame_lists e !! stack entry = Some (frames ++ [new])).
Proof.
  intros He Hfs new created entered.
  split; [|split].
  - intros -> Hrec e. split.
    + unfold _checkpoint_impl, with_hook, leave_region.
      subst e entered created new.
      mrun_with ltac:(rewrite ?He, ?Hfs, ?Hrec, ?lookup_insert_eq).
      simpl.
      mrun_with ltac:(rewrite ?He, ?Hfs, ?Hrec, ?lookup_insert_eq).
      mnorm. rewrite ?insert_insert_eq. simpl.
      destruct (fn args _) as [r s'|e s']; [|done]. mred.
      by destruct (frame_lists s' !! stack entry) as [[|]|].
    + subst e entered created new. eexists. mred.
      split; [apply lookup_insert_eq|].
      do 4 (split; [reflexivity|]).
      split; [apply lookup_insert_eq|]. split; [apply last_snoc|reflexivity].
  - intros -> Hrec args' s1 fr1 frames1 Hadapt Hfr1 Hl1 e. split.
    + unfold _checkpoint_impl, with_hook, leave_region.
      subst e entered created new.
      mrun_with ltac:(rewrite ?He, ?Hfs, ?Hrec, ?lookup_insert_eq).
      simpl.
      mrun_with ltac:(rewrite ?He, ?Hfs, ?Hrec, ?Hadapt, ?Hfr1, ?Hl1, ?lookup_insert_eq).
      mnorm. rewrite ?insert_insert_eq. simpl.
      destruct (fn args' _) as [r s'|e s']; [|done]. mred.
      by destruct (frame_lists s' !! stack entry) as [[|]|].
    + subst e entered created new. eexists. mred.
      split; [apply lookup_insert_eq|].
      do 4 (split; [reflexivity|]).
      split; [apply lookup_insert_eq|apply last_snoc].
  - intros parent pfr Hparent Hpfr Hne Hhook.
    destruct (save_args_to_parent_outer new parent args created entry frames
                pfr (new_frame rfn))
      as (args' & ws & s1 & Hadapt & Hlen & Hl & Hhk & Hsave); try done.
    { subst created. mred. by rewrite lookup_insert_ne. }
    { subst created. mred. by rewrite lookup_insert_eq. }
    exists args', ws, s1. split; [done|]. split; [done|].
    intros indices child parent' e. split; [done|].
    assert (Hlt : (0 <? length frames) = true).
    { apply Nat.ltb_lt. destruct frames; [done|simpl; lia]. }
    split.
    + unfold _checkpoint_impl.
      rewrite (bind_step _ _ _ s s) by done. rewrite He.
      rewrite (bind_step _ _ _ entry s) by done.
      rewrite (bind_step _ _ _ new (set_next_id (S new) s)) by done.
      rewrite (bind_step _ _ _ tt created) by done.
      assert (Hfs' : frame_lists created !! stack entry = Some frames) by done.
      rewrite (bind_step _ _ _ frames created).
      2:{ unfold get_list. mred. by rewrite Hfs'. }
      rewrite Hlt, Hparent.
      cbv zeta in Hsave. fold indices in Hsave. fold parent' in Hsave.
      fold child in Hsave.
      rewrite (bind_step _ _ _ _ _ Hsave).
      assert (Hl1 : frame_lists s1 !! stack entry = Some frames)
        by (by rewrite Hl).
      unfold with_hook, leave_region. subst e entered.
      mrun_with ltac:(rewrite ?Hl1, ?lookup_insert_eq).
      mnorm. rewrite ?insert_insert_eq.
      destruct (fn args' _) as [r s'|e s']; [|done]. mred.
      by destruct (frame_lists s' !! stack entry) as [[|]|].
    + subst e entered. exists child, parent'. mred.
      split; [apply lookup_insert_eq|].
      do 4 (split; [reflexivity|]).
      split; [rewrite lookup_insert_ne by done; apply lookup_insert_eq|].
      do 3 (split; [reflexivity|]).
      split; [|apply lookup_insert_eq].
      intros j Hj. split.
      * cbn [parent' weak_holders set_child_args_idx set_weak_holders].
        rewrite lookup_app_r by lia. f_equal. lia.
      * subst indices. by rewrite lookup_seq_lt.
Qed.

Lemma checkpoint_impl_input_provenance_witness :
  (∃ e fr,
     _checkpoint_impl (fun a => ret a) Sample.sin_cos [VTensor Sample.x]
       (Sample.in_recompute false)
     = leave_region 6
         (Ok [VTensor {| data := 10; dtype := Floating; requires_grad := true;
                         grad_fn := Some NoopSaveInputsBackward |}] e) ∧
     frame_store e !! 7 = Some fr ∧
     maybe_args fr
     = Some [VTensor {| data := 10; dtype := Floating; requires_grad := true;
                        grad_fn := Some NoopSaveInputsBackward |}] ∧
     args_idx fr = None) ∧
  (∃ args' e c p,
     _checkpoint_impl (fun a => ret a) Sample.sin_cos
       [VTensor Sample.plain; VOther 3] (Sample.in_region false)
     = leave_region 0 (Ok args' e) ∧
     frame_store e !! 2 = Some c ∧ maybe_args c = None ∧
     args_idx c = Some [0] ∧
     frame_store e !! 1 = Some p ∧ child_args_idx p = [0] ∧
     length (weak_holders p) = 1).
Proof.
  split.
  - destruct (checkpoint_impl_input_provenance
                (fun a => ret a) Sample.sin_cos [VTensor Sample.x]
                (Sample.in_recompute false)
                {| stack := 6; is_recompute := true |} [] eq_refl)
      as (_ & Hreplay & _); [by vm_compute|].
    destruct (Hreplay eq_refl eq_refl
                [VTensor {| data := 10; dtype := Floating;
                            requires_grad := true;
                            grad_fn := Some NoopSaveInputsBackward |}]
                (final_state
                   (_applyAutogradFunctionToSaveInputs [VTensor Sample.x]
                      (set_frame_store
                         (<[7 := new_frame Sample.sin_cos]>
                            (frame_store (Sample.in_recompute false)))
                         (set_next_id 8 (Sample.in_recompute false)))))
                (new_frame Sample.sin_cos) [])
      as (Himpl & fr & Hfr & Hargs & Hidx & _);
      [by vm_compute | by vm_compute | by vm_compute |].
    eexists _, fr. split; [exact Himpl|]. split; [exact Hfr|].
    split; [exact Hargs | exact Hidx].
  - destruct (checkpoint_impl_input_provenance
                (fun a => ret a) Sample.sin_cos
                [VTensor Sample.plain; VOther 3] (Sample.in_region false)
                {| stack := 0; is_recompute := false |} [1] eq_refl eq_refl)
      as (_ & _ & Hnested).
    destruct (Hnested 1 (set_maybe_args (Some [VTensor Sample.x])
                           (new_frame Sample.sin_cos)))
      as (args' & ws & s1 & _ & Hlen & _ & Himpl & c & p & Hc & Hcargs & Hcidx
          & _ & _ & Hp & Hpw & Hpch & _);
      [reflexivity | reflexivity | by vm_compute | reflexivity |].
    simpl in Hlen.
    eexists args', _, c, p. split; [exact Himpl|]. split; [exact Hc|].
    split; [exact Hcargs|].
    split; [rewrite Hcidx, Hlen; reflexivity|].
    split; [exact Hp|].
    split; [rewrite Hpch, Hlen; reflexivity|].
    rewrite Hpw, length_app, Hlen. reflexivity.
Defined.

(** The sample state [in_region] is the one in which [_checkpoint_impl]
    starts the body of a top-level region. *)
Example in_region_is_where_fn_starts :
  exec 1 (Checkpoint (fun _ => Save Sample.x (fun _ => Ret [])) Sample.sin_cos
            [VTensor Sample.x] Ret)
    (initial_state false Sample.entropy)
  = leave_region 0
      (run (exec 0) (Save Sample.x (fun _ => Ret [])) (Sample.in_region false)).
Proof. vm_compute. reflexivity. Qed.

(** A region entered while its ancestor is being recomputed: frame 10, made
    by the replay of the outer region, has its inputs both in [maybe_args]
    (as the adapter returned them) and, through the adapter's save, in the
    outer frame's cache under the handle of the recorded position. *)
Example region_entered_during_recomputation :
  let s' := final_state
              (_checkpoint_hook.unpack_hook (exec 1) 7 8 [1; 2]
                 (Sample.after_nested_forward false)) in
  maybe_args <$> frame_store s' !! 10
  = Some (Some [VTensor {| data := 10; dtype := Floating; requires_grad := true;
                           grad_fn := Some NoopSaveInputsBackward |}]) ∧
  (λ fr, recomputed_at fr 7 !! 3) <$> frame_store s' !! 1
  = Some (Some Sample.x).
Proof. split; vm_compute; reflexivity. Qed.

(** ** The outer interceptor, restore side: the loop *)

Lemma for_each_app {A} (l1 l2 : list A) (body : A → M unit) s :
  for_each (l1 ++ l2) body s = (for_each l1 body ;;; for_each l2 body) s.
Proof.
  revert s. induction l1 as [|x l1 IH]; intros s; simpl; [done|].
  unfold bind. destruct (body x s) as [[] s'|e s']; [|done].
  rewrite IH. done.
Qed.

Lemma py_getitem_pred {A} (l : list A) i x :
  l !! i = Some x →
  ∃ y, py_getitem l (Z.of_nat i - 1) = Some y ∧
       (i ≠ 0 → l !! (i - 1) = Some y) ∧
       (i = 0 → last l = Some y).
Proof.
  intros Hi. pose proof (lookup_lt_Some _ _ _ Hi) as Hlt.
  unfold py_getitem.
  destruct (Z.ltb_spec (Z.of_nat i - 1) 0) as [Hneg|Hpos].
  - assert (i = 0) as -> by lia.
    destruct (Z.ltb_spec (Z.of_nat 0 - 1 + Z.of_nat (length l)) 0) as [?|_]; [lia|].
    replace (Z.to_nat (Z.of_nat 0 - 1 + Z.of_nat (length l)))
      with (Init.Nat.pred (length l)) by lia.
    rewrite <- last_lookup.
    destruct (last l) as [y|] eqn:Hy.
    + exists y. by repeat split.
    + apply last_None in Hy. subst l. simpl in Hlt. lia.
  - replace (Z.to_nat (Z.of_nat i - 1)) with (i - 1) by lia.
    destruct (l !! (i - 1)) as [y|] eqn:Hy.
    + exists y. split; [done|]. split; [done|]. intros ->. lia.
    + apply lookup_ge_None in Hy. lia.
Qed.

Lemma get_args_from_parent_reads self parent gid s fr pfr idxs xs :
  frame_store s !! self = Some fr →
  args_idx fr = Some idxs →
  frame_store s !! parent = Some pfr →
  Forall2 (fun idx x =>
             ∃ w hd, weak_holders pfr !! idx = Some w ∧
                     holder_store s !! w = Some {| handle := Some hd |} ∧
                     recomputed_at pfr gid !! hd = Some x) idxs xs →
  get_args_from_parent self parent gid s = Ok (VTensor <$> xs) s.
Proof.
  intros Hfr Hidx Hpfr Hall. unfold get_args_from_parent.
  rewrite (bind_step _ _ _ _ _ (get_frame_Some _ _ _ Hfr)), Hidx.
  rewrite (bind_step _ _ _ idxs s) by done. clear Hidx.
  induction Hall as [|idx x idxs xs (w & hd & Hw & Hho & Hx) _ IH]; simpl; [done|].
  rewrite (bind_step _ _ _ (VTensor x) s).
  - by rewrite (bind_step _ _ _ _ _ IH).
  - rewrite (bind_step _ _ _ _ _ (get_frame_Some _ _ _ Hpfr)), Hw.
    rewrite (bind_step _ _ _ w s) by done.
    rewrite (bind_step _ _ _ (Some {| handle := Some hd |}) s).
    2:{ unfold deref_weak_holder. mred. by rewrite Hho. }
    rewrite (bind_step _ _ _ {| handle := Some hd |} s) by done.
    rewrite (bind_step _ _ _ hd s) by done.
    rewrite Hx. done.
Qed.

(** C7. A restore first settles the identifier: the ambient graph-task id
    when there is one, otherwise the next answer of [uuid4], which is
    consumed.  It then takes the captured frames by increasing position, the
    turn of a frame coming after the turns of all frames outside it and
    before those of the frames inside it, and finally looks the value up.  A
    frame already recomputed for the identifier is passed over.  Otherwise
    the recompute callback gets the frame's own [maybe_args] when there are
    some, and else what [get_args_from_parent] reads from the frame one
    position further out: the values the parent's cache holds, for the
    identifier, under the handles of the parent's holders at the positions
    listed in [args_idx]. *)
Theorem restore_walks_frames run graph_task holder frames s :
  (graph_task ≠ (-1)%Z →
     _checkpoint_hook.current_gid graph_task s = Ok graph_task s) ∧
  (graph_task = (-1)%Z →
     _checkpoint_hook.current_gid graph_task s
     = Ok (uuid4 s (uuid_drawn s)) (set_uuid_drawn (S (uuid_drawn s)) s)) ∧
  (∀ top gid s0,
     py_last frames = Some top →
     _checkpoint_hook.current_gid graph_task s = Ok gid s0 →
     let turn := _checkpoint_hook.recompute_frame run frames gid in
     _checkpoint_hook.unpack_hook run graph_task holder frames s
     = (for_each (seq 0 (length frames)) turn ;;;
        _checkpoint_hook.retrieve holder top gid) s0 ∧
     (∀ outer f inner s', frames = outer ++ f :: inner →
        for_each (seq 0 (length frames)) turn s'
        = (for_each (seq 0 (length outer)) turn ;;;
           turn (length outer) ;;;
           for_each (seq (S (length outer)) (length inner)) turn) s') ∧
     (∀ i f fr s', frames !! i = Some f → frame_store s' !! f = Some fr →
        (is_recomputed_at fr gid = true → turn i s' = Ok tt s') ∧
        (is_recomputed_at fr gid = false →
           (∀ args, maybe_args fr = Some args →
              turn i s'
              = (_checkpoint_hook.try_recompute run f gid args ;;;
                 update_frame f (_checkpoint_hook.mark_recomputed gid)) s') ∧
           (maybe_args fr = None →
              ∃ parent,
                py_getitem frames (Z.of_nat i - 1) = Some parent ∧
                (i ≠ 0 → frames !! (i - 1) = Some parent) ∧
                turn i s'
                = (let! args := get_args_from_parent f parent gid in
                   _checkpoint_hook.try_recompute run f gid args ;;;
                   update_frame f (_checkpoint_hook.mark_recomputed gid)) s' ∧
                ∀ pfr idxs xs,
                  args_idx fr = Some idxs →
                  frame_store s' !! parent = Some pfr →
                  Forall2 (fun idx x =>
                     ∃ w hd, weak_holders pfr !! idx = Some w ∧
                             holder_store s' !! w = Some {| handle := Some hd |} ∧
                             recomputed_at pfr gid !! hd = Some x) idxs xs →
                  get_args_from_parent f parent gid s' = Ok (VTensor <$> xs) s')))).
Proof.
  split; [intros; unfold _checkpoint_hook.current_gid; by rewrite decide_False|].
  split; [intros; unfold _checkpoint_hook.current_gid; by rewrite decide_True|].
  intros top gid s0 Htop Hgid turn. split; [|split].
  - unfold _checkpoint_hook.unpack_hook. rewrite Htop.
    rewrite (bind_step _ _ _ top s) by done.
    by rewrite (bind_step _ _ _ _ _ Hgid).
  - intros outer f inner s' ->. rewrite length_app. simpl.
    rewrite seq_app. simpl. rewrite for_each_app. simpl. done.
  - intros i f fr s' Hi Hfr. subst turn.
    unfold _checkpoint_hook.recompute_frame. rewrite Hi.
    rewrite (bind_step _ _ _ f s') by done.
    rewrite (bind_step _ _ _ _ _ (get_frame_Some _ _ _ Hfr)).
    split; [by intros ->|]. intros ->. split.
    + intros args ->. by rewrite (bind_step _ _ _ args s').
    + intros ->. destruct (py_getitem_pred frames i f Hi) as (parent & Hp & Hprev & _).
      exists parent. split; [done|]. split; [done|]. split.
      * rewrite Hp. unfold bind at 1 2. simpl. done.
      * intros pfr idxs xs. by apply get_args_from_parent_reads.
Qed.

Lemma restore_walks_frames_witness :
  _checkpoint_hook.recompute_frame (exec 1) [1; 2] 7 0
    (Sample.after_nested_forward true)
  = (_checkpoint_hook.try_recompute (exec 1) 1 7 [VTensor Sample.x] ;;;
     update_frame 1 (_checkpoint_hook.mark_recomputed 7))
      (Sample.after_nested_forward true).
Proof.
  assert (Hfr : frame_store (Sample.after_nested_forward true) !! 1
                = Some (set_child_args_idx [0]
                          (set_weak_holders [4]
                             (set_maybe_args (Some [VTensor Sample.x])
                                (new_frame Sample.nested)))))
    by (vm_compute; reflexivity).
  destruct (restore_walks_frames (exec 1) 7 8 [1; 2]
              (Sample.after_nested_forward true)) as (_ & _ & Hloop).
  destruct (Hloop 2 7%Z (Sample.after_nested_forward true) eq_refl eq_refl)
    as (_ & _ & Hturn).
  destruct (Hturn 0 1 _ (Sample.after_nested_forward true) eq_refl Hfr)
    as (_ & Hfresh).
  destruct (Hfresh eq_refl) as (Hown & _).
  exact (Hown _ eq_refl).
Defined.

(** A restore of what the inner region's [cos] saved recomputes the outer
    frame first, on its own arguments, and then the inner frame, on what the
    outer frame's recomputation published for it. *)
Example nested_restore_calls :
  recompute_calls
    (final_state
       (_checkpoint_hook.unpack_hook (exec 1) 7 8 [1; 2]
          (Sample.after_nested_forward true)))
  = [(1, 7%Z, [VTensor Sample.x]); (2, 7%Z, [VTensor Sample.x])].
Proof. vm_compute. reflexivity. Qed.

(** ** At most one recomputation per frame and backward pass *)

Section Safe.
Context (gid : Z).

Lemma frame_kept_refl fr : frame_kept gid fr fr.
Proof. done. Qed.

Lemma frame_kept_trans fr1 fr2 fr3 :
  frame_kept gid fr1 fr2 → frame_kept gid fr2 fr3 → frame_kept gid fr1 fr3.
Proof. intros [? ?] [? ?]. split; congruence. Qed.

Lemma steady_refl s : steady gid s s.
Proof. split; [done|]. intros f fr Hf. exists fr. split; [done|apply frame_kept_refl]. Qed.

Lemma steady_trans s1 s2 s3 :
  steady gid s1 s2 → steady gid s2 s3 → steady gid s1 s3.
Proof.
  intros [Hc1 Hf1] [Hc2 Hf2]. split; [congruence|].
  intros f fr Hf. destruct (Hf1 f fr Hf) as (fr2 & H2 & Hk2).
  destruct (Hf2 f fr2 H2) as (fr3 & H3 & Hk3).
  exists fr3. split; [done|]. by eapply frame_kept_trans.
Qed.

Lemma safe_ret {A} (a : A) s : safe gid (ret a) s.
Proof. intros Hg. split; [done|apply steady_refl]. Qed.

Lemma safe_raise {A} e s : safe gid (raise (A:=A) e) s.
Proof. intros Hg. split; [done|apply steady_refl]. Qed.

Lemma safe_get s : safe gid get s.
Proof. intros Hg. split; [done|apply steady_refl]. Qed.

Lemma safe_or_raise {A} e (o : option A) s : safe gid (or_raise e o) s.
Proof. destruct o; [apply safe_ret|apply safe_raise]. Qed.

Lemma safe_bind {A B} (m : M A) (k : A → M B) s :
  safe gid m s →
  (∀ a s1, good gid s → m s = Ok a s1 → good gid s1 → safe gid (k a) s1) →
  safe gid (bind m k) s.
Proof.
  intros Hm Hk Hg. destruct (Hm Hg) as [Hg1 Hs1]. unfold bind.
  destruct (m s) as [a s1|e s1] eqn:Hms; simpl in *; [|done].
  destruct (Hk a s1 Hg eq_refl Hg1 Hg1) as [Hg2 Hs2].
  split; [done|]. by eapply steady_trans.
Qed.

Lemma safe_modify (f : State → State) s :
  (good gid s → good gid (f s) ∧ steady gid s (f s)) → safe gid (modify f) s.
Proof. done. Qed.

Lemma safe_finally {A} (body : M A) cleanup s :
  safe gid body s →
  (∀ s', good gid s' → good gid (cleanup s') ∧ steady gid s' (cleanup s')) →
  safe gid (finally body cleanup) s.
Proof.
  intros Hb Hc Hg. destruct (Hb Hg) as [Hg1 Hs1]. unfold finally.
  destruct (body s) as [a s1|e s1]; simpl in *;
    destruct (Hc s1 Hg1) as [Hg2 Hs2]; (split; [done|]); by eapply steady_trans.
Qed.

Lemma safe_for_each {A} (l : list A) (body : A → M unit) s :
  (∀ x s', good gid s' → safe gid (body x) s') →
  safe gid (for_each l body) s.
Proof.
  intros Hb. revert s. induction l as [|x l IH]; intros s; simpl.
  - apply safe_ret.
  - apply safe_bind; [intros Hg; by apply Hb|]. intros _ s1 _ _ _. apply IH.
Qed.

Lemma safe_map_m {A B} (l : list A) (f : A → M B) s :
  (∀ x s', good gid s' → safe gid (f x) s') →
  safe gid (map_m f l) s.
Proof.
  intros Hb. revert s. induction l as [|x l IH]; intros s; simpl.
  - apply safe_ret.
  - apply safe_bind; [intros Hg; by apply Hb|]. intros y s1 _ _ _.
    apply safe_bind; [apply IH|]. intros ys s2 _ _ _. apply safe_ret.
Qed.

Lemma good_change (f : State → State) s :
  frame_store (f s) = frame_store s →
  next_id s ≤ next_id (f s) →
  uuid4 (f s) = uuid4 s →
  uuid_drawn s ≤ uuid_drawn (f s) →
  good gid s → good gid (f s).
Proof.
  intros Hfs Hn Hu Hd (Hav & Huu & Hbelow). split; [|split].
  - intros g fr a. rewrite Hfs. apply Hav.
  - intros n Hn'. rewrite Hu. apply Huu. lia.
  - intros g fr. rewrite Hfs. intros Hg. apply Hbelow in Hg. lia.
Qed.

(** A state change that touches neither the frames, the call record, the
    allocation counter nor the source of fresh identifiers. *)
Lemma inert_change (f : State → State) s :
  frame_store (f s) = frame_store s →
  recompute_calls (f s) = recompute_calls s →
  next_id s ≤ next_id (f s) →
  uuid4 (f s) = uuid4 s →
  uuid_drawn s ≤ uuid_drawn (f s) →
  good gid s → good gid (f s) ∧ steady gid s (f s).
Proof.
  intros Hfs Hrc Hn Hu Hd (Hav & Huu & Hbelow). split; [split; [|split]|split].
  - intros g fr a. rewrite Hfs. apply Hav.
  - intros n Hn'. rewrite Hu. apply Huu. lia.
  - intros g fr. rewrite Hfs. intros Hg. apply Hbelow in Hg. lia.
  - by rewrite Hrc.
  - intros g fr. rewrite Hfs. intros Hg. exists fr. split; [done|apply frame_kept_refl].
Qed.

Lemma safe_inert (f : State → State) s :
  frame_store (f s) = frame_store s →
  recompute_calls (f s) = recompute_calls s →
  next_id s ≤ next_id (f s) →
  uuid4 (f s) = uuid4 s →
  uuid_drawn s ≤ uuid_drawn (f s) →
  safe gid (modify f) s.
Proof. intros. apply safe_modify. by apply inert_change. Qed.

Lemma safe_alloc s : safe gid alloc s.
Proof. intros Hg. unfold alloc. simpl. apply (inert_change (set_next_id (S (next_id s)))); simpl; auto. Qed.

Lemma safe_put_holder h ho s : safe gid (put_holder h ho) s.
Proof. unfold put_holder. by apply safe_inert. Qed.

Lemma safe_put_list l fs s : safe gid (put_list l fs) s.
Proof. unfold put_list. by apply safe_inert. Qed.

Lemma safe_get_frame f s : safe gid (get_frame f) s.
Proof.
  unfold get_frame. apply safe_bind; [apply safe_get|].
  intros ? ? _ _ _. apply safe_or_raise.
Qed.

Lemma safe_get_holder h s : safe gid (get_holder h) s.
Proof.
  unfold get_holder. apply safe_bind; [apply safe_get|].
  intros ? ? _ _ _. apply safe_or_raise.
Qed.

Lemma safe_deref_weak_holder h s : safe gid (deref_weak_holder h) s.
Proof.
  unfold deref_weak_holder. apply safe_bind; [apply safe_get|].
  intros ? ? _ _ _. apply safe_ret.
Qed.

Lemma safe_get_list l s : safe gid (get_list l) s.
Proof.
  unfold get_list. apply safe_bind; [apply safe_get|].
  intros ? ? _ _ _. apply safe_or_raise.
Qed.

(** Replacing the frames by frames that keep their callback and their
    flag for [gid]. *)
Lemma kept_change (upd : gmap nat _CheckpointFrame → gmap nat _CheckpointFrame) s :
  (∀ f fr, frame_store s !! f = Some fr →
     ∃ fr', upd (frame_store s) !! f = Some fr' ∧ frame_kept gid fr fr') →
  (∀ f fr', upd (frame_store s) !! f = Some fr' →
     ∃ fr, frame_store s !! f = Some fr) →
  good gid s →
  good gid (set_frame_store (upd (frame_store s)) s) ∧
  steady gid s (set_frame_store (upd (frame_store s)) s).
Proof.
  intros Hfwd Hback (Hav & Huu & Hbelow). split; [split; [|split]|split]; simpl.
  - intros f fr' a Hf. destruct (Hback f fr' Hf) as (fr & Hfr).
    destruct (Hfwd f fr Hfr) as (fr'' & Hf'' & Hfn & _).
    assert (fr'' = fr') as -> by congruence. rewrite Hfn. by eapply Hav.
  - done.
  - intros f fr' Hf. destruct (Hback f fr' Hf) as (fr & Hfr). by eapply Hbelow.
  - done.
  - done.
Qed.

Lemma safe_update_frame f upd s :
  (∀ fr, frame_kept gid fr (upd fr)) →
  safe gid (update_frame f upd) s.
Proof.
  intros Hupd. unfold update_frame. apply safe_bind; [apply safe_get_frame|].
  intros fr s1 _ Hget _. apply safe_modify.
  assert (Hfr : frame_store s1 !! f = Some fr).
  { revert Hget. unfold get_frame. mred.
    destruct (frame_store s !! f) eqn:E; [|done]. by intros [= <- <-]. }
  apply (kept_change (insert f (upd fr))).
  - intros g fr0 Hg. destruct (decide (f = g)) as [<-|Hne].
    + exists (upd fr). rewrite lookup_insert_eq. split; [done|].
      assert (fr0 = fr) as -> by congruence. apply Hupd.
    + exists fr0. rewrite lookup_insert_ne by done. split; [done|apply frame_kept_refl].
  - intros g fr'. destruct (decide (f = g)) as [<-|Hne].
    + eauto.
    + rewrite lookup_insert_ne by done. eauto.
Qed.


Lemma get_frame_inv f s fr s1 :
  get_frame f s = Ok fr s1 → s1 = s ∧ frame_store s !! f = Some fr.
Proof.
  unfold get_frame. mred. destruct (frame_store s !! f); [|done].
  by intros [= <- <-].
Qed.

Ltac safe_step :=
  first
    [ apply safe_ret | apply safe_raise | apply safe_get | apply safe_or_raise
    | apply safe_alloc | apply safe_put_holder | apply safe_put_list
    | apply safe_get_frame | apply safe_get_holder
    | apply safe_deref_weak_holder | apply safe_get_list
    | (apply safe_update_frame; intros ?; split; reflexivity) ].

Ltac safe_auto :=
  repeat (first [ safe_step
                | (apply safe_bind; [|intros ? ? ? ? ?])
                | match goal with
                  | |- safe _ (match ?x with _ => _ end) _ => destruct x
                  | |- safe _ (if ?x then _ else _) _ => destruct x
                  end ]).

Lemma safe_recomputation_pack_hook target g x s :
  safe gid (_recomputation_hook.pack_hook target g x) s.
Proof. unfold _recomputation_hook.pack_hook. safe_auto. Qed.

Lemma safe_checkpoint_pack_hook x s :
  safe gid (_checkpoint_hook.pack_hook x) s.
Proof. unfold _checkpoint_hook.pack_hook. safe_auto. Qed.

Lemma safe_engine_save x s : safe gid (engine_save x) s.
Proof.
  unfold engine_save. apply safe_bind; [safe_step|]. intros s0 s1 _ _ _.
  destruct (last (saved_tensors_hooks s0)) as [[|f g]|].
  - apply safe_checkpoint_pack_hook.
  - apply safe_recomputation_pack_hook.
  - safe_step.
Qed.

Lemma safe_adapter args s :
  safe gid (_applyAutogradFunctionToSaveInputs args) s.
Proof.
  unfold _applyAutogradFunctionToSaveInputs, _NoopSaveInputs.apply,
    _NoopSaveInputs.setup_context.
  apply safe_bind; [|intros; safe_step].
  apply safe_bind; [safe_step|]. intros s0 s1 _ _ _.
  apply safe_bind; [|intros; destruct (_ && _); safe_step].
  apply safe_for_each. intros [t|o] s' _; [|safe_step].
  apply safe_bind; [apply safe_engine_save|intros; safe_step].
Qed.

Lemma safe_save_args_to_parent self parent args s :
  safe gid (save_args_to_parent self parent args) s.
Proof.
  unfold save_args_to_parent.
  apply safe_bind; [safe_step|]. intros.
  apply safe_bind; [apply safe_adapter|]. intros.
  safe_auto.
Qed.

Lemma forget_change hd s :
  good gid s →
  good gid (forget_handle hd s) ∧ steady gid s (forget_handle hd s).
Proof.
  intros Hg. destruct hd as [hd|]; simpl; [|split; [done|apply steady_refl]].
  apply (kept_change (fmap (forget_handle_in hd))); [| |done].
  - intros f fr Hf. exists (forget_handle_in hd fr).
    by rewrite lookup_fmap, Hf.
  - intros f fr'. rewrite lookup_fmap.
    destruct (frame_store s !! f); simpl; [eauto|done].
Qed.

Lemma safe_release_holder h s : safe gid (release_holder h) s.
Proof.
  intros Hg. unfold release_holder.
  destruct (holder_store s !! h) as [ho|]; simpl; [|split; [done|apply steady_refl]].
  destruct (inert_change (set_holder_store (delete h (holder_store s))) s)
    as [Hg1 Hs1]; try done.
  destruct (forget_change (handle ho) _ Hg1) as [Hg2 Hs2].
  split; [exact Hg2|]. exact (steady_trans _ _ _ Hs1 Hs2).
Qed.


Lemma hooks_change (f : list Hook → list Hook) s :
  good gid s →
  good gid (set_saved_tensors_hooks (f (saved_tensors_hooks s)) s) ∧
  steady gid s (set_saved_tensors_hooks (f (saved_tensors_hooks s)) s).
Proof. by apply (inert_change (fun s => set_saved_tensors_hooks (f (saved_tensors_hooks s)) s)). Qed.

Lemma safe_with_hook {A} h (body : M A) s :
  (∀ s', good gid s' → safe gid body s') → safe gid (with_hook h body) s.
Proof.
  intros Hb. unfold with_hook. apply safe_bind.
  - apply safe_modify. apply (hooks_change (fun l => l ++ [h])).
  - intros _ s1 _ _ Hg1. apply safe_finally; [by apply Hb|].
    intros s'. apply (hooks_change (@removelast Hook)).
Qed.

Lemma safe_with_enable_grad {A} (body : M A) s :
  (∀ s', good gid s' → safe gid body s') → safe gid (with_enable_grad body) s.
Proof.
  intros Hb. unfold with_enable_grad. apply safe_bind; [safe_step|].
  intros s0 s1 _ _ _. apply safe_bind.
  - by apply safe_inert.
  - intros _ s2 _ _ Hg2. apply safe_finally; [by apply Hb|].
    intros s'. by apply (inert_change (set_grad_enabled (grad_enabled s0))).
Qed.

Lemma safe_checkpoint_impl (fn : list Value → M (list Value)) rfn args s :
  (∀ a s', good gid s' → safe gid (fn a) s') →
  (∀ a, avoids gid (rfn a)) →
  safe gid (_checkpoint_impl fn rfn args) s.
Proof.
  intros Hfn Hrfn. unfold _checkpoint_impl.
  apply safe_bind; [safe_step|]. intros s0 s1 _ _ _.
  apply safe_bind; [safe_step|]. intros entry s2 _ _ _.
  apply safe_bind; [safe_step|]. intros new s3 Hg2 Halloc Hg3.
  assert (new = next_id s2 ∧ s3 = set_next_id (S (next_id s2)) s2) as [-> ->]
    by (by injection Halloc).
  apply safe_bind.
  { apply safe_modify. intros _.
    assert (Hfresh : frame_store s2 !! next_id s2 = None).
    { destruct (frame_store s2 !! next_id s2) as [fr|] eqn:Hfr; [|done].
      destruct Hg2 as (_ & _ & Hbelow). apply Hbelow in Hfr. lia. }
    destruct Hg3 as (Hav & Huu & Hbelow). simpl in *.
    split; [split; [|split]|split]; simpl.
    - intros f fr a. destruct (decide (next_id s2 = f)) as [<-|Hne].
      + rewrite lookup_insert_eq. intros [= <-]. apply Hrfn.
      + rewrite lookup_insert_ne by done. apply Hav.
    - exact Huu.
    - intros f fr. destruct (decide (next_id s2 = f)) as [<-|Hne].
      + intros _. lia.
      + rewrite lookup_insert_ne by done. apply Hbelow.
    - done.
    - intros f fr Hf. exists fr. split; [|apply frame_kept_refl].
      rewrite lookup_insert_ne; [done|]. intros <-. congruence. }
  intros _ s4 _ _ _.
  apply safe_bind; [safe_step|]. intros frames s5 _ _ _.
  apply safe_bind.
  { destruct (0 <? length frames).
    - apply safe_bind; [safe_step|]. intros. apply safe_save_args_to_parent.
    - destruct (is_recompute entry).
      + apply safe_bind; [apply safe_adapter|]. intros. safe_auto.
      + safe_auto. }
  intros args' s6 _ _ _.
  apply safe_bind; [safe_auto|]. intros _ s7 _ _ _.
  apply safe_bind; [apply safe_with_hook; intros; by apply Hfn|].
  intros r s8 _ _ _.
  apply safe_bind; [|intros; safe_step].
  apply safe_bind; [safe_step|]. intros [|? ?] ? _ _ _; safe_step.
Qed.

Lemma calls_under_snoc log f g args :
  g ≠ gid → calls_under gid (log ++ [(f, g, args)]) = calls_under gid log.
Proof.
  intros Hne. unfold calls_under. rewrite filter_app.
  rewrite filter_cons_False by (simpl; done). by rewrite filter_nil, app_nil_r.
Qed.

Lemma is_recomputed_at_mark_ne g fr :
  g ≠ gid →
  is_recomputed_at (_checkpoint_hook.mark_recomputed g fr) gid
  = is_recomputed_at fr gid.
Proof.
  intros Hne. unfold is_recomputed_at, _checkpoint_hook.mark_recomputed. simpl.
  by rewrite lookup_insert_ne.
Qed.

Section Callbacks.
Variable run_callback : Prog → M (list Value).
Hypothesis run_callback_safe :
  ∀ p s, avoids gid p → safe gid (run_callback p) s.

Lemma safe_call_recompute_fn frame g args s :
  g ≠ gid → safe gid (_checkpoint_hook.call_recompute_fn run_callback frame g args) s.
Proof.
  intros Hne. unfold _checkpoint_hook.call_recompute_fn.
  apply safe_bind; [safe_step|]. intros fr s1 Hg Hget _.
  apply get_frame_inv in Hget as [-> Hfr].
  apply safe_bind.
  { apply safe_modify. intros Hg'.
    split; [by apply (good_change
                        (set_recompute_calls
                           (recompute_calls s ++ [(frame, g, args)])))|].
    split; simpl.
    - by apply calls_under_snoc.
    - intros f fr0 Hf. exists fr0. split; [done|apply frame_kept_refl]. }
  intros _ s2 _ _ _.
  apply safe_bind; [|intros; safe_step].
  apply run_callback_safe. destruct Hg as (Hav & _). by eapply Hav.
Qed.

Lemma safe_pop_stack s : safe gid _checkpoint_hook.pop_stack s.
Proof.
  unfold _checkpoint_hook.pop_stack. apply safe_bind; [safe_step|].
  intros s0 s1 _ _ _. destruct (_checkpoint_stacks s0); [safe_step|].
  by apply safe_inert.
Qed.

Lemma safe_try_recompute frame g args s :
  g ≠ gid → safe gid (_checkpoint_hook.try_recompute run_callback frame g args) s.
Proof.
  intros Hne Hg. unfold _checkpoint_hook.try_recompute.
  match goal with
  | |- context [match ?m s with _ => _ end] =>
      assert (Hbody : safe gid m s); [|destruct (Hbody Hg) as [Hg1 Hs1];
                                       destruct (m s) as [[] s1|e s1]]
  end.
  - apply safe_bind.
    { unfold _checkpoint_hook.push_recompute_stack.
      apply safe_bind; [safe_step|]. intros.
      apply safe_bind; [safe_step|]. intros. by apply safe_inert. }
    intros _ s1 _ _ _. apply safe_with_hook. intros s2 _.
    apply safe_with_enable_grad. intros s3 _.
    apply safe_bind; [by apply safe_call_recompute_fn|]. intros _ s4 _ _ _.
    apply safe_bind; [safe_step|]. intros s5 s6 _ _ _.
    destruct (_enable_checkpoint_early_stop s5); safe_step.
  - done.
  - simpl in *. destruct e; try done.
    destruct (safe_pop_stack s1 Hg1) as [Hg2 Hs2].
    split; [done|]. exact (steady_trans _ _ _ Hs1 Hs2).
Qed.

Lemma safe_get_args_from_parent self parent g s :
  safe gid (get_args_from_parent self parent g) s.
Proof.
  unfold get_args_from_parent. apply safe_bind; [safe_step|]. intros.
  apply safe_bind; [safe_step|]. intros.
  apply safe_map_m. intros. safe_auto.
Qed.

Lemma safe_recompute_frame frames g i s :
  g ≠ gid → safe gid (_checkpoint_hook.recompute_frame run_callback frames g i) s.
Proof.
  intros Hne. unfold _checkpoint_hook.recompute_frame.
  apply safe_bind; [safe_step|]. intros frame s1 _ _ _.
  apply safe_bind; [safe_step|]. intros fr s2 _ _ _.
  destruct (is_recomputed_at fr g); [safe_step|].
  apply safe_bind.
  { destruct (maybe_args fr); [safe_step|].
    apply safe_bind; [safe_step|]. intros. apply safe_get_args_from_parent. }
  intros args s3 _ _ _.
  apply safe_bind; [by apply safe_try_recompute|]. intros _ s4 _ _ _.
  apply safe_update_frame. intros fr0. split; [done|].
  by apply is_recomputed_at_mark_ne.
Qed.

Lemma safe_retrieve holder top g s :
  safe gid (_checkpoint_hook.retrieve holder top g) s.
Proof.
  unfold _checkpoint_hook.retrieve. apply safe_bind; [safe_step|].
  intros ho s1 _ _ _. destruct (handle ho) as [hd|]; [|safe_step].
  apply safe_bind; [safe_step|]. intros top_fr s2 _ _ _.
  destruct (_ !! hd); [|safe_step].
  apply safe_bind; [safe_step|]. intros.
  apply safe_bind; [|intros; safe_step].
  apply safe_modify. apply forget_change.
Qed.

Lemma safe_unpack_hook graph_task holder frames s :
  graph_task ≠ gid →
  safe gid (_checkpoint_hook.unpack_hook run_callback graph_task holder frames) s.
Proof.
  intros Hne. unfold _checkpoint_hook.unpack_hook.
  apply safe_bind; [safe_step|]. intros top s1 _ _ _.
  apply safe_bind.
  { unfold _checkpoint_hook.current_gid. destruct (decide _); [|safe_step].
    intros Hg.
    apply (inert_change (fun s => set_uuid_drawn (S (uuid_drawn s)) s));
      simpl; auto. }
  intros g s2 Hg1 Hgid _.
  assert (Hg : g ≠ gid).
  { revert Hgid. unfold _checkpoint_hook.current_gid.
    destruct (decide _); [|by intros [= <- _]].
    intros [= <- _]. destruct Hg1 as (_ & Huu & _). by apply Huu. }
  apply safe_bind.
  { apply safe_for_each. intros. by apply safe_recompute_frame. }
  intros. apply safe_retrieve.
Qed.

Lemma safe_engine_restore graph_task saved s :
  graph_task ≠ gid →
  safe gid (engine_restore run_callback graph_task saved) s.
Proof.
  intros Hne. destruct saved; simpl.
  - by apply safe_unpack_hook.
  - unfold _recomputation_hook.unpack_hook. safe_step.
  - safe_step.
Qed.

Lemma safe_run p : ∀ s, avoids gid p → safe gid (run run_callback p) s.
Proof.
  induction p as [out|x k IH|g saved k IH|h k IH|fn IHfn rfn IHrfn args k IHk];
    intros s Hp; simpl in *.
  - safe_step.
  - apply safe_bind; [apply safe_engine_save|]. intros. by apply IH.
  - destruct Hp as [Hne Hk].
    apply safe_bind; [by apply safe_engine_restore|]. intros. by apply IH.
  - apply safe_bind; [apply safe_release_holder|]. intros. by apply IH.
  - destruct Hp as (Hfn & Hrfn & Hk).
    apply safe_bind.
    + apply safe_checkpoint_impl; [|done]. intros a s' _. by apply IHfn.
    + intros. by apply IHk.
Qed.

End Callbacks.

Lemma safe_exec depth : ∀ p s, avoids gid p → safe gid (exec depth p) s.
Proof.
  induction depth as [|d IH]; intros p s Hp; simpl.
  - safe_step.
  - by apply safe_run.
Qed.


(** *** The pass under [gid] itself *)

Lemma steady_one_call frame args s s' :
  steady gid s s' → one_call gid frame args s s'.
Proof. intros [Hc Hf]. split; [by left|done]. Qed.

Lemma steady_then_one_call frame args s1 s2 s3 :
  steady gid s1 s2 → one_call gid frame args s2 s3 → one_call gid frame args s1 s3.
Proof.
  intros [Hc1 Hf1] [Hc2 Hf2]. split.
  - rewrite <- Hc1. exact Hc2.
  - intros f fr Hf. destruct (Hf1 f fr Hf) as (fr2 & H2 & Hk2).
    destruct (Hf2 f fr2 H2) as (fr3 & H3 & Hk3).
    exists fr3. split; [done|]. by eapply frame_kept_trans.
Qed.

Lemma one_call_then_steady frame args s1 s2 s3 :
  one_call gid frame args s1 s2 → steady gid s2 s3 → one_call gid frame args s1 s3.
Proof.
  intros [Hc1 Hf1] [Hc2 Hf2]. split.
  - rewrite Hc2. exact Hc1.
  - intros f fr Hf. destruct (Hf1 f fr Hf) as (fr2 & H2 & Hk2).
    destruct (Hf2 f fr2 H2) as (fr3 & H3 & Hk3).
    exists fr3. split; [done|]. by eapply frame_kept_trans.
Qed.

Lemma calls_once_of_safe {A} frame args (m : M A) s :
  safe gid m s → calls_once gid frame args m s.
Proof.
  intros Hm Hg. destruct (Hm Hg) as [Hg1 Hs1]. split; [done|].
  by apply steady_one_call.
Qed.

Lemma calls_once_bind_l {A B} frame args (m : M A) (k : A → M B) s :
  safe gid m s →
  (∀ a s1, good gid s → m s = Ok a s1 → good gid s1 →
           calls_once gid frame args (k a) s1) →
  calls_once gid frame args (bind m k) s.
Proof.
  intros Hm Hk Hg. destruct (Hm Hg) as [Hg1 Hs1]. unfold bind.
  destruct (m s) as [a s1|e s1] eqn:Hms; simpl in *.
  - destruct (Hk a s1 Hg eq_refl Hg1 Hg1) as [Hg2 Hs2].
    split; [done|]. by eapply steady_then_one_call.
  - split; [done|]. by apply steady_one_call.
Qed.

Lemma calls_once_bind_r {A B} frame args (m : M A) (k : A → M B) s :
  calls_once gid frame args m s →
  (∀ a s1, good gid s1 → safe gid (k a) s1) →
  calls_once gid frame args (bind m k) s.
Proof.
  intros Hm Hk Hg. destruct (Hm Hg) as [Hg1 Hs1]. unfold bind.
  destruct (m s) as [a s1|e s1] eqn:Hms; simpl in *; [|done].
  destruct (Hk a s1 Hg1 Hg1) as [Hg2 Hs2].
  split; [done|]. by eapply one_call_then_steady.
Qed.

Lemma calls_once_finally {A} frame args (body : M A) cleanup s :
  calls_once gid frame args body s →
  (∀ s', good gid s' → good gid (cleanup s') ∧ steady gid s' (cleanup s')) →
  calls_once gid frame args (finally body cleanup) s.
Proof.
  intros Hb Hc Hg. destruct (Hb Hg) as [Hg1 Hs1]. unfold finally.
  destruct (body s) as [a s1|e s1]; simpl in *;
    destruct (Hc s1 Hg1) as [Hg2 Hs2]; (split; [done|]);
    by eapply one_call_then_steady.
Qed.

Section Pass.
Variable run_callback : Prog → M (list Value).
Hypothesis run_callback_safe :
  ∀ p s, avoids gid p → safe gid (run_callback p) s.

Lemma call_recompute_fn_once frame args s :
  calls_once gid frame args
    (_checkpoint_hook.call_recompute_fn run_callback frame gid args) s.
Proof.
  unfold _checkpoint_hook.call_recompute_fn.
  apply calls_once_bind_l; [safe_step|]. intros fr s1 Hg Hget _.
  apply get_frame_inv in Hget as [-> Hfr].
  apply calls_once_bind_r.
  2:{ intros _ s2 _. apply safe_bind; [|intros; safe_step].
      (* the callback runs from a state whose store still avoids [gid] *)
      intros Hg2. apply run_callback_safe; [|done].
      destruct Hg as (Hav & _). by eapply Hav. }
  intros _. simpl. split.
  - by apply (good_change
                (set_recompute_calls (recompute_calls s ++ [(frame, gid, args)]))).
  - split; simpl.
    + right. unfold calls_under. rewrite filter_app.
      by rewrite filter_cons_True by done.
    + intros f fr0 Hf. exists fr0. split; [done|apply frame_kept_refl].
Qed.

Lemma try_recompute_once frame args s :
  calls_once gid frame args
    (_checkpoint_hook.try_recompute run_callback frame gid args) s.
Proof.
  intros Hg. unfold _checkpoint_hook.try_recompute.
  match goal with
  | |- context [match ?m s with _ => _ end] =>
      assert (Hbody : calls_once gid frame args m s);
        [|destruct (Hbody Hg) as [Hg1 Hs1]; destruct (m s) as [[] s1|e s1]]
  end.
  - apply calls_once_bind_l.
    { unfold _checkpoint_hook.push_recompute_stack.
      apply safe_bind; [safe_step|]. intros.
      apply safe_bind; [safe_step|]. intros. by apply safe_inert. }
    intros _ s1 _ _ _. unfold with_hook.
    apply calls_once_bind_l.
    { apply safe_modify. apply (hooks_change (fun l => l ++ [_])). }
    intros _ s2 _ _ _. apply calls_once_finally;
      [|intros s'; apply (hooks_change (@removelast Hook))].
    unfold with_enable_grad.
    apply calls_once_bind_l; [safe_step|]. intros s3 s4 _ _ _.
    apply calls_once_bind_l; [by apply safe_inert|]. intros _ s5 _ _ _.
    apply calls_once_finally;
      [|intros s'; by apply (inert_change (set_grad_enabled (grad_enabled s3)))].
    apply calls_once_bind_r; [apply call_recompute_fn_once|].
    intros _ s6 _. apply safe_bind; [safe_step|]. intros s7 s8 _ _ _.
    destruct (_enable_checkpoint_early_stop s7); safe_step.
  - done.
  - simpl in *. destruct e; try done.
    destruct (safe_pop_stack s1 Hg1) as [Hg2 Hs2].
    split; [done|]. by eapply one_call_then_steady.
Qed.


Lemma calls_of_same f log log' :
  calls_under gid log' = calls_under gid log →
  calls_of f gid log' = calls_of f gid log.
Proof. unfold calls_of. by intros ->. Qed.

Lemma calls_of_one_more f frame args log log' :
  calls_under gid log' = calls_under gid log ++ [(frame, gid, args)] →
  calls_of f gid log' = calls_of f gid log + (if decide (frame = f) then 1 else 0).
Proof.
  unfold calls_of. intros ->. rewrite filter_app, length_app. f_equal.
  destruct (decide (frame = f)) as [->|Hne].
  - by rewrite filter_cons_True by done.
  - by rewrite filter_cons_False by done.
Qed.

Lemma once_and_flagged_weaken s : once_and_flagged gid s → at_most_once gid s.
Proof. intros H f. apply H. Qed.

Lemma flagged_kept s s' f :
  (∀ f fr, frame_store s !! f = Some fr →
           ∃ fr', frame_store s' !! f = Some fr' ∧ frame_kept gid fr fr') →
  flagged s f gid → flagged s' f gid.
Proof.
  intros Hk (fr & Hfr & Hflag). destruct (Hk f fr Hfr) as (fr' & Hfr' & _ & Hfl).
  exists fr'. split; [done|congruence].
Qed.

Lemma steady_once_and_flagged s s' :
  steady gid s s' → once_and_flagged gid s → once_and_flagged gid s'.
Proof.
  intros [Hc Hk] HJ f. rewrite (calls_of_same f _ _ Hc).
  destruct (HJ f) as [Hle Hfl]. split; [done|].
  intros H1. eapply flagged_kept; eauto.
Qed.

Lemma one_call_at_most_once frame args fr s s' :
  frame_store s !! frame = Some fr →
  is_recomputed_at fr gid = false →
  once_and_flagged gid s →
  one_call gid frame args s s' →
  at_most_once gid s' ∧
  ∀ f, f ≠ frame →
       calls_of f gid (recompute_calls s') = calls_of f gid (recompute_calls s).
Proof.
  intros Hfr Hflag HJ [[Hc|Hc] Hk].
  - split; intros f; rewrite (calls_of_same f _ _ Hc); [apply HJ|done].
  - assert (Hzero : calls_of frame gid (recompute_calls s) = 0).
    { destruct (HJ frame) as [Hle Hfl].
      destruct (calls_of frame gid (recompute_calls s)) as [|[|n]]; [done| |lia].
      destruct (Hfl eq_refl) as (fr' & Hfr' & Hflag'). congruence. }
    split; intros f; rewrite (calls_of_one_more f _ _ _ _ Hc);
      destruct (decide (frame = f)) as [<-|Hne].
    + lia.
    + rewrite Nat.add_0_r. apply HJ.
    + done.
    + intros _. lia.
Qed.

Lemma map_m_reads_only {A B} (f : A → M B) l s :
  (∀ x, final_state (f x s) = s) → final_state (map_m f l s) = s.
Proof.
  intros Hf. induction l as [|x l IH]; simpl; [done|]. unfold bind.
  specialize (Hf x). destruct (f x s) as [y s1|e s1]; simpl in Hf; subst; [|done].
  destruct (map_m f l s) as [ys s1|e s1]; simpl in IH; by subst.
Qed.

Lemma get_args_from_parent_reads_only self parent g s :
  final_state (get_args_from_parent self parent g s) = s.
Proof.
  unfold get_args_from_parent, get_frame, deref_weak_holder.
  unfold bind at 1 2. simpl.
  destruct (frame_store s !! self) as [me|]; simpl; [|done].
  unfold bind at 1. destruct (args_idx me) as [idxs|]; simpl; [|done].
  apply map_m_reads_only. intros idx. unfold bind, get. simpl.
  destruct (frame_store s !! parent) as [pfr|]; simpl; [|done].
  destruct (weak_holders pfr !! idx) as [w|]; simpl; [|done].
  destruct (holder_store s !! w) as [[[hd|]]|]; simpl; try done.
  by destruct (recomputed_at pfr g !! hd).
Qed.

Lemma is_recomputed_at_mark g fr :
  is_recomputed_at (_checkpoint_hook.mark_recomputed g fr) g = true.
Proof.
  unfold is_recomputed_at, _checkpoint_hook.mark_recomputed. simpl.
  by rewrite lookup_insert_eq.
Qed.

Lemma good_replace_frame f fr fr' s :
  frame_store s !! f = Some fr →
  recompute_fn fr' = recompute_fn fr →
  good gid s →
  good gid (set_frame_store (<[f := fr']> (frame_store s)) s).
Proof.
  intros Hfr Hfn (Hav & Huu & Hbelow). split; [|split]; simpl.
  - intros g fr0 a. destruct (decide (f = g)) as [<-|Hne].
    + rewrite lookup_insert_eq. intros [= <-]. rewrite Hfn. by eapply Hav.
    + rewrite lookup_insert_ne by done. apply Hav.
  - done.
  - intros g fr0. destruct (decide (f = g)) as [<-|Hne].
    + intros _. by eapply Hbelow.
    + rewrite lookup_insert_ne by done. apply Hbelow.
Qed.

Lemma recompute_frame_pass frames i s :
  good gid s → once_and_flagged gid s →
  match _checkpoint_hook.recompute_frame run_callback frames gid i s with
  | Ok _ s' => good gid s' ∧ once_and_flagged gid s'
  | Raise _ s' => at_most_once gid s'
  end.
Proof.
  intros Hg HJ. pose proof (once_and_flagged_weaken _ HJ) as Hweak.
  unfold _checkpoint_hook.recompute_frame.
  destruct (frames !! i) as [frame|]; [|done].
  rewrite (bind_step _ _ _ frame s) by done.
  destruct (frame_store s !! frame) as [fr|] eqn:Hfr.
  2:{ rewrite (bind_fail _ _ _ DanglingReference s); [done|].
      unfold get_frame. mred. by rewrite Hfr. }
  rewrite (bind_step _ _ _ _ _ (get_frame_Some _ _ _ Hfr)).
  destruct (is_recomputed_at fr gid) eqn:Hflag; [done|].
  match goal with
  | |- context [bind ?m _ s] =>
      assert (Hargs : final_state (m s) = s);
        [|destruct (m s) as [args s1|e s1] eqn:Hm; simpl in Hargs; subst s1]
  end.
  { destruct (maybe_args fr); [done|].
    destruct (py_getitem frames (Z.of_nat i - 1)) as [parent|]; [|done].
    rewrite (bind_step _ _ _ parent s) by done.
    apply get_args_from_parent_reads_only. }
  2:{ by rewrite (bind_fail _ _ _ _ _ Hm). }
  rewrite (bind_step _ _ _ _ _ Hm).
  destruct (try_recompute_once frame args s Hg) as [Hg2 Hone].
  destruct (one_call_at_most_once _ _ _ _ _ Hfr Hflag HJ Hone) as [Hweak2 Hother].
  destruct (_checkpoint_hook.try_recompute run_callback frame gid args s)
    as [[] s2|e s2] eqn:Htry; simpl in *.
  2:{ by rewrite (bind_fail _ _ _ _ _ Htry). }
  rewrite (bind_step _ _ _ _ _ Htry).
  destruct Hone as [_ Hk]. destruct (Hk frame fr Hfr) as (fr2 & Hfr2 & Hfn & _).
  rewrite (update_frame_Some _ _ _ _ Hfr2).
  split; [by eapply good_replace_frame|].
  intros f. simpl. split; [apply Hweak2|]. intros Hone.
  destruct (decide (f = frame)) as [->|Hne].
  - eexists. simpl. rewrite lookup_insert_eq. split; [done|].
    apply is_recomputed_at_mark.
  - rewrite Hother in Hone by done.
    destruct (HJ f) as [_ Hfl]. destruct (Hfl Hone) as (fr0 & Hfr0 & Hflag0).
    destruct (Hk f fr0 Hfr0) as (fr0' & Hfr0' & _ & Hflag0').
    exists fr0'. simpl. rewrite lookup_insert_ne by done.
    split; [done|congruence].
Qed.

(** The loop of one restore. *)
Lemma restore_loop_pass frames idxs s :
  good gid s → once_and_flagged gid s →
  match for_each idxs (_checkpoint_hook.recompute_frame run_callback frames gid) s with
  | Ok _ s' => good gid s' ∧ once_and_flagged gid s'
  | Raise _ s' => at_most_once gid s'
  end.
Proof.
  revert s. induction idxs as [|i idxs IH]; intros s Hg HJ; simpl; [done|].
  pose proof (recompute_frame_pass frames i s Hg HJ) as Hturn. unfold bind.
  destruct (_checkpoint_hook.recompute_frame run_callback frames gid i s)
    as [[] s1|e s1]; [|done].
  destruct Hturn as [Hg1 HJ1]. by apply IH.
Qed.

Lemma unpack_hook_pass holder frames s :
  gid ≠ (-1)%Z →
  good gid s → once_and_flagged gid s →
  match _checkpoint_hook.unpack_hook run_callback gid holder frames s with
  | Ok _ s' => good gid s' ∧ once_and_flagged gid s'
  | Raise _ s' => at_most_once gid s'
  end.
Proof.
  intros Hgid Hg HJ. unfold _checkpoint_hook.unpack_hook.
  destruct (py_last frames) as [top|];
    [|by apply once_and_flagged_weaken].
  rewrite (bind_step _ _ _ top s) by done.
  rewrite (bind_step _ _ _ gid s)
    by (unfold _checkpoint_hook.current_gid; by rewrite decide_False).
  pose proof (restore_loop_pass frames (seq 0 (length frames)) s Hg HJ) as Hloop.
  unfold bind at 1.
  destruct (for_each _ _ s) as [[] s1|e s1]; [|done].
  destruct Hloop as [Hg1 HJ1].
  destruct (safe_retrieve holder top gid s1 Hg1) as [Hg2 Hs2].
  pose proof (steady_once_and_flagged _ _ Hs2 HJ1) as HJ2.
  destruct (_checkpoint_hook.retrieve holder top gid s1); simpl in *;
    [done|by apply once_and_flagged_weaken].
Qed.

Lemma restore_all_pass saved s :
  gid ≠ (-1)%Z →
  good gid s → once_and_flagged gid s →
  at_most_once gid (final_state (restore_all run_callback gid saved s)).
Proof.
  intros Hgid. unfold restore_all.
  revert s. induction saved as [|[h fs] saved IH]; intros s Hg HJ; simpl.
  - by apply once_and_flagged_weaken.
  - pose proof (unpack_hook_pass h fs s Hgid Hg HJ) as Hone. unfold bind.
    destruct (_checkpoint_hook.unpack_hook run_callback gid h fs s)
      as [x s1|e s1]; simpl; [|done].
    destruct Hone as [Hg1 HJ1]. by apply IH.
Qed.

End Pass.
End Safe.

Lemma try_recompute_cases run frame gid args s fr :
  frame_store s !! frame = Some fr →
  _checkpoint_hook.try_recompute run frame gid args s
  = match run (recompute_fn fr args) (recompute_entered frame gid args s) with
    | Ok _ s1 =>
        if _enable_checkpoint_early_stop s1
        then Raise AssertionError (recompute_left s s1)
        else Ok tt (recompute_left s s1)
    | Raise _StopRecomputationError s1 =>
        _checkpoint_hook.pop_stack (recompute_left s s1)
    | Raise e s1 => Raise e (recompute_left s s1)
    end.
Proof.
  intros Hfr.
  unfold _checkpoint_hook.try_recompute, _checkpoint_hook.push_recompute_stack,
    with_hook, with_enable_grad, _checkpoint_hook.call_recompute_fn,
    recompute_entered, recompute_left.
  mrun_with ltac:(rewrite ?Hfr). mnorm.
  destruct (run _ _) as [out s1|e s1]; mred; mnorm; simpl.
  - destruct (_enable_checkpoint_early_stop s1) eqn:E; simpl; rewrite ?E;
      reflexivity.
  - destruct e; reflexivity.
Qed.

Lemma recompute_frame_marks run frames gid i f s s' :
  frames !! i = Some f →
  _checkpoint_hook.recompute_frame run frames gid i s = Ok tt s' →
  flagged s' f gid.
Proof.
  intros Hi. unfold _checkpoint_hook.recompute_frame. rewrite Hi.
  rewrite (bind_step _ _ _ f s) by done.
  intros H. apply bind_Ok in H as (fr & s1 & Hget & H).
  apply get_frame_inv in Hget as [-> Hfr].
  destruct (is_recomputed_at fr gid) eqn:Hflag.
  - injection H as <-. by exists fr.
  - apply bind_Ok in H as (args & s1 & _ & H).
    apply bind_Ok in H as ([] & s2 & _ & H).
    unfold update_frame in H. apply bind_Ok in H as (fr2 & s3 & Hget & H).
    apply get_frame_inv in Hget as [-> Hfr2]. injection H as <-.
    eexists. simpl. rewrite lookup_insert_eq. split; [done|].
    unfold is_recomputed_at, _checkpoint_hook.mark_recomputed. simpl.
    by rewrite lookup_insert_eq.
Qed.

Lemma pop_stack_nonempty s :
  _checkpoint_stacks s ≠ [] →
  _checkpoint_hook.pop_stack s
  = Ok tt (set_checkpoint_stacks (removelast (_checkpoint_stacks s)) s).
Proof.
  intros Hne. unfold _checkpoint_hook.pop_stack. mred.
  by destruct (_checkpoint_stacks s).
Qed.

(** C1. (1) A turn of the restore loop for a frame already flagged for the
    identifier changes nothing and calls nothing.  (2) Whenever a turn
    completes, its frame is flagged for the identifier.  (3) A turn does
    complete, and flags its frame, when the recompute callback returns with
    early stop disabled, and (4) also when the callback is cut short by the
    early-stop signal.  (5) Hence, over the restores of one backward pass
    under an identifier [gid], taken in any number and any order from a
    state in which every callback called so far under [gid] belongs to a
    flagged frame, no frame's callback is called twice under [gid]; this
    holds whenever the callbacks themselves do not ask for restores under
    [gid] and no synthesized identifier equals [gid]. *)
Theorem recompute_at_most_once :
  (∀ run frames gid i f fr s,
     frames !! i = Some f → frame_store s !! f = Some fr →
     is_recomputed_at fr gid = true →
     _checkpoint_hook.recompute_frame run frames gid i s = Ok tt s) ∧
  (∀ run frames gid i f s s',
     frames !! i = Some f →
     _checkpoint_hook.recompute_frame run frames gid i s = Ok tt s' →
     flagged s' f gid) ∧
  (∀ run frames gid i f fr args s out s1,
     frames !! i = Some f → frame_store s !! f = Some fr →
     is_recomputed_at fr gid = false → maybe_args fr = Some args →
     run (recompute_fn fr args) (recompute_entered f gid args s) = Ok out s1 →
     _enable_checkpoint_early_stop s1 = false →
     is_Some (frame_store s1 !! f) →
     ∃ s', _checkpoint_hook.recompute_frame run frames gid i s = Ok tt s' ∧
           flagged s' f gid) ∧
  (∀ run frames gid i f fr args s s1,
     frames !! i = Some f → frame_store s !! f = Some fr →
     is_recomputed_at fr gid = false → maybe_args fr = Some args →
     run (recompute_fn fr args) (recompute_entered f gid args s)
     = Raise _StopRecomputationError s1 →
     _checkpoint_stacks s1 ≠ [] → is_Some (frame_store s1 !! f) →
     ∃ s', _checkpoint_hook.recompute_frame run frames gid i s = Ok tt s' ∧
           flagged s' f gid) ∧
  (∀ depth gid saved s,
     gid ≠ (-1)%Z → good gid s → once_and_flagged gid s →
     at_most_once gid (final_state (restore_all (exec depth) gid saved s))).
Proof.
  split; [|split; [|split; [|split]]].
  - intros run frames gid i f fr s Hi Hfr Hflag.
    unfold _checkpoint_hook.recompute_frame. rewrite Hi.
    rewrite (bind_step _ _ _ f s) by done.
    rewrite (bind_step _ _ _ _ _ (get_frame_Some _ _ _ Hfr)).
    by rewrite Hflag.
  - intros run frames gid i f s s'. apply recompute_frame_marks.
  - intros run frames gid i f fr args s out s1 Hi Hfr Hflag Hargs Hrun Hoff [fr1 Hfr1].
    assert (Hturn : ∃ s', _checkpoint_hook.recompute_frame run frames gid i s
                          = Ok tt s').
    { unfold _checkpoint_hook.recompute_frame. rewrite Hi.
      rewrite (bind_step _ _ _ f s) by done.
      rewrite (bind_step _ _ _ _ _ (get_frame_Some _ _ _ Hfr)).
      rewrite Hflag, Hargs.
      rewrite (bind_step _ _ _ args s) by done.
      rewrite (bind_step _ _ _ tt (recompute_left s s1)).
      2:{ by rewrite (try_recompute_cases _ _ _ _ _ _ Hfr), Hrun, Hoff. }
      erewrite update_frame_Some by exact Hfr1. eauto. }
    destruct Hturn as [s' Hturn]. exists s'. split; [done|].
    by eapply recompute_frame_marks.
  - intros run frames gid i f fr args s s1 Hi Hfr Hflag Hargs Hrun Hstk [fr1 Hfr1].
    assert (Hturn : ∃ s', _checkpoint_hook.recompute_frame run frames gid i s
                          = Ok tt s').
    { unfold _checkpoint_hook.recompute_frame. rewrite Hi.
      rewrite (bind_step _ _ _ f s) by done.
      rewrite (bind_step _ _ _ _ _ (get_frame_Some _ _ _ Hfr)).
      rewrite Hflag, Hargs.
      rewrite (bind_step _ _ _ args s) by done.
      rewrite (bind_step _ _ _ tt
                 (set_checkpoint_stacks
                    (removelast (_checkpoint_stacks (recompute_left s s1)))
                    (recompute_left s s1))).
      2:{ rewrite (try_recompute_cases _ _ _ _ _ _ Hfr), Hrun.
          by apply pop_stack_nonempty. }
      erewrite update_frame_Some by exact Hfr1. eauto. }
    destruct Hturn as [s' Hturn]. exists s'. split; [done|].
    by eapply recompute_frame_marks.
  - intros depth gid saved s Hgid Hg HJ.
    apply restore_all_pass; try done.
    intros p s0 Hp. by apply safe_exec.
Qed.

Lemma sample_nested_good : good 7 (Sample.after_nested_forward true).
Proof.
  assert (Hstore : frame_store (Sample.after_nested_forward true)
                   = {[ 1 := set_child_args_idx [0]
                               (set_weak_holders [4]
                                  (set_maybe_args (Some [VTensor Sample.x])
                                     (new_frame Sample.nested)));
                        2 := set_weak_holders [6; 8]
                               (set_args_idx (Some [0])
                                  (set_args_handles (Some [4])
                                     (new_frame Sample.sin_cos))) ]})
    by (vm_compute; reflexivity).
  assert (Hnext : next_id (Sample.after_nested_forward true) = 9)
    by (vm_compute; reflexivity).
  assert (Huuid : uuid4 (Sample.after_nested_forward true) = Sample.entropy)
    by (vm_compute; reflexivity).
  split; [|split].
  - intros f fr a. rewrite Hstore. intros Hf.
    apply lookup_insert_Some in Hf as [[<- <-]|[_ Hf]].
    + simpl. repeat split.
    + apply lookup_singleton_Some in Hf as [<- <-]. simpl. repeat split.
  - intros n _. rewrite Huuid. unfold Sample.entropy. lia.
  - intros f fr. rewrite Hstore, Hnext. intros Hf.
    apply lookup_insert_Some in Hf as [[<- <-]|[_ Hf]]; [lia|].
    apply lookup_singleton_Some in Hf as [<- <-]. lia.
Defined.

Lemma recompute_at_most_once_witness :
  at_most_once 7
    (final_state
       (restore_all (exec 1) 7 [(8, [1; 2]); (6, [1; 2])]
          (Sample.after_nested_forward true))).
Proof.
  destruct recompute_at_most_once as (_ & _ & _ & _ & Hpass).
  apply Hpass; [done|exact sample_nested_good|].
  intros f.
  assert (Hlog : recompute_calls (Sample.after_nested_forward true) = [])
    by (vm_compute; reflexivity).
  rewrite Hlog. split; [unfold calls_of; simpl; lia|].
  unfold calls_of. simpl. lia.
Defined.

(** One backward pass over the doubly nested region that restores both
    values saved in the inner region: each frame's callback is called exactly
    once. *)
Example nested_backward_recomputes_each_frame_once :
  recompute_calls
    (final_state
       (restore_all (exec 1) 7 [(8, [1; 2]); (6, [1; 2])]
          (Sample.after_nested_forward true)))
  = [(1, 7%Z, [VTensor Sample.x]); (2, 7%Z, [VTensor Sample.x])].
Proof. vm_compute. reflexivity. Qed.

(** ** The depth bound *)

(** Nothing in the module catches the failure of the depth bound, so an
    outcome reached within the bound is the outcome at every larger bound. *)

Lemma extends_refl {A} (c : M A) : extends c c.
Proof. by intros s _. Qed.

Lemma extends_bind {A B} (c1 c2 : M A) (k1 k2 : A → M B) :
  extends c1 c2 → (∀ x, extends (k1 x) (k2 x)) →
  extends (bind c1 k1) (bind c2 k2).
Proof.
  intros Hc Hk s. unfold bind. specialize (Hc s).
  destruct (c1 s) as [x s1|e s1] eqn:E.
  - rewrite Hc by done. apply Hk.
  - intros Ho. by rewrite Hc by (by destruct e).
Qed.

Lemma extends_finally {A} (c1 c2 : M A) cleanup :
  extends c1 c2 → extends (finally c1 cleanup) (finally c2 cleanup).
Proof.
  intros Hc s. unfold finally. specialize (Hc s).
  destruct (c1 s) as [x s1|e s1] eqn:E.
  - by rewrite Hc.
  - intros Ho. by rewrite Hc by (by destruct e).
Qed.

Lemma extends_with_hook {A} h (c1 c2 : M A) :
  extends c1 c2 → extends (with_hook h c1) (with_hook h c2).
Proof.
  intros Hc. unfold with_hook. apply extends_bind; [apply extends_refl|].
  intros _. by apply extends_finally.
Qed.

Lemma extends_with_enable_grad {A} (c1 c2 : M A) :
  extends c1 c2 → extends (with_enable_grad c1) (with_enable_grad c2).
Proof.
  intros Hc. unfold with_enable_grad. apply extends_bind; [apply extends_refl|].
  intros s0. apply extends_bind; [apply extends_refl|].
  intros _. by apply extends_finally.
Qed.

Lemma extends_for_each {A} (l : list A) (b1 b2 : A → M unit) :
  (∀ x, extends (b1 x) (b2 x)) → extends (for_each l b1) (for_each l b2).
Proof.
  intros Hb. induction l as [|x l IH]; simpl; [apply extends_refl|].
  apply extends_bind; [apply Hb|]. by intros _.
Qed.

Section Deeper.
Variables r1 r2 : Prog → M (list Value).
Hypothesis Hr : ∀ p, extends (r1 p) (r2 p).

Lemma extends_call_recompute_fn frame gid args :
  extends (_checkpoint_hook.call_recompute_fn r1 frame gid args)
          (_checkpoint_hook.call_recompute_fn r2 frame gid args).
Proof.
  unfold _checkpoint_hook.call_recompute_fn.
  apply extends_bind; [apply extends_refl|]. intros fr.
  apply extends_bind; [apply extends_refl|]. intros _.
  apply extends_bind; [apply Hr|]. intros _. apply extends_refl.
Qed.

Lemma extends_try_recompute frame gid args :
  extends (_checkpoint_hook.try_recompute r1 frame gid args)
          (_checkpoint_hook.try_recompute r2 frame gid args).
Proof.
  intros s. unfold _checkpoint_hook.try_recompute.
  match goal with |- context [bind ?a (fun _ => with_hook ?h (with_enable_grad (bind ?c1 ?k))) s] =>
    assert (He : extends (bind a (fun _ => with_hook h (with_enable_grad (bind c1 k))))
                  (bind a (fun _ => with_hook h (with_enable_grad
                     (bind (_checkpoint_hook.call_recompute_fn r2 frame gid args) k)))))
  end.
  { apply extends_bind; [apply extends_refl|]. intros _.
    apply extends_with_hook, extends_with_enable_grad.
    apply extends_bind; [apply extends_call_recompute_fn|]. intros _.
    apply extends_refl. }
  specialize (He s). cbv beta in He.
  match type of He with overflowed ?o = false → _ =>
    destruct o as [x s1|e s1] eqn:E end.
  - by rewrite He.
  - intros Ho. rewrite He; [done|]. by destruct e.
Qed.

Lemma extends_recompute_frame frames gid i :
  extends (_checkpoint_hook.recompute_frame r1 frames gid i)
          (_checkpoint_hook.recompute_frame r2 frames gid i).
Proof.
  unfold _checkpoint_hook.recompute_frame.
  apply extends_bind; [apply extends_refl|]. intros frame.
  apply extends_bind; [apply extends_refl|]. intros fr.
  destruct (is_recomputed_at fr gid); [apply extends_refl|].
  apply extends_bind; [apply extends_refl|]. intros args.
  apply extends_bind; [apply extends_try_recompute|]. intros _.
  apply extends_refl.
Qed.

Lemma extends_unpack_hook graph_task holder frames :
  extends (_checkpoint_hook.unpack_hook r1 graph_task holder frames)
          (_checkpoint_hook.unpack_hook r2 graph_task holder frames).
Proof.
  unfold _checkpoint_hook.unpack_hook.
  apply extends_bind; [apply extends_refl|]. intros top.
  apply extends_bind; [apply extends_refl|]. intros gid.
  apply extends_bind; [|intros _; apply extends_refl].
  apply extends_for_each. intros i. apply extends_recompute_frame.
Qed.

Lemma extends_engine_restore graph_task saved :
  extends (engine_restore r1 graph_task saved)
          (engine_restore r2 graph_task saved).
Proof.
  destruct saved; simpl; try apply extends_refl. apply extends_unpack_hook.
Qed.

End Deeper.

Lemma extends_checkpoint_impl (f1 f2 : list Value → M (list Value)) rfn args :
  (∀ a, extends (f1 a) (f2 a)) →
  extends (_checkpoint_impl f1 rfn args) (_checkpoint_impl f2 rfn args).
Proof.
  intros Hf. unfold _checkpoint_impl.
  apply extends_bind; [apply extends_refl|]. intros s.
  apply extends_bind; [apply extends_refl|]. intros entry. cbv zeta.
  apply extends_bind; [apply extends_refl|]. intros new_frame_id.
  apply extends_bind; [apply extends_refl|]. intros _.
  apply extends_bind; [apply extends_refl|]. intros frames.
  apply extends_bind; [apply extends_refl|]. intros args'.
  apply extends_bind; [apply extends_refl|]. intros _.
  apply extends_bind; [|intros ?; apply extends_refl].
  apply extends_with_hook, Hf.
Qed.

Lemma extends_run (r1 r2 : Prog → M (list Value)) :
  (∀ p, extends (r1 p) (r2 p)) → ∀ p, extends (run r1 p) (run r2 p).
Proof.
  intros Hr p. induction p as [out|x k IH|g saved k IH|h k IH|fn IHfn rfn _ args k IH]; simpl.
  - apply extends_refl.
  - apply extends_bind; [apply extends_refl|]. intros packed. apply IH.
  - apply extends_bind; [by apply extends_engine_restore|]. intros x. apply IH.
  - apply extends_bind; [apply extends_refl|]. by intros _.
  - apply extends_bind; [|intros out; apply IH].
    by apply extends_checkpoint_impl.
Qed.

(** One more level of nesting changes no outcome reached within the bound. *)
Lemma exec_extends depth p : extends (exec depth p) (exec (S depth) p).
Proof.
  revert p. induction depth as [|d IH]; intros p.
  - intros s Ho. by simpl in Ho.
  - change (extends (run (exec d) p) (run (exec (S d)) p)).
    by apply extends_run.
Qed.

(** An outcome reached within [depth] is the outcome at every larger depth. *)
Lemma exec_deeper depth depth' p s :
  depth ≤ depth' → overflowed (exec depth p s) = false →
  exec depth' p s = exec depth p s.
Proof.
  induction 1 as [|d' Hle IH]; [done|]. intros Ho.
  rewrite <- (IH Ho). apply exec_extends. by rewrite (IH Ho).
Qed.

(** ** The stack entry of a recomputation *)

(** C4. The entry pushed for a recomputation is removed only on the path
    that catches the early-stop signal.  After [checkpoint(sin_cos, x)], a
    restore of what [cos] saved succeeds under either setting; with early
    stop enabled the stack of entries is as before the restore, and with
    early stop disabled (the module's default) the recompute entry is still
    on it. *)
Theorem recompute_stack_entry_left_behind :
  (∃ v s',
     _checkpoint_hook.unpack_hook (exec 1) 7 5 [1] (Sample.after_forward true)
     = Ok v s' ∧
     _checkpoint_stacks s' = _checkpoint_stacks (Sample.after_forward true)) ∧
  (∃ v s',
     _checkpoint_hook.unpack_hook (exec 1) 7 5 [1] (Sample.after_forward false)
     = Ok v s' ∧
     _checkpoint_stacks (Sample.after_forward false)
     = [ {| stack := 0; is_recompute := false |} ] ∧
     _checkpoint_stacks s'
     = [ {| stack := 0; is_recompute := false |};
         {| stack := 6; is_recompute := true |} ]).
Proof.
  split.
  - eexists _, _. split; [vm_compute; reflexivity|]. vm_compute. reflexivity.
  - eexists _, _. split; [vm_compute; reflexivity|].
    split; vm_compute; reflexivity.
Qed.

(** ** Early stop on and off *)

(** C3. A region whose body asks for a gradient before its last save
    ([y = x.sin(); z = y.cos(); torch.autograd.grad(z, x); w = x.sin()]):
    with early stop enabled the restore inside the body returns the
    recomputed value and the region completes; with early stop disabled the
    same restore raises, because the replay goes on past the positions the
    frame has recorded so far. *)
Theorem early_stop_changes_restore :
  (∃ s, exec 2 (Checkpoint Sample.grad_inside Sample.grad_inside
                  [VTensor Sample.x] Ret)
          (initial_state true Sample.entropy)
        = Ok [VTensor (detach Sample.y)] s) ∧
  (∃ s, exec 2 (Checkpoint Sample.grad_inside Sample.grad_inside
                  [VTensor Sample.x] Ret)
          (initial_state false Sample.entropy)
        = Raise IndexError s).
Proof. split; eexists; vm_compute; reflexivity. Qed.

(* ===================================================================== *)
(** * The reentrant implementation and the entry points *)
(* ===================================================================== *)

(* ===================================================================== *)
(** ** [detach_variable], [check_backward_validity] *)
(* ===================================================================== *)

Lemma detach_loop items acc :
  fold_left (fun out inp => out ++ [detach_input inp]) items acc
  = acc ++ (detach_input <$> items).
Proof.
  revert acc. induction items as [|inp items IH]; intros acc; simpl.
  - by rewrite app_nil_r.
  - rewrite IH. by rewrite <- app_assoc.
Qed.

Lemma detach_variable_tuple items :
  detach_variable (a_tuple items) = Returns (detach_input <$> items).
Proof. unfold detach_variable. by rewrite detach_loop. Qed.

Lemma detach_input_idem inp : detach_input (detach_input inp) = detach_input inp.
Proof. by destruct inp. Qed.

Lemma value_requires_grad_detach_input inp :
  value_requires_grad (detach_input inp) = value_requires_grad inp.
Proof. by destruct inp. Qed.

(** X1. [detach_variable] on a tuple returns as many items as it was given:
    a non-tensor is passed on unchanged, a tensor is replaced by one that
    has the same data and dtype, the [requires_grad] of the original and no
    [grad_fn].  On anything that is not a tuple it raises [RuntimeError].
    Applied to its own result it returns that result again. *)
Theorem detach_variable_spec :
  (∀ items, ∃ out,
     detach_variable (a_tuple items) = Returns out ∧
     length out = length items ∧
     ∀ i inp, items !! i = Some inp →
       match inp with
       | VOther _ => out !! i = Some inp
       | VTensor t =>
           ∃ x, out !! i = Some (VTensor x) ∧
                data x = data t ∧ dtype x = dtype t ∧
                requires_grad x = requires_grad t ∧ grad_fn x = None
       end) ∧
  (∀ type_name, ∃ args,
     detach_variable (not_a_tuple type_name)
     = Raises (builtins.RuntimeError args)) ∧
  (∀ items out,
     detach_variable (a_tuple items) = Returns out →
     detach_variable (a_tuple out) = Returns out).
Proof.
  split; [|split].
  - intros items. exists (detach_input <$> items).
    split; [apply detach_variable_tuple|]. split; [by rewrite length_fmap|].
    intros i inp Hi. rewrite list_lookup_fmap, Hi. destruct inp as [t|o]; simpl; [|done].
    eexists. split; [done|]. done.
  - intros type_name. eexists. reflexivity.
  - intros items out. rewrite !detach_variable_tuple. intros [= <-]. f_equal.
    rewrite <- list_fmap_compose. apply list_fmap_ext. intros i x _.
    apply detach_input_idem.
Qed.

Lemma existsb_tensors_of l :
  existsb requires_grad (tensors_of l) = existsb value_requires_grad l.
Proof.
  induction l as [|[t|o] l IH]; simpl; [done| |done].
  unfold tensors_of in *. simpl. by rewrite IH.
Qed.

Lemma existsb_detach_input l :
  existsb value_requires_grad (detach_input <$> l) = existsb value_requires_grad l.
Proof.
  induction l as [|v l IH]; csimpl; [done|].
  by rewrite value_requires_grad_detach_input, IH.
Qed.

(** X2. [check_backward_validity] issues no warning exactly when some tensor
    among the inputs requires grad, and otherwise exactly one; non-tensors
    are not looked at.  What [detach_variable] returns for the inputs is
    warned about exactly when the inputs are. *)
Theorem check_backward_validity_spec inputs :
  (check_backward_validity inputs = []
   ↔ ∃ t, VTensor t ∈ inputs ∧ requires_grad t = true) ∧
  (check_backward_validity inputs ≠ [] →
   ∃ message, check_backward_validity inputs = [message]) ∧
  (∀ out, detach_variable (a_tuple inputs) = Returns out →
          check_backward_validity out = check_backward_validity inputs).
Proof.
  unfold check_backward_validity. rewrite existsb_tensors_of.
  split; [|split].
  - destruct (existsb value_requires_grad inputs) eqn:E; simpl.
    + split; [intros _|done].
      apply existsb_exists in E as (v & Hin & Hv).
      destruct v as [t|o]; [|done]. exists t. split; [|done].
      by apply list_elem_of_In.
    + split; [done|]. intros (t & Hin & Ht).
      assert (existsb value_requires_grad inputs = true) as E'; [|congruence].
      apply existsb_exists. exists (VTensor t). split; [|done].
      by apply list_elem_of_In.
  - destruct (existsb value_requires_grad inputs); simpl; [done|]. eauto.
  - intros out. rewrite detach_variable_tuple. intros [= <-].
    by rewrite existsb_tensors_of, existsb_detach_input.
Qed.

(* ===================================================================== *)
(** ** [CheckpointFunction]: what [forward] records and [backward] rebuilds *)
(* ===================================================================== *)

Lemma forward_inputs_snoc args a :
  CheckpointFunction.forward_inputs (args ++ [a])
  = CheckpointFunction.forward_step (CheckpointFunction.forward_inputs args)
      (length args) a.
Proof.
  unfold CheckpointFunction.forward_inputs.
  rewrite imap_app, fold_left_app. simpl. by rewrite Nat.add_0_r.
Qed.

Lemma tensors_of_snoc args a :
  tensors_of (args ++ [a])
  = tensors_of args ++ match a with VTensor t => [t] | VOther _ => [] end.
Proof. unfold tensors_of. rewrite omap_app. by destruct a. Qed.

Lemma forward_inputs_fields args :
  CheckpointFunction.inputs (CheckpointFunction.forward_inputs args)
  = (fun a => match a with VTensor _ => py_None | VOther _ => a end) <$> args ∧
  CheckpointFunction.tensor_inputs (CheckpointFunction.forward_inputs args)
  = tensors_of args ∧
  length (CheckpointFunction.tensor_indices (CheckpointFunction.forward_inputs args))
  = length (tensors_of args).
Proof.
  induction args as [|a args (IH1 & IH2 & IH3)] using rev_ind; [done|].
  rewrite forward_inputs_snoc, tensors_of_snoc, fmap_app.
  destruct a as [t|o]; simpl; rewrite ?IH1, ?IH2, ?length_app, ?IH3; simpl.
  - done.
  - by rewrite app_nil_r, Nat.add_0_r.
Qed.

Lemma backward_inputs_snoc ctx_inputs tensor_indices idx tensors :
  CheckpointFunction.backward_inputs ctx_inputs (tensor_indices ++ [idx]) tensors
  = match CheckpointFunction.backward_inputs ctx_inputs tensor_indices tensors with
    | Returns inputs =>
        CheckpointFunction.backward_step tensors inputs (length tensor_indices) idx
    | Raises e => Raises e
    end.
Proof.
  unfold CheckpointFunction.backward_inputs.
  rewrite imap_app, fold_left_app. simpl. by rewrite Nat.add_0_r.
Qed.

Lemma backward_inputs_ext ctx_inputs tensor_indices tensors filled more later :
  CheckpointFunction.backward_inputs ctx_inputs tensor_indices tensors
  = Returns filled →
  CheckpointFunction.backward_inputs (ctx_inputs ++ more) tensor_indices
    (tensors ++ later)
  = Returns (filled ++ more).
Proof.
  revert filled.
  induction tensor_indices as [|idx tensor_indices IH] using rev_ind;
    intros filled.
  - by intros [= <-].
  - rewrite !backward_inputs_snoc.
    destruct (CheckpointFunction.backward_inputs ctx_inputs tensor_indices tensors)
      as [inputs|e]; [|done].
    rewrite (IH inputs eq_refl).
    unfold CheckpointFunction.backward_step.
    destruct (tensors !! length tensor_indices) as [t|] eqn:Et; [|done].
    rewrite (lookup_app_l_Some _ _ _ _ Et).
    case_decide as Hlt; [|done]. intros [= <-].
    rewrite decide_True by (rewrite length_app; lia).
    by rewrite insert_app_l.
Qed.

Lemma backward_inputs_forward_inputs args :
  CheckpointFunction.backward_inputs
    (CheckpointFunction.inputs (CheckpointFunction.forward_inputs args))
    (CheckpointFunction.tensor_indices (CheckpointFunction.forward_inputs args))
    (CheckpointFunction.tensor_inputs (CheckpointFunction.forward_inputs args))
  = Returns args.
Proof.
  induction args as [|a args IH] using rev_ind; [done|].
  pose proof (forward_inputs_fields args) as (HI & HT & Hlen).
  rewrite forward_inputs_snoc. destruct a as [t|o]; simpl.
  - rewrite backward_inputs_snoc.
    rewrite (backward_inputs_ext _ _ _ _ [py_None] [t] IH).
    unfold CheckpointFunction.backward_step.
    rewrite Hlen, <- HT.
    rewrite lookup_app_r by done. rewrite Nat.sub_diag. simpl.
    rewrite decide_True by (rewrite length_app; simpl; lia).
    rewrite insert_app_r_alt by done. by rewrite Nat.sub_diag.
  - rewrite <- (app_nil_r (CheckpointFunction.tensor_inputs _)).
    by apply backward_inputs_ext.
Qed.

(** X3. The loop of [CheckpointFunction.forward] keeps no tensor on [ctx]:
    [ctx.inputs] has [None] where an argument is a tensor and the argument
    itself elsewhere; the tensors handed to [save_for_backward] are the
    tensor arguments in order; [ctx.tensor_indices] lists exactly the
    positions of the tensor arguments, in increasing order. *)
Theorem forward_keeps_no_tensor_on_ctx args :
  let ctx := CheckpointFunction.forward_inputs args in
  (∀ i, CheckpointFunction.inputs ctx !! i
        = match args !! i with
          | Some (VTensor _) => Some py_None
          | other => other
          end) ∧
  CheckpointFunction.tensor_inputs ctx = tensors_of args ∧
  (∀ i, i ∈ CheckpointFunction.tensor_indices ctx
        ↔ ∃ t, args !! i = Some (VTensor t)) ∧
  (∀ j1 j2 i1 i2, j1 < j2 →
     CheckpointFunction.tensor_indices ctx !! j1 = Some i1 →
     CheckpointFunction.tensor_indices ctx !! j2 = Some i2 → i1 < i2).
Proof.
  cbv zeta.
  pose proof (forward_inputs_fields args) as (HI & HT & _).
  split; [|split; [done|]].
  { intros i. rewrite HI, list_lookup_fmap.
    by destruct (args !! i) as [[t|o]|]. }
  clear HI HT.
  induction args as [|a args [IHm IHs]] using rev_ind.
  { split; [|by intros ? ? ? ? _ ?]. intros i.
    split; [by intros ?%elem_of_nil|]. by intros [t ?]. }
  rewrite forward_inputs_snoc.
  assert (Hbound : Forall (fun i => i < length args)
            (CheckpointFunction.tensor_indices
               (CheckpointFunction.forward_inputs args))).
  { apply Forall_forall. intros i Hi. apply IHm in Hi as [t Ht].
    by apply lookup_lt_Some in Ht. }
  destruct a as [t|o]; simpl.
  - split.
    + intros i. rewrite elem_of_app, list_elem_of_singleton, IHm. split.
      * intros [[t' Ht']| ->].
        -- exists t'. by apply lookup_app_l_Some.
        -- exists t. by rewrite lookup_app_r, Nat.sub_diag.
      * intros [t' Ht']. destruct (decide (i < length args)) as [Hlt|Hge].
        -- left. exists t'. by rewrite lookup_app_l in Ht'.
        -- right. apply lookup_lt_Some in Ht'. rewrite length_app in Ht'.
           simpl in Ht'. lia.
    + intros j1 j2 i1 i2 Hj H1 H2.
      assert (Hl2 := lookup_lt_Some _ _ _ H2).
      rewrite length_app in Hl2. simpl in Hl2.
      rewrite lookup_app_l in H1 by lia.
      destruct (decide (j2 < length (CheckpointFunction.tensor_indices
                                       (CheckpointFunction.forward_inputs args))))
        as [Hlt|Hge].
      * rewrite lookup_app_l in H2 by done. exact (IHs _ _ _ _ Hj H1 H2).
      * rewrite lookup_app_r in H2 by lia.
        destruct (j2 - _) eqn:E; simpl in H2; [|by rewrite lookup_nil in H2].
        injection H2 as <-.
        exact (Forall_lookup_1 _ _ _ _ Hbound H1).
  - split; [|done]. intros i. rewrite IHm. split.
    + intros [t' Ht']. exists t'. by apply lookup_app_l_Some.
    + intros [t' Ht']. exists t'.
      destruct (decide (i < length args)) as [Hlt|Hge].
      * by rewrite lookup_app_l in Ht'.
      * rewrite lookup_app_r in Ht' by lia.
        destruct (i - length args); simpl in Ht'; [by inversion Ht'|].
        by rewrite lookup_nil in Ht'.
Qed.

(** X4. Round trip of the arguments: the loop of [CheckpointFunction.backward]
    that fills the saved tensors into a copy of [ctx.inputs], run on what
    the loop of [forward] recorded, raises no [IndexError] and gives back
    the arguments [forward] was called with. *)
Theorem backward_rebuilds_forward_arguments args :
  let ctx := CheckpointFunction.forward_inputs args in
  CheckpointFunction.backward_inputs (CheckpointFunction.inputs ctx)
    (CheckpointFunction.tensor_indices ctx)
    (CheckpointFunction.tensor_inputs ctx)
  = Returns args.
Proof. apply backward_inputs_forward_inputs. Qed.

Lemma select_loop {G} (outputs : list Value) (args : list G) n :
  n ≤ length outputs → length outputs ≤ length args →
  fold_left
    (fun acc i =>
       match acc with
       | Returns acc => CheckpointFunction.select_step outputs args acc i
       | Raises e => Raises e
       end)
    (seq 0 n) (Returns ([], []))
  = Returns
      (tensors_of (filter (fun og => value_requires_grad og.1 = true)
                     (zip (take n outputs) (take n args))).*1,
       (filter (fun og => value_requires_grad og.1 = true)
          (zip (take n outputs) (take n args))).*2).
Proof.
  intros Hn Hlen. induction n as [|n IH]; [done|].
  rewrite seq_S, fold_left_app, IH by lia. simpl.
  destruct (lookup_lt_is_Some_2 outputs n) as [o Ho]; [lia|].
  destruct (lookup_lt_is_Some_2 args n) as [g Hg]; [lia|].
  rewrite (take_S_r _ _ _ Ho), (take_S_r _ _ _ Hg).
  rewrite zip_with_app by (rewrite !length_take; lia).
  rewrite filter_app, !fmap_app. unfold tensors_of at 2. rewrite omap_app.
  fold (tensors_of
          (filter (fun og : Value * G => value_requires_grad og.1 = true)
             (zip (take n outputs) (take n args))).*1).
  unfold CheckpointFunction.select_step. rewrite Ho, Hg.
  cbn [zip_with]. rewrite filter_cons, filter_nil.
  destruct o as [t|c]; cbn [fst value_requires_grad].
  - destruct (requires_grad t) eqn:Et.
    + rewrite decide_True by done. done.
    + rewrite decide_False by done. cbn. by rewrite !app_nil_r.
  - rewrite decide_False by done. cbn. by rewrite !app_nil_r.
Qed.

(** X5. With a gradient for every output, [backward] differentiates exactly
    the outputs that are tensors requiring grad, each paired with the
    gradient at its position, in order; a single tensor counts as a tuple of
    one.  When no output is such a tensor it raises [RuntimeError]. *)
Theorem outputs_with_grad_spec {G} (outputs : CheckpointFunction.Outputs)
    (args : list G) :
  let items :=
    match outputs with
    | CheckpointFunction.one_tensor t => [VTensor t]
    | CheckpointFunction.several items => items
    end in
  let kept := filter (fun og => value_requires_grad og.1 = true) (zip items args) in
  length items ≤ length args →
  CheckpointFunction.outputs_with_grad outputs args
  = if decide (kept = []) then
      Raises (builtins.RuntimeError
                ["none of output has requires_grad=True, this checkpoint() is not necessary"])
    else Returns (tensors_of kept.*1, kept.*2).
Proof.
  intros items kept Hlen. unfold CheckpointFunction.outputs_with_grad.
  fold items. rewrite select_loop by done.
  rewrite firstn_all, zip_with_take_r by done. fold kept.
  assert (Hk : length (tensors_of kept.*1) = length kept).
  { subst kept. clear. unfold tensors_of.
    induction (zip items args) as [|[o g] l IH]; [done|].
    rewrite filter_cons. case_decide as Hd; [|done].
    destruct o as [t|c]; [|done]. csimpl. by rewrite IH. }
  destruct kept as [|k kept'] eqn:E.
  - done.
  - rewrite decide_False by (rewrite Hk; done).
    by rewrite decide_False.
Qed.

Lemma outputs_with_grad_spec_witness :
  CheckpointFunction.outputs_with_grad
    (CheckpointFunction.several [VTensor Sample.plain; VTensor Sample.y; VOther 5])
    [1; 2; 3]
  = Returns ([Sample.y], [2]).
Proof.
  apply (outputs_with_grad_spec
           (CheckpointFunction.several
              [VTensor Sample.plain; VTensor Sample.y; VOther 5]) [1; 2; 3]).
  simpl. lia.
Defined.

(** X6. What [CheckpointFunction.backward] returns after a [forward] on
    [args]: [None] twice (for [run_function] and [preserve_rng_state]), then
    one entry per argument of [forward], in order: the gradient of the
    detached input for a tensor, [None] for a non-tensor. *)
Theorem backward_returns_one_slot_per_argument args grad :
  let ctx := CheckpointFunction.forward_inputs args in
  ∃ filled detached,
    CheckpointFunction.backward_inputs (CheckpointFunction.inputs ctx)
      (CheckpointFunction.tensor_indices ctx)
      (CheckpointFunction.tensor_inputs ctx)
    = Returns filled ∧
    detach_variable (a_tuple filled) = Returns detached ∧
    let returned := CheckpointFunction.backward_result detached grad in
    length returned = 2 + length args ∧
    returned !! 0 = Some py_None ∧ returned !! 1 = Some py_None ∧
    ∀ i a, args !! i = Some a →
      returned !! (2 + i)
      = Some match a with VTensor _ => grad i | VOther _ => py_None end.
Proof.
  intros ctx. exists args, (detach_input <$> args).
  split; [apply backward_inputs_forward_inputs|].
  split; [apply detach_variable_tuple|].
  unfold CheckpointFunction.backward_result. cbv zeta.
  split; [|split; [done|split; [done|]]].
  - simpl. by rewrite length_imap, length_fmap.
  - intros i a Ha. simpl. rewrite list_lookup_imap, list_lookup_fmap, Ha.
    by destruct a.
Qed.

(* ===================================================================== *)
(** ** [checkpoint] and [checkpoint_sequential] *)
(* ===================================================================== *)

Lemma chain_app {X} (fs gs : list (X → result X)) x :
  chain (fs ++ gs) x
  = match chain fs x with Returns x' => chain gs x' | Raises e => Raises e end.
Proof.
  revert x. induction fs as [|f fs IH]; intros x; simpl; [done|].
  destruct (f x); [apply IH|done].
Qed.

Lemma for_in_ext {S} js (body1 body2 : Z → S → result S) x :
  (∀ j y, j ∈ js → body1 j y = body2 j y) →
  for_in js body1 x = for_in js body2 x.
Proof.
  revert x. induction js as [|j js IH]; intros x Hb; simpl; [done|].
  rewrite Hb by left. destruct (body2 j x); [|done].
  apply IH. intros j' y Hj'. apply Hb. by right.
Qed.

Lemma py_getitem_nat {A} (l : list A) (j : Z) :
  (0 ≤ j)%Z → py_getitem l j = l !! Z.to_nat j.
Proof.
  intros Hj. unfold py_getitem.
  destruct (Z.ltb_spec j 0); [lia|done].
Qed.

(** [run_function] over a range that lies within the list. *)
Lemma run_function_slice {X} (fs : list (X → result X)) (start n : nat) x :
  start + n ≤ length fs →
  run_function (Z.of_nat start) (Z.of_nat start + Z.of_nat n - 1) fs x
  = chain (take n (drop start fs)) x.
Proof.
  unfold run_function, py_range.
  replace (Z.of_nat start + Z.of_nat n - 1 + 1 - Z.of_nat start)%Z
    with (Z.of_nat n) by lia.
  revert start x. induction n as [|n IH]; intros start x Hlen; [done|].
  rewrite seqZ_cons by lia. cbn [for_in].
  rewrite py_getitem_nat by lia. rewrite Nat2Z.id.
  destruct (lookup_lt_is_Some_2 fs start) as [f Hf]; [lia|].
  rewrite Hf. rewrite (drop_S _ _ _ Hf). cbn [take chain].
  destruct (f x) as [x'|e]; [|done].
  replace (Z.succ (Z.of_nat start)) with (Z.of_nat (S start)) by lia.
  replace (Z.pred (Z.of_nat (S n))) with (Z.of_nat n) by lia.
  by apply IH; lia.
Qed.

Lemma run_function_empty {X} (fs : list (X → result X)) (start end_ : Z) x :
  (end_ < start)%Z → run_function start end_ fs x = Returns x.
Proof.
  intros H. unfold run_function, py_range.
  replace (seqZ start (end_ + 1 - start)) with (@nil Z); [done|].
  unfold seqZ. by replace (Z.to_nat (end_ + 1 - start)) with 0 by lia.
Qed.

(** The starts of the checkpointed segments. *)
Lemma segment_starts (size segments : Z) :
  (0 < size)%Z → (1 ≤ segments)%Z →
  py_range_step 0 (size * (segments - 1)) size
  = Some ((fun k => (size * Z.of_nat k)%Z) <$> seq 0 (Z.to_nat (segments - 1))).
Proof.
  intros Hs Hseg. unfold py_range_step.
  rewrite decide_False by lia.
  destruct (Z.ltb_spec 0 size); [|lia].
  assert (((size * (segments - 1) - 0 + size - 1) / size)%Z = (segments - 1)%Z)
    as ->.
  { symmetry. apply (Z.div_unique _ _ _ (size - 1)); lia. }
  reflexivity.
Qed.

Lemma segment_starts_negative (size segments : Z) :
  (size < 0)%Z → (segments < 0)%Z →
  py_range_step 0 (size * (segments - 1)) size = Some [].
Proof.
  intros Hs Hseg. unfold py_range_step.
  rewrite decide_False by lia.
  destruct (Z.ltb_spec 0 size); [lia|].
  assert ((0 - size * (segments - 1) - size - 1) / - size < 0)%Z as Hneg.
  { apply Z.div_lt_upper_bound; nia. }
  by replace (Z.to_nat _) with 0 by lia.
Qed.

Lemma filter_all {A} (P : A → Prop) `{∀ x, Decision (P x)} (l : list A) :
  Forall P l → filter P l = l.
Proof.
  induction 1 as [|x l Hx _ IH]; [done|].
  by rewrite filter_cons_True, IH.
Qed.

Lemma dict_pop_rest {A} k (default_ : A) d :
  (dict_pop k default_ d).2 = filter (fun kv => kv.1 ≠ k) d.
Proof.
  unfold dict_pop. destruct (list_find _ d) as [[i kv]|] eqn:E; [done|].
  simpl. symmetry. apply filter_all. by apply list_find_None in E.
Qed.

Lemma dict_pop_found {A} k (default_ v : A) d :
  NoDup d.*1 → (k, v) ∈ d → (dict_pop k default_ d).1 = v.
Proof.
  intros Hnd Hin. unfold dict_pop.
  destruct (list_find _ d) as [[i kv]|] eqn:E.
  - simpl. apply list_find_Some in E as (Hi & Hk & _).
    apply list_elem_of_lookup in Hin as [j Hj].
    assert (i = j) as ->.
    { eapply NoDup_lookup; [exact Hnd| |].
      - by rewrite list_lookup_fmap, Hi.
      - rewrite list_lookup_fmap, Hj. simpl. by rewrite Hk. }
    rewrite Hi in Hj. by injection Hj as ->.
  - apply list_find_None in E.
    rewrite Forall_forall in E. by destruct (E _ Hin).
Qed.

Lemma dict_pop_missing {A} k (default_ : A) d :
  k ∉ d.*1 → dict_pop k default_ d = (default_, d).
Proof.
  intros Hk. unfold dict_pop.
  destruct (list_find _ d) as [[i kv]|] eqn:E; [|done].
  apply list_find_Some in E as (Hi & Hkv & _). destruct Hk.
  apply list_elem_of_fmap. exists kv. split; [done|].
  by eapply list_elem_of_lookup_2.
Qed.

(** X7. [checkpoint] takes [preserve_rng_state] out of the keywords ([True]
    when it is not given).  With [use_reentrant] it raises [ValueError]
    naming the other keywords when there are any, and otherwise calls
    [CheckpointFunction.apply]; without, it calls
    [_checkpoint_without_reentrant] and passes the other keywords on. *)
Theorem checkpoint_dispatch {Fn Args V R : Type} (py_True : V)
    (CheckpointFunction_apply : Fn → V → Args → result R)
    (_checkpoint_without_reentrant : Fn → V → Args → list (string * V) → result R)
    function args use_reentrant kwargs :
  let others := filter (fun kv => kv.1 ≠ "preserve_rng_state") kwargs in
  NoDup kwargs.*1 →
  ∃ preserve,
    (∀ v, ("preserve_rng_state", v) ∈ kwargs → preserve = v) ∧
    ("preserve_rng_state" ∉ kwargs.*1 → preserve = py_True) ∧
    checkpoint py_True CheckpointFunction_apply _checkpoint_without_reentrant
      function args use_reentrant kwargs
    = if use_reentrant then
        if decide (others = []) then
          CheckpointFunction_apply function preserve args
        else
          Raises (builtins.ValueError
                    ("Unexpected keyword arguments: "
                     ++ String.concat "," others.*1))
      else _checkpoint_without_reentrant function preserve args others.
Proof.
  intros others Hnd.
  exists (dict_pop "preserve_rng_state" py_True kwargs).1.
  split; [|split].
  - intros v Hv. by apply dict_pop_found.
  - intros Hk. by rewrite dict_pop_missing.
  - unfold checkpoint.
    pose proof (dict_pop_rest "preserve_rng_state" py_True kwargs) as Hrest.
    destruct (dict_pop _ _ kwargs) as [preserve rest]. simpl in *.
    rewrite Hrest. fold others.
    destruct use_reentrant; [|by rewrite andb_false_r].
    rewrite andb_true_r. case_decide as Ho.
    + by rewrite bool_decide_eq_false_2 by (by rewrite Ho; intros []).
    + by rewrite bool_decide_eq_true_2.
Qed.

Lemma checkpoint_dispatch_witness :
  ∃ preserve : bool,
    preserve = false ∧
    checkpoint true
      (fun (function : nat) (preserve : bool) (args : list nat) =>
         Returns (function + length args))
      (fun function (preserve : bool) args kwargs =>
         if preserve then Raises builtins.IndexError
         else Returns (function + length args + length kwargs))
      10 [1; 2] false [("scale", true); ("preserve_rng_state", false)]
    = Returns 13.
Proof.
  destruct (checkpoint_dispatch true
              (fun (function : nat) (preserve : bool) (args : list nat) =>
                 Returns (function + length args))
              (fun function (preserve : bool) args kwargs =>
                 if preserve then Raises builtins.IndexError
                 else Returns (function + length args + length kwargs))
              10 [1; 2] false [("scale", true); ("preserve_rng_state", false)])
    as (preserve & Hgiven & _ & Hcall).
  - compute_done.
  - exists preserve.
    assert (preserve = false) as Hp by (apply Hgiven; compute_done).
    split; [done|]. rewrite Hcall, Hp. reflexivity.
Defined.

Section SequentialFacts.
Context {X V : Type}.
Variable py_True : V.
Variable cp : (X → result X) → X → bool → list (string * V) → result X.

Lemma segments_loop (fs : list (X → result X)) (size : Z) ur kw (n : nat) :
  ∀ (a : nat) x,
  for_in ((fun k => (size * Z.of_nat k)%Z) <$> seq a n)
    (fun start (st : Z * X) =>
       match cp (run_function start (start + size - 1) fs) st.2 ur kw with
       | Returns input => Returns ((start + size - 1)%Z, input)
       | Raises e => Raises e
       end)
    ((size * Z.of_nat a - 1)%Z, x)
  = match
      for_in (Z.of_nat <$> seq a n)
        (fun k x =>
           cp (run_function (size * k) (size * k + size - 1) fs) x ur kw) x
    with
    | Returns x' => Returns ((size * Z.of_nat (a + n) - 1)%Z, x')
    | Raises e => Raises e
    end.
Proof.
  induction n as [|n IH]; intros a x.
  - simpl. by rewrite Nat.add_0_r.
  - change (seq a (S n)) with (a :: seq (S a) n). rewrite !fmap_cons.
    cbn [for_in]. cbv beta. cbn [snd].
    destruct (cp _ x ur kw) as [x'|e]; [|done].
    replace (size * Z.of_nat a + size - 1)%Z with (size * Z.of_nat (S a) - 1)%Z
      by lia.
    rewrite (IH (S a) x').
    by replace (S a + n) with (a + S n) by lia.
Qed.

Lemma checkpoint_sequential_ext
    (cp' : (X → result X) → X → bool → list (string * V) → result X)
    functions segments x ur kwargs :
  (∀ f y preserve,
     cp f y ur [("preserve_rng_state", preserve)]
     = cp' f y ur [("preserve_rng_state", preserve)]) →
  checkpoint_sequential py_True cp functions segments x ur kwargs
  = checkpoint_sequential py_True cp' functions segments x ur kwargs.
Proof.
  intros Hcp. unfold checkpoint_sequential.
  destruct (dict_pop _ _ kwargs) as [preserve rest].
  destruct (bool_decide _); [done|].
  case_decide; [done|].
  destruct (py_range_step _ _ _) as [starts|]; [|done].
  erewrite for_in_ext; [reflexivity|].
  intros j y _. cbv zeta. by rewrite Hcp.
Qed.

Lemma checkpoint_sequential_positive functions segments x ur kwargs :
  let fs :=
    match functions with Sequential c => c | function_list l => l end in
  let size := (Z.of_nat (length fs) / segments)%Z in
  let preserve := (dict_pop "preserve_rng_state" py_True kwargs).1 in
  filter (fun kv => kv.1 ≠ "preserve_rng_state") kwargs = [] →
  (1 ≤ segments)%Z → (1 ≤ size)%Z →
  checkpoint_sequential py_True cp functions segments x ur kwargs
  = match
      for_in (Z.of_nat <$> seq 0 (Z.to_nat (segments - 1)))
        (fun k x =>
           cp (run_function (size * k) (size * k + size - 1) fs) x ur
             [("preserve_rng_state", preserve)])
        x
    with
    | Returns x' =>
        run_function (size * (segments - 1)) (Z.of_nat (length fs) - 1) fs x'
    | Raises e => Raises e
    end.
Proof.
  intros fs size preserve Hkw Hseg Hsize. unfold checkpoint_sequential.
  pose proof (dict_pop_rest "preserve_rng_state" py_True kwargs) as Hrest.
  subst preserve.
  destruct (dict_pop _ _ kwargs) as [preserve rest]. simpl in Hrest.
  rewrite Hrest, Hkw. rewrite bool_decide_eq_false_2 by (by intros []).
  fold fs. rewrite decide_False by lia. fold size.
  rewrite segment_starts by lia. cbv zeta.
  replace (-1)%Z with (size * Z.of_nat 0 - 1)%Z by lia.
  rewrite segments_loop. cbn [fst].
  destruct (for_in _ _ x) as [x'|e]; [|done].
  rewrite Nat.add_0_l, Z2Nat.id by lia.
  do 2 f_equal. lia.
Qed.

Lemma checkpoint_sequential_negative functions segments x ur kwargs :
  let fs :=
    match functions with Sequential c => c | function_list l => l end in
  filter (fun kv => kv.1 ≠ "preserve_rng_state") kwargs = [] →
  (segments < 0)%Z → fs ≠ [] →
  checkpoint_sequential py_True cp functions segments x ur kwargs = chain fs x.
Proof.
  intros fs Hkw Hseg Hfs. unfold checkpoint_sequential.
  pose proof (dict_pop_rest "preserve_rng_state" py_True kwargs) as Hrest.
  destruct (dict_pop _ _ kwargs) as [preserve rest]. simpl in Hrest.
  rewrite Hrest, Hkw. rewrite bool_decide_eq_false_2 by (by intros []).
  fold fs. rewrite decide_False by lia.
  assert (Z.of_nat (length fs) / segments < 0)%Z as Hsize.
  { rewrite <- Z.div_opp_opp by lia.
    apply Z.div_lt_upper_bound; [lia|].
    destruct fs; [done|]. simpl length. lia. }
  rewrite segment_starts_negative by lia. cbn [for_in].
  replace (Z.of_nat (length fs) - 1)%Z
    with (Z.of_nat 0 + Z.of_nat (length fs) - 1)%Z by lia.
  change (-1 + 1)%Z with (Z.of_nat 0).
  rewrite run_function_slice by (simpl; lia).
  by rewrite drop_0, firstn_all.
Qed.

Lemma segment_slice (fs : list (X → result X)) (size segments : Z) (k : nat) y :
  (1 ≤ size)%Z → (size * segments ≤ Z.of_nat (length fs))%Z →
  (Z.of_nat k < segments - 1)%Z →
  run_function (size * Z.of_nat k) (size * Z.of_nat k + size - 1) fs y
  = chain (take (Z.to_nat size) (drop (Z.to_nat size * k) fs)) y.
Proof.
  intros Hsize Hfit Hk.
  replace (size * Z.of_nat k)%Z with (Z.of_nat (Z.to_nat size * k)) by lia.
  replace (Z.of_nat (Z.to_nat size * k) + size - 1)%Z
    with (Z.of_nat (Z.to_nat size * k) + Z.of_nat (Z.to_nat size) - 1)%Z by lia.
  apply run_function_slice. nia.
Qed.

Lemma last_slice (fs : list (X → result X)) (size segments : Z) y :
  (1 ≤ size)%Z → (1 ≤ segments)%Z → (size * segments ≤ Z.of_nat (length fs))%Z →
  run_function (size * (segments - 1)) (Z.of_nat (length fs) - 1) fs y
  = chain (drop (Z.to_nat (size * (segments - 1))) fs) y.
Proof.
  intros Hsize Hseg Hfit.
  assert (Z.of_nat (Z.to_nat (size * (segments - 1))) = size * (segments - 1))%Z
    as Hstart by (rewrite Z2Nat.id; nia).
  revert Hstart. generalize (Z.to_nat (size * (segments - 1))) as start.
  intros start Hstart. rewrite <- Hstart.
  assert (start ≤ length fs) by nia.
  replace (Z.of_nat (length fs) - 1)%Z
    with (Z.of_nat start + Z.of_nat (length fs - start) - 1)%Z by lia.
  rewrite run_function_slice by lia.
  by rewrite take_ge by (rewrite length_drop; lia).
Qed.

Lemma chain_by_segments (fs : list (X → result X)) (sz n : nat) :
  ∀ a y,
  match
    for_in (Z.of_nat <$> seq a n)
      (fun k y => chain (take sz (drop (sz * Z.to_nat k) fs)) y) y
  with
  | Returns y' => chain (drop (sz * (a + n)) fs) y'
  | Raises e => Raises e
  end
  = chain (drop (sz * a) fs) y.
Proof.
  induction n as [|n IH]; intros a y.
  - simpl. by rewrite Nat.add_0_r.
  - change (seq a (S n)) with (a :: seq (S a) n). rewrite fmap_cons.
    cbn [for_in]. rewrite Nat2Z.id.
    rewrite <- (take_drop sz (drop (sz * a) fs)) at 2.
    rewrite chain_app.
    destruct (chain (take sz (drop (sz * a) fs)) y) as [y1|e]; [|done].
    rewrite drop_drop.
    replace (sz * (a + S n)) with (sz * (S a + n)) by lia.
    rewrite IH. do 2 f_equal. lia.
Qed.

(** X8. With [1 ≤ segments ≤ len(functions)] and no keyword but
    [preserve_rng_state], [checkpoint_sequential] calls [checkpoint]
    [segments - 1] times, in order, each time on the next
    [len(functions) // segments] functions, with [use_reentrant] as given and
    [preserve_rng_state] as given (or [True]); what is left, at least that
    many functions and so never none, is run without [checkpoint]. *)
Theorem checkpoint_sequential_segments functions segments x ur kwargs :
  let fs :=
    match functions with Sequential c => c | function_list l => l end in
  let size := (Z.of_nat (length fs) / segments)%Z in
  let preserve := (dict_pop "preserve_rng_state" py_True kwargs).1 in
  filter (fun kv => kv.1 ≠ "preserve_rng_state") kwargs = [] →
  (1 ≤ segments ≤ Z.of_nat (length fs))%Z →
  checkpoint_sequential py_True cp functions segments x ur kwargs
  = match
      for_in (Z.of_nat <$> seq 0 (Z.to_nat (segments - 1)))
        (fun k x =>
           cp (run_function (size * k) (size * k + size - 1) fs) x ur
             [("preserve_rng_state", preserve)])
        x
    with
    | Returns x' =>
        run_function (size * (segments - 1)) (Z.of_nat (length fs) - 1) fs x'
    | Raises e => Raises e
    end ∧
  (∀ (k : nat) y, (Z.of_nat k < segments - 1)%Z →
     run_function (size * Z.of_nat k) (size * Z.of_nat k + size - 1) fs y
     = chain (take (Z.to_nat size) (drop (Z.to_nat size * k) fs)) y) ∧
  (∀ y,
     run_function (size * (segments - 1)) (Z.of_nat (length fs) - 1) fs y
     = chain (drop (Z.to_nat size * Z.to_nat (segments - 1)) fs) y) ∧
  1 ≤ Z.to_nat size ≤ length (drop (Z.to_nat size * Z.to_nat (segments - 1)) fs).
Proof.
  intros fs size preserve Hkw [Hseg Hlen].
  assert (1 ≤ size)%Z as Hsize.
  { subst size. apply Z.div_le_lower_bound; lia. }
  assert (size * segments ≤ Z.of_nat (length fs))%Z as Hfit.
  { subst size. rewrite Z.mul_comm. apply Z.mul_div_le. lia. }
  split; [by apply checkpoint_sequential_positive|].
  split; [intros k y Hk; by apply (segment_slice fs size segments)|].
  split.
  - intros y. rewrite (last_slice fs size segments) by done.
    by rewrite Z2Nat.inj_mul by lia.
  - rewrite length_drop, <- Z2Nat.inj_mul by lia.
    split; [lia|]. nia.
Qed.

(** X9. If [checkpoint] returns what the function it is handed returns, then
    [checkpoint_sequential] returns what running the functions one after the
    other returns (or raises what the first failing one raises), whichever
    way they are cut into segments: for every [segments] other than zero
    for which [len(functions) // segments] is not zero. *)
Theorem checkpoint_sequential_is_chain functions segments x ur kwargs :
  let fs :=
    match functions with Sequential c => c | function_list l => l end in
  (∀ f y ur' kwargs', cp f y ur' kwargs' = f y) →
  filter (fun kv => kv.1 ≠ "preserve_rng_state") kwargs = [] →
  segments ≠ 0%Z → (Z.of_nat (length fs) / segments)%Z ≠ 0%Z →
  checkpoint_sequential py_True cp functions segments x ur kwargs = chain fs x.
Proof.
  intros fs Hcp Hkw Hseg Hsize.
  destruct (Z.lt_trichotomy segments 0) as [Hneg|[?|Hpos]]; [|done|].
  - apply checkpoint_sequential_negative; [done..|].
    intros Hnil. apply Hsize. unfold fs in *. rewrite Hnil. by destruct segments.
  - set (size := (Z.of_nat (length fs) / segments)%Z) in *.
    assert (0 ≤ size)%Z by (apply Z.div_pos; lia).
    assert (size * segments ≤ Z.of_nat (length fs))%Z as Hfit.
    { subst size. rewrite Z.mul_comm. apply Z.mul_div_le. lia. }
    rewrite checkpoint_sequential_positive by (done || fold fs; lia).
    fold fs. fold size.
    rewrite (for_in_ext _ _
               (fun k y =>
                  chain (take (Z.to_nat size)
                           (drop (Z.to_nat size * Z.to_nat k) fs)) y)).
    2:{ intros j y Hj. apply list_elem_of_fmap in Hj as (k & -> & Hk).
        apply elem_of_seq in Hk. rewrite Hcp.
        rewrite (segment_slice fs size segments) by lia.
        by rewrite Nat2Z.id. }
    pose proof (chain_by_segments fs (Z.to_nat size) (Z.to_nat (segments - 1)) 0 x)
      as Hall.
    rewrite Nat.mul_0_r, drop_0, Nat.add_0_l in Hall. rewrite <- Hall.
    destruct (for_in _ _ x) as [x'|e]; [|done].
    rewrite (last_slice fs size segments) by lia.
    by rewrite Z2Nat.inj_mul by lia.
Qed.

(** X10. What [checkpoint_sequential] rejects before running anything: a
    keyword other than [preserve_rng_state] ([ValueError] naming the
    keywords), [segments = 0] ([ZeroDivisionError]), and more segments than
    functions, or no function at all ([ValueError] of [range], whose step
    [len(functions) // segments] is zero). *)
Theorem checkpoint_sequential_rejects functions segments x ur kwargs :
  let fs :=
    match functions with Sequential c => c | function_list l => l end in
  let others := filter (fun kv => kv.1 ≠ "preserve_rng_state") kwargs in
  (others ≠ [] →
   checkpoint_sequential py_True cp functions segments x ur kwargs
   = Raises (builtins.ValueError
               ("Unexpected keyword arguments: " ++ String.concat "," others.*1))) ∧
  (others = [] → segments = 0%Z →
   checkpoint_sequential py_True cp functions segments x ur kwargs
   = Raises builtins.ZeroDivisionError) ∧
  (others = [] →
   (Z.of_nat (length fs) < segments)%Z ∨ (fs = [] ∧ segments ≠ 0%Z) →
   checkpoint_sequential py_True cp functions segments x ur kwargs
   = Raises (builtins.ValueError "range() arg 3 must not be zero")).
Proof.
  intros fs others. unfold checkpoint_sequential.
  pose proof (dict_pop_rest "preserve_rng_state" py_True kwargs) as Hrest.
  destruct (dict_pop _ _ kwargs) as [preserve rest]. simpl in Hrest.
  rewrite Hrest. fold others. fold fs.
  split; [|split].
  - intros Hne. by rewrite bool_decide_eq_true_2.
  - intros -> ->. by rewrite bool_decide_eq_false_2 by (by intros []).
  - intros -> Hsmall. rewrite bool_decide_eq_false_2 by (by intros []).
    assert (segments ≠ 0%Z ∧ (Z.of_nat (length fs) / segments = 0)%Z)
      as [Hseg ->].
    { destruct Hsmall as [Hlt|[Hnil Hseg]].
      - split; [lia|]. apply Z.div_small. lia.
      - split; [done|]. unfold fs in *. rewrite Hnil. by destruct segments. }
    by rewrite decide_False.
Qed.

(** X11. With [segments = 1], or with a negative [segments], and at least one
    function, [checkpoint_sequential] never calls [checkpoint]: whatever
    [checkpoint] does, the result is that of running the functions one after
    the other. *)
Theorem checkpoint_sequential_without_checkpoint functions segments x ur kwargs :
  let fs :=
    match functions with Sequential c => c | function_list l => l end in
  filter (fun kv => kv.1 ≠ "preserve_rng_state") kwargs = [] →
  segments = 1%Z ∨ (segments < 0)%Z → fs ≠ [] →
  checkpoint_sequential py_True cp functions segments x ur kwargs = chain fs x.
Proof.
  intros fs Hkw [->|Hneg] Hfs.
  - assert (1 ≤ Z.of_nat (length fs))%Z as Hlen.
    { unfold fs in *. destruct (match functions with Sequential c => c
                                 | function_list l => l end); [done|].
      simpl length. lia. }
    rewrite checkpoint_sequential_positive; [|done|lia|].
    2:{ fold fs. rewrite Z.div_1_r. lia. }
    fold fs. change (Z.to_nat (1 - 1)) with 0.
    cbn [seq fmap list_fmap for_in]. rewrite Z.div_1_r.
    rewrite (last_slice fs _ 1) by lia.
    by rewrite Z.mul_0_r.
  - by apply checkpoint_sequential_negative.
Qed.

End SequentialFacts.

(** A chain that logs which function ran, and a [checkpoint] that marks
    where it was called. *)
Lemma checkpoint_sequential_segments_witness :
  checkpoint_sequential true
    (fun f (x : list nat) (_ : bool) (_ : list (string * bool)) =>
       match f x with Returns l => Returns (l ++ [100]) | Raises e => Raises e end)
    (function_list
       ((fun k (l : list nat) => Returns (l ++ [k])) <$> [0; 1; 2; 3; 4]))
    2 [] true []
  = Returns [0; 1; 100; 2; 3; 4].
Proof.
  destruct (checkpoint_sequential_segments true
              (fun f (x : list nat) (_ : bool) (_ : list (string * bool)) =>
                 match f x with
                 | Returns l => Returns (l ++ [100])
                 | Raises e => Raises e
                 end)
              (function_list
                 ((fun k (l : list nat) => Returns (l ++ [k])) <$> [0; 1; 2; 3; 4]))
              2 [] true []) as (Hcalls & _).
  - reflexivity.
  - simpl. lia.
  - rewrite Hcalls. reflexivity.
Defined.

Lemma checkpoint_sequential_is_chain_witness :
  checkpoint_sequential true
    (fun f (x : list nat) (_ : bool) (_ : list (string * bool)) => f x)
    (Sequential
       ((fun k (l : list nat) => Returns (l ++ [k])) <$> [0; 1; 2; 3; 4]))
    3 [] false [("preserve_rng_state", false)]
  = Returns [0; 1; 2; 3; 4].
Proof.
  rewrite (checkpoint_sequential_is_chain true
           (fun f (x : list nat) (_ : bool) (_ : list (string * bool)) => f x)
           (Sequential
              ((fun k (l : list nat) => Returns (l ++ [k])) <$> [0; 1; 2; 3; 4]))
           3 [] false [("preserve_rng_state", false)]).
  - reflexivity.
  - done.
  - reflexivity.
  - lia.
  - vm_compute. discriminate.
Defined.

Lemma checkpoint_sequential_without_checkpoint_witness :
  checkpoint_sequential true
    (fun f (x : list nat) (_ : bool) (_ : list (string * bool)) =>
       Raises builtins.IndexError)
    (function_list
       ((fun k (l : list nat) => Returns (l ++ [k])) <$> [0; 1; 2; 3; 4]))
    1 [] true []
  = Returns [0; 1; 2; 3; 4].
Proof.
  rewrite (checkpoint_sequential_without_checkpoint true
           (fun f (x : list nat) (_ : bool) (_ : list (string * bool)) =>
              Raises builtins.IndexError)
           (function_list
              ((fun k (l : list nat) => Returns (l ++ [k])) <$> [0; 1; 2; 3; 4]))
           1 [] true []).
  - reflexivity.
  - reflexivity.
  - by left.
  - done.
Defined.

(* ===================================================================== *)
(** ** [get_device_states] / [set_device_states] *)
(* ===================================================================== *)

Section DeviceStatesFacts.
Context {W : Type} `{CudaRuntimeLaws W}.
Variable set_order : list nat → list nat.
Hypothesis set_order_lists : ∀ l, NoDup (set_order l) ∧ ∀ d, d ∈ set_order l ↔ d ∈ l.

Lemma with_device_read device (w : W) :
  with_device device (fun w => (get_rng_state w, w)) w
  = (rng_state_of device w, w).
Proof.
  unfold with_device, rng_state_of.
  by rewrite set_device_twice, set_device_current.
Qed.

Lemma read_loop devices : ∀ states (w : W),
  fold_left
    (fun acc device =>
       let '(state, w') :=
         with_device device (fun w => (get_rng_state w, w)) acc.2 in
       (acc.1 ++ [state], w'))
    devices (states, w)
  = (states ++ ((fun d => rng_state_of d w) <$> devices), w).
Proof.
  induction devices as [|d devices IH]; intros states w.
  - simpl. by rewrite app_nil_r.
  - cbn [fold_left fst snd]. rewrite with_device_read, IH.
    by rewrite fmap_cons, <- app_assoc.
Qed.

Lemma with_device_write device z (w : W) :
  let w' := (with_device device (fun w => (tt, set_rng_state z w)) w).2 in
  current_device w' = current_device w ∧
  rng_state_of device w' = z ∧
  ∀ d, d ≠ device → rng_state_of d w' = rng_state_of d w.
Proof.
  unfold with_device, rng_state_of. simpl.
  split; [apply current_set_device|]. split.
  - rewrite set_device_twice.
    rewrite <- (current_set_device device w) at 1.
    rewrite <- (current_set_rng_state z (set_device device w)).
    by rewrite set_device_current, get_set_rng_state.
  - intros d Hd. rewrite set_device_twice.
    rewrite other_set_rng_state by (by rewrite current_set_device).
    by rewrite set_device_twice.
Qed.

Lemma write_loop devices : ∀ states (w : W),
  NoDup devices → length states = length devices →
  let w' := set_device_states devices states w in
  current_device w' = current_device w ∧
  (∀ i d z, devices !! i = Some d → states !! i = Some z →
            rng_state_of d w' = z) ∧
  (∀ d, d ∉ devices → rng_state_of d w' = rng_state_of d w).
Proof.
  unfold set_device_states.
  induction devices as [|d devices IH]; intros states w Hnd Hlen.
  - simpl. split; [done|]. split; [|done]. intros i ? ? Hi. by rewrite lookup_nil in Hi.
  - destruct states as [|z states]; [done|]. injection Hlen as Hlen.
    apply NoDup_cons in Hnd as [Hd Hnd]. cbn [zip_with fold_left fst snd].
    destruct (with_device_write d z w) as (Hc & Hz & Ho).
    destruct (IH states (with_device d (fun w => (tt, set_rng_state z w)) w).2
                Hnd Hlen) as (Hc' & Hz' & Ho').
    cbv zeta in *.
    split; [by rewrite Hc', Hc|]. split.
    + intros [|i] d' z'; simpl.
      * intros [= <-] [= <-]. by rewrite Ho'.
      * intros Hi Hs. by eapply Hz'.
    + intros d' Hd'. apply not_elem_of_cons in Hd' as [Hne Hd'].
      rewrite Ho' by done. by apply Ho.
Qed.

(** X12. Round trip of the generator states, for a runtime in which devices
    and generator states are independent cells and a set lists its elements
    once each: [get_device_states] leaves the runtime as it found it and
    returns each device of a CUDA tensor among the arguments once, with one
    state per device; [set_device_states] on what it returned, in any later
    state of the runtime, gives each of these devices the generator state
    it had, and leaves the generator states of the other devices and the
    current device as they are. *)
Theorem device_states_round_trip (args : list Placed) (w later : W) :
  let '((devices, states), w') := get_device_states set_order args w in
  let restored := set_device_states devices states later in
  w' = w ∧
  NoDup devices ∧ (∀ d, d ∈ devices ↔ cuda_tensor d ∈ args) ∧
  length states = length devices ∧
  (∀ d, d ∈ devices → rng_state_of d restored = rng_state_of d w) ∧
  (∀ d, d ∉ devices → rng_state_of d restored = rng_state_of d later) ∧
  current_device restored = current_device later.
Proof.
  unfold get_device_states. rewrite read_loop. simpl.
  set (devices := set_order _).
  destruct (set_order_lists
              (omap (fun arg => match arg with cuda_tensor d => Some d | _ => None end)
                 args)) as [Hnd Hin].
  fold devices in Hnd, Hin.
  assert (Hlen : length ((fun d => rng_state_of d w) <$> devices) = length devices)
    by apply length_fmap.
  destruct (write_loop devices _ later Hnd Hlen) as (Hc & Hz & Ho).
  cbv zeta in *.
  split; [done|]. split; [done|]. split.
  { intros d. rewrite Hin, list_elem_of_omap. split.
    - intros ([]&?&?); by simplify_eq.
    - intros ?. by exists (cuda_tensor d). }
  split; [done|]. split; [|done].
  intros d Hd. apply list_elem_of_lookup in Hd as [i Hi].
  apply (Hz i); [done|]. by rewrite list_lookup_fmap, Hi.
Qed.

End DeviceStatesFacts.

#[global] Instance sample_runtime_laws : CudaRuntimeLaws SampleRuntime.World.
Proof.
  split; simpl; try done.
  - by intros [].
  - intros z w. by rewrite decide_True.
  - intros d z w Hd. by rewrite decide_False.
Qed.

Lemma sample_set_order_lists l :
  NoDup (SampleRuntime.set_order l) ∧ ∀ d, d ∈ SampleRuntime.set_order l ↔ d ∈ l.
Proof.
  split; [apply NoDup_remove_dups|]. intros d. apply elem_of_remove_dups.
Qed.

Lemma device_states_round_trip_witness :
  let restored := set_device_states [0; 2] [7; 27]%Z SampleRuntime.later in
  rng_state_of 2 restored = rng_state_of 2 SampleRuntime.world ∧
  rng_state_of 0 restored = rng_state_of 0 SampleRuntime.world ∧
  rng_state_of 1 restored = rng_state_of 1 SampleRuntime.later ∧
  current_device restored = current_device SampleRuntime.later.
Proof.
  pose proof (device_states_round_trip SampleRuntime.set_order
                sample_set_order_lists
                [cuda_tensor 2; cpu_tensor; cuda_tensor 0; non_tensor; cuda_tensor 2]
                SampleRuntime.world SampleRuntime.later) as H.
  assert (Hget :
            get_device_states SampleRuntime.set_order
              [cuda_tensor 2; cpu_tensor; cuda_tensor 0; non_tensor; cuda_tensor 2]
              SampleRuntime.world
            = (([0; 2], [7; 27]%Z), SampleRuntime.world))
    by (vm_compute; reflexivity).
  rewrite Hget in H. cbv beta iota zeta in H.
  destruct H as (_ & _ & _ & _ & Hin & Hout & Hcur).
  intros restored. split; [|split; [|split]].
  - apply (Hin 2). right. by left.
  - apply (Hin 0). by left.
  - apply (Hout 1). intros Hd.
    repeat (apply elem_of_cons in Hd as [Hd|Hd]; [lia|]).
    by apply elem_of_nil in Hd.
  - exact Hcur.
Defined.

(* ===================================================================== *)
(** * What every exit leaves behind *)
(* ===================================================================== *)

(* ===================================================================== *)
(** ** Operations that leave the switches and the stacks alone *)
(* ===================================================================== *)

Lemma same_control_refl s : same_control s s.
Proof. done. Qed.

Lemma same_control_trans s1 s2 s3 :
  same_control s1 s2 → same_control s2 s3 → same_control s1 s3.
Proof.
  intros ((?&?&?)&?&?) ((?&?&?)&?&?). repeat split; congruence.
Qed.

Lemma calm_ret {A} (a : A) s : calm (ret a) s.
Proof. split; [apply same_control_refl|done]. Qed.

Lemma calm_raise {A} e s : e ≠ _StopRecomputationError → calm (raise (A:=A) e) s.
Proof.
  intros He. split; [apply same_control_refl|]. intros s' [= -> _]. done.
Qed.

Lemma calm_get s : calm get s.
Proof. split; [apply same_control_refl|done]. Qed.

Lemma calm_or_raise {A} e (o : option A) s :
  e ≠ _StopRecomputationError → calm (or_raise e o) s.
Proof. intros He. destruct o; [apply calm_ret|by apply calm_raise]. Qed.

Lemma calm_modify (f : State → State) s :
  same_control s (f s) → calm (modify f) s.
Proof. intros Hf. split; [apply Hf|done]. Qed.

Lemma calm_bind {A B} (m : M A) (k : A → M B) s :
  calm m s → (∀ a s1, m s = Ok a s1 → calm (k a) s1) → calm (bind m k) s.
Proof.
  intros [Hc Hs] Hk. unfold calm, bind.
  destruct (m s) as [a s1|e s1]; simpl in *.
  - destruct (Hk a s1 eq_refl) as [Hc1 Hs1]. split.
    + exact (same_control_trans _ _ _ Hc Hc1).
    + intros s' Hstop. destruct Hc as ((Hf&_)&_). rewrite <- Hf. by eapply Hs1.
  - split; [done|]. intros s' [= -> ->]. by eapply Hs.
Qed.

Lemma calm_for_each {A} (l : list A) (body : A → M unit) s :
  (∀ x s', calm (body x) s') → calm (for_each l body) s.
Proof.
  intros Hb. revert s. induction l as [|x l IH]; intros s; simpl.
  - apply calm_ret.
  - apply calm_bind; [apply Hb|]. intros _ s1 _. apply IH.
Qed.

Lemma calm_map_m {A B} (l : list A) (f : A → M B) s :
  (∀ x s', calm (f x) s') → calm (map_m f l) s.
Proof.
  intros Hf. revert s. induction l as [|x l IH]; intros s; simpl.
  - apply calm_ret.
  - apply calm_bind; [apply Hf|]. intros y s1 _.
    apply calm_bind; [apply IH|]. intros ys s2 _. apply calm_ret.
Qed.

Lemma calm_alloc s : calm alloc s.
Proof. done. Qed.

Lemma calm_get_frame f s : calm (get_frame f) s.
Proof.
  unfold get_frame. apply calm_bind; [apply calm_get|].
  intros ? ? _. by apply calm_or_raise.
Qed.

Lemma calm_get_holder h s : calm (get_holder h) s.
Proof.
  unfold get_holder. apply calm_bind; [apply calm_get|].
  intros ? ? _. by apply calm_or_raise.
Qed.

Lemma calm_get_list l s : calm (get_list l) s.
Proof.
  unfold get_list. apply calm_bind; [apply calm_get|].
  intros ? ? _. by apply calm_or_raise.
Qed.

Lemma calm_deref_weak_holder h s : calm (deref_weak_holder h) s.
Proof.
  unfold deref_weak_holder. apply calm_bind; [apply calm_get|].
  intros ? ? _. apply calm_ret.
Qed.

Lemma calm_update_frame f upd s : calm (update_frame f upd) s.
Proof.
  unfold update_frame. apply calm_bind; [apply calm_get_frame|].
  intros fr s1 _. by apply calm_modify.
Qed.

Lemma calm_put_holder h ho s : calm (put_holder h ho) s.
Proof. by apply calm_modify. Qed.

Lemma calm_put_list l fs s : calm (put_list l fs) s.
Proof. by apply calm_modify. Qed.

Lemma calm_release_holder h s : calm (release_holder h) s.
Proof.
  unfold calm, release_holder.
  destruct (holder_store s !! h) as [ho|]; simpl; [|done].
  split; [|done]. by destruct (handle ho).
Qed.

Create HintDb calm.
#[local] Hint Resolve calm_ret calm_get calm_alloc calm_get_frame calm_get_holder
  calm_get_list calm_deref_weak_holder calm_update_frame calm_put_holder
  calm_put_list calm_release_holder : calm.

Ltac calm_step :=
  first
    [ solve [auto 1 with calm nocore]
    | apply calm_raise; done
    | apply calm_or_raise; done
    | apply calm_modify; done
    | apply calm_for_each; intros ? ?
    | apply calm_map_m; intros ? ?
    | apply calm_bind; [|intros ? ? ?] ].

Ltac calm_auto := repeat (calm_step || case_match).

Lemma calm_recomputation_pack_hook target gid x s :
  calm (_recomputation_hook.pack_hook target gid x) s.
Proof.
  unfold _recomputation_hook.pack_hook.
  apply calm_bind; [apply calm_get|]. intros s0 t0 _.
  apply calm_bind; [by apply calm_or_raise|]. intros fr t1 _. cbv zeta.
  apply calm_bind; [apply calm_update_frame|]. intros _ t2 _.
  apply calm_bind; [by apply calm_or_raise|]. intros weak t3 _.
  apply calm_bind; [apply calm_deref_weak_holder|]. intros holder t4 _.
  apply calm_bind; [calm_auto|]. intros _ t5 _.
  apply calm_bind; [apply calm_get|]. intros u t6 [= <- <-].
  apply calm_bind; [apply calm_get_frame|]. intros fr1 t7 Hget.
  assert (t7 = t5) as ->.
  { unfold get_frame, bind, get, or_raise in Hget.
    destruct (frame_store t5 !! target); by inversion Hget. }
  destruct (_enable_checkpoint_early_stop t5) eqn:Hflag; simpl.
  - destruct (_ =? _); [|apply calm_ret]. split; [done|done].
  - apply calm_ret.
Qed.

Lemma calm_checkpoint_pack_hook x s : calm (_checkpoint_hook.pack_hook x) s.
Proof. unfold _checkpoint_hook.pack_hook. calm_auto. Qed.

Lemma calm_engine_save x s : calm (engine_save x) s.
Proof.
  unfold engine_save. apply calm_bind; [apply calm_get|]. intros s0 ? _.
  destruct (last _) as [[|f g]|]; [apply calm_checkpoint_pack_hook
                                  |apply calm_recomputation_pack_hook
                                  |apply calm_ret].
Qed.

#[local] Hint Resolve calm_engine_save : calm.

Lemma calm_adapter args s : calm (_applyAutogradFunctionToSaveInputs args) s.
Proof.
  unfold _applyAutogradFunctionToSaveInputs, _NoopSaveInputs.apply,
    _NoopSaveInputs.setup_context. cbv zeta.
  calm_auto.
Qed.

#[local] Hint Resolve calm_adapter : calm.

Lemma calm_save_args_to_parent self parent args s :
  calm (save_args_to_parent self parent args) s.
Proof.
  unfold save_args_to_parent. cbv zeta.
  calm_auto.
Qed.

Lemma calm_get_args_from_parent self parent gid s :
  calm (get_args_from_parent self parent gid) s.
Proof. unfold get_args_from_parent. calm_auto. Qed.

Lemma calm_retrieve holder top gid s :
  calm (_checkpoint_hook.retrieve holder top gid) s.
Proof.
  unfold _checkpoint_hook.retrieve. calm_auto.
Qed.

Lemma calm_current_gid graph_task s :
  calm (_checkpoint_hook.current_gid graph_task) s.
Proof.
  unfold _checkpoint_hook.current_gid. case_decide; [done|apply calm_ret].
Qed.

#[local] Hint Resolve calm_recomputation_pack_hook calm_checkpoint_pack_hook
  calm_save_args_to_parent calm_get_args_from_parent calm_retrieve
  calm_current_gid : calm.

(* ===================================================================== *)
(** ** From the [with] blocks and the [try] statement to whole runs *)
(* ===================================================================== *)

Lemma try_recompute_dangling run frame gid args s :
  frame_store s !! frame = None →
  _checkpoint_hook.try_recompute run frame gid args s
  = Raise DanglingReference
      (set_grad_enabled (grad_enabled s)
         (set_checkpoint_stacks
            (_checkpoint_stacks s ++ [ {| stack := next_id s; is_recompute := true |} ])
            (set_frame_lists (<[next_id s := []]> (frame_lists s))
               (set_next_id (S (next_id s)) s)))).
Proof.
  intros Hfr. destruct s as [es st fl fs hs n hooks g u ud rc]. simpl in Hfr.
  unfold _checkpoint_hook.try_recompute, _checkpoint_hook.push_recompute_stack,
    with_hook, with_enable_grad, _checkpoint_hook.call_recompute_fn.
  mred. rewrite Hfr. cbn. by rewrite removelast_last.
Qed.

Section Discipline.
Variables N T E : State → State → Prop.
Hypothesis calm_N : ∀ s s', same_control s s' → N s s'.
Hypothesis calm_T :
  ∀ s s', same_control s s' → _enable_checkpoint_early_stop s = true → T s s'.
Hypothesis calm_E : ∀ s s', same_control s s' → E s s'.
Hypothesis N_N : ∀ s1 s2 s3, N s1 s2 → N s2 s3 → N s1 s3.
Hypothesis N_T : ∀ s1 s2 s3, N s1 s2 → T s2 s3 → T s1 s3.
Hypothesis N_E : ∀ s1 s2 s3, N s1 s2 → E s2 s3 → E s1 s3.
Hypothesis meets_with_hook :
  ∀ A h (body : M A) s,
    (∀ s', meets N T E body s') → meets N T E (with_hook h body) s.
Hypothesis meets_try_recompute :
  ∀ run frame gid args s,
    (∀ p s', meets N T E (run p) s') →
    meets N T E (_checkpoint_hook.try_recompute run frame gid args) s.

Lemma meets_of_calm {A} (m : M A) s : calm m s → meets N T E m s.
Proof.
  intros [Hc Hs]. unfold meets. destruct (m s) as [a s'|e s'] eqn:Hm; simpl in *.
  - by apply calm_N.
  - destruct e; try by apply calm_E. apply calm_T; [done|]. by eapply Hs.
Qed.

Lemma meets_bind {A B} (m : M A) (k : A → M B) s :
  meets N T E m s → (∀ a s1, m s = Ok a s1 → meets N T E (k a) s1) →
  meets N T E (bind m k) s.
Proof.
  unfold meets, bind. intros Hm Hk.
  destruct (m s) as [a s1|e s1]; [|done].
  specialize (Hk a s1 eq_refl).
  destruct (k a s1) as [b s2|e s2]; [by eapply N_N|].
  destruct e; by (eapply N_E || eapply N_T).
Qed.

Lemma meets_for_each {A} (l : list A) (body : A → M unit) s :
  (∀ x s', meets N T E (body x) s') → meets N T E (for_each l body) s.
Proof.
  intros Hb. revert s. induction l as [|x l IH]; intros s; simpl.
  - apply meets_of_calm, calm_ret.
  - apply meets_bind; [apply Hb|]. intros _ s1 _. apply IH.
Qed.

Ltac meets_step :=
  first
    [ apply meets_of_calm; solve [calm_auto]
    | apply meets_bind; [|intros ? ? ?] ].

Lemma meets_checkpoint_impl (fn : list Value → M (list Value)) rfn args s :
  (∀ a s', meets N T E (fn a) s') →
  meets N T E (_checkpoint_impl fn rfn args) s.
Proof.
  intros Hfn. unfold _checkpoint_impl.
  apply meets_bind; [meets_step|]. intros s0 t0 _.
  apply meets_bind; [meets_step|]. intros entry t1 _. cbv zeta.
  apply meets_bind; [meets_step|]. intros new t2 _.
  apply meets_bind; [meets_step|]. intros _ t3 _.
  apply meets_bind; [meets_step|]. intros frames t4 _.
  apply meets_bind; [meets_step|]. intros args' t5 _.
  apply meets_bind; [meets_step|]. intros _ t6 _.
  apply meets_bind; [by apply meets_with_hook|]. intros ret_ t7 _.
  apply meets_bind; [meets_step|]. intros _ t8 _.
  meets_step.
Qed.

Section Callbacks.
Variable run_callback : Prog → M (list Value).
Hypothesis run_callback_meets : ∀ p s, meets N T E (run_callback p) s.

Lemma meets_recompute_frame frames gid i s :
  meets N T E (_checkpoint_hook.recompute_frame run_callback frames gid i) s.
Proof.
  unfold _checkpoint_hook.recompute_frame.
  apply meets_bind; [meets_step|]. intros frame t0 _.
  apply meets_bind; [meets_step|]. intros fr t1 _.
  destruct (is_recomputed_at fr gid); [meets_step|].
  apply meets_bind; [meets_step|]. intros args' t2 _.
  apply meets_bind; [by apply meets_try_recompute|]. intros _ t3 _.
  meets_step.
Qed.

Lemma meets_unpack_hook graph_task holder frames s :
  meets N T E
    (_checkpoint_hook.unpack_hook run_callback graph_task holder frames) s.
Proof.
  unfold _checkpoint_hook.unpack_hook.
  apply meets_bind; [meets_step|]. intros top t0 _.
  apply meets_bind; [meets_step|]. intros gid t1 _.
  apply meets_bind; [|intros _ t2 _; meets_step].
  apply meets_for_each. intros i t2. apply meets_recompute_frame.
Qed.

Lemma meets_engine_restore graph_task saved s :
  meets N T E (engine_restore run_callback graph_task saved) s.
Proof.
  destruct saved; simpl; [apply meets_unpack_hook|meets_step..].
Qed.

Lemma meets_run p : ∀ s, meets N T E (run run_callback p) s.
Proof.
  induction p as [out|x k IH|g saved k IH|h k IH|fn IHfn rfn _ args k IH];
    intros s; simpl.
  - meets_step.
  - apply meets_bind; [meets_step|]. intros packed t0 _. apply IH.
  - apply meets_bind; [apply meets_engine_restore|]. intros x t0 _. apply IH.
  - apply meets_bind; [meets_step|]. intros _ t0 _. apply IH.
  - apply meets_bind; [|intros out t0 _; apply IH].
    apply meets_checkpoint_impl. intros a t0. apply IHfn.
Qed.

End Callbacks.

Lemma meets_exec depth : ∀ p s, meets N T E (exec depth p) s.
Proof.
  induction depth as [|d IH]; intros p s.
  - apply meets_of_calm. by apply calm_raise.
  - apply meets_run. apply IH.
Qed.

End Discipline.

(* ===================================================================== *)
(** ** The early-stop switch, the interceptors and the grad mode *)
(* ===================================================================== *)

Lemma meets_same N (A : Type) (m : M A) s :
  meets N N N m s ↔ N s (final_state (m s)).
Proof. unfold meets. destruct (m s) as [a s'|[] s']; done. Qed.

Lemma same_modes_trans s1 s2 s3 :
  same_modes s1 s2 → same_modes s2 s3 → same_modes s1 s3.
Proof. intros (?&?&?) (?&?&?). repeat split; congruence. Qed.

Lemma modes_with_hook A h (body : M A) s :
  (∀ s', meets same_modes same_modes same_modes body s') →
  meets same_modes same_modes same_modes (with_hook h body) s.
Proof.
  intros Hb. apply meets_same. unfold with_hook, finally. mred.
  match goal with |- context [body ?s1] =>
    specialize (Hb s1); apply meets_same in Hb; destruct (body s1) as [a s2|e s2]
  end; destruct Hb as (Hf & Hh & Hg); simpl in *;
    (split; [done|split; [|done]]); mred; by rewrite Hh, removelast_last.
Qed.

Lemma modes_try_recompute run frame gid args s :
  (∀ p s', meets same_modes same_modes same_modes (run p) s') →
  meets same_modes same_modes same_modes
    (_checkpoint_hook.try_recompute run frame gid args) s.
Proof.
  intros Hr. apply meets_same.
  destruct (frame_store s !! frame) as [fr|] eqn:Hfr.
  2:{ by rewrite try_recompute_dangling. }
  rewrite (try_recompute_cases _ _ _ _ _ _ Hfr).
  specialize (Hr (recompute_fn fr args) (recompute_entered frame gid args s)).
  apply meets_same in Hr.
  assert (Hleft : ∀ s1, same_modes (recompute_entered frame gid args s) s1 →
                        same_modes s (recompute_left s s1)).
  { intros s1 (Hf & Hh & Hg). split; [done|]. split; [|done].
    unfold recompute_left. mred. rewrite Hh. unfold recompute_entered. mred.
    by rewrite removelast_last. }
  destruct (run _ _) as [out s1|e s1]; simpl in Hr; apply Hleft in Hr.
  - by destruct (_enable_checkpoint_early_stop s1).
  - destruct e; try done. unfold _checkpoint_hook.pop_stack. mred.
    by destruct (_checkpoint_stacks (recompute_left s s1)).
Qed.

Lemma exec_same_modes depth p s : same_modes s (final_state (exec depth p s)).
Proof.
  apply meets_same.
  apply meets_exec; try done.
  - by intros ? ? [? _].
  - by intros ? ? [? _].
  - by intros ? ? [? _].
  - apply same_modes_trans.
  - apply same_modes_trans.
  - apply same_modes_trans.
  - apply modes_with_hook.
  - apply modes_try_recompute.
Qed.

Ltac modes_laws :=
  first [ done | by intros ? ? [? _] | apply same_modes_trans
        | apply modes_with_hook | apply modes_try_recompute ].

(** X13. However it ends (a return, the early-stop signal, any other
    exception, inside any nesting of regions and restores), a run of a
    callback, a restore ([unpack_hook] of [_checkpoint_hook]) and a region
    ([_checkpoint_impl]) leave the installed saved-tensor interceptors, the
    grad mode and the early-stop switch as they found them. *)
Theorem interceptors_and_grad_mode_restored depth :
  (∀ p s, same_modes s (final_state (exec depth p s))) ∧
  (∀ graph_task holder frames s,
     same_modes s
       (final_state
          (_checkpoint_hook.unpack_hook (exec depth) graph_task holder frames s))) ∧
  (∀ fn rfn args s,
     same_modes s
       (final_state
          (_checkpoint_impl (fun a => exec depth (fn a)) rfn args s))).
Proof.
  split; [|split].
  - apply exec_same_modes.
  - intros graph_task holder frames s. apply meets_same.
    apply meets_unpack_hook; try modes_laws.
    intros p s'. apply meets_same, exec_same_modes.
  - intros fn rfn args s. apply meets_same.
    apply meets_checkpoint_impl; try modes_laws.
    intros a s'. apply meets_same, exec_same_modes.
Qed.

(* ===================================================================== *)
(** ** The stack entries, with early stop enabled *)
(* ===================================================================== *)



Lemma kept_with_hook A h (body : M A) s :
  (∀ s', meets stacks_kept stacks_kept always body s') →
  meets stacks_kept stacks_kept always (with_hook h body) s.
Proof.
  intros Hb. unfold meets, with_hook, finally. mred.
  match goal with |- context [body ?s1] =>
    specialize (Hb s1); unfold meets in Hb; destruct (body s1) as [a s2|e s2]
  end.
  - intros Hon. by destruct (Hb Hon).
  - destruct e; try done; try (intros Hon; by destruct (Hb Hon)).
Qed.

Lemma kept_try_recompute run frame gid args s :
  (∀ p s', meets stacks_kept stacks_kept always (run p) s') →
  meets stacks_kept stacks_kept always
    (_checkpoint_hook.try_recompute run frame gid args) s.
Proof.
  intros Hr. unfold meets.
  destruct (frame_store s !! frame) as [fr|] eqn:Hfr.
  2:{ by rewrite try_recompute_dangling. }
  rewrite (try_recompute_cases _ _ _ _ _ _ Hfr).
  specialize (Hr (recompute_fn fr args) (recompute_entered frame gid args s)).
  unfold meets in Hr.
  destruct (run _ _) as [out s1|e s1].
  - destruct (_enable_checkpoint_early_stop s1) eqn:Hs1; [done|].
    intros Hon. destruct (Hr Hon) as [_ Hon1]. congruence.
  - destruct e; try done.
    unfold _checkpoint_hook.pop_stack. mred.
    destruct (_checkpoint_stacks (recompute_left s s1)) as [|e es] eqn:Hst;
      [done|].
    intros Hon. destruct (Hr Hon) as [Hk Hon1]. rewrite <- Hst.
    split; [|done]. mred. unfold recompute_left. mred. rewrite Hk.
    unfold recompute_entered. mred. by rewrite removelast_last.
Qed.

Lemma kept_of_control s s' : same_control s s' → stacks_kept s s'.
Proof. intros ((Hf&_&_)&Hs&_) Hon. split; congruence. Qed.

Lemma kept_trans s1 s2 s3 :
  stacks_kept s1 s2 → stacks_kept s2 s3 → stacks_kept s1 s3.
Proof.
  intros H12 H23 Hon. destruct (H12 Hon) as [? Hon2].
  destruct (H23 Hon2). split; congruence.
Qed.

Ltac kept_laws :=
  first [ done | apply kept_of_control
        | (intros ? ? ? ?; by apply kept_of_control)
        | apply kept_trans
        | apply kept_with_hook | apply kept_try_recompute ].

Lemma exec_stacks_kept depth p s :
  meets stacks_kept stacks_kept always (exec depth p) s.
Proof. apply meets_exec; kept_laws. Qed.

(** X14. [with _set_checkpoint_early_stop(True)] around a restore puts the
    switch back to what it was, however the restore ends, and a restore
    that returns inside it leaves [_checkpoint_stacks] with the entries it
    had: every entry pushed for a recomputation was popped.  The same holds
    of a restore run with the switch already on. *)
Theorem early_stop_keeps_stack_entries depth graph_task holder frames s :
  let restore :=
    _checkpoint_hook.unpack_hook (exec depth) graph_task holder frames in
  _enable_checkpoint_early_stop
    (final_state (_set_checkpoint_early_stop true restore s))
  = _enable_checkpoint_early_stop s ∧
  (∀ v s', _set_checkpoint_early_stop true restore s = Ok v s' →
           _checkpoint_stacks s' = _checkpoint_stacks s) ∧
  (_enable_checkpoint_early_stop s = true →
   ∀ v s', restore s = Ok v s' → _checkpoint_stacks s' = _checkpoint_stacks s).
Proof.
  intros restore.
  assert (Hkept : ∀ s0, meets stacks_kept stacks_kept always restore s0).
  { intros s0. apply meets_unpack_hook; try kept_laws.
    intros p s'. apply exec_stacks_kept. }
  split; [|split].
  - unfold _set_checkpoint_early_stop, finally.
    by destruct (restore _).
  - intros v s'. unfold _set_checkpoint_early_stop, finally.
    specialize (Hkept (set_enable_checkpoint_early_stop true s)).
    unfold meets in Hkept. destruct (restore _) as [v1 s1|e s1]; [|done].
    intros [= _ <-]. by destruct (Hkept eq_refl).
  - intros Hon v s' Hr. specialize (Hkept s). unfold meets in Hkept.
    rewrite Hr in Hkept. by destruct (Hkept Hon).
Qed.

(* ===================================================================== *)
(** ** The stack entries, with early stop disabled *)
(* ===================================================================== *)


Lemma grown_of_control b s s' : same_control s s' → stacks_grown b s s'.
Proof.
  intros ((Hf&_&_)&Hs&Hc) Hoff. split; [congruence|].
  exists [], []. rewrite !app_nil_r. by destruct b.
Qed.

Lemma grown_weaken s s' : stacks_grown true s s' → stacks_grown false s s'.
Proof.
  intros H Hoff. destruct (H Hoff) as (Hoff' & en & cs & ? & ? & Hlen).
  split; [done|]. exists en, cs. split; [done|]. split; [done|]. simpl in *. lia.
Qed.

Lemma grown_trans b s1 s2 s3 :
  stacks_grown true s1 s2 → stacks_grown b s2 s3 → stacks_grown b s1 s3.
Proof.
  intros H12 H23 Hoff.
  destruct (H12 Hoff) as (Hoff2 & en & cs & Hs & Hc & Hlen).
  destruct (H23 Hoff2) as (Hoff3 & en' & cs' & Hs' & Hc' & Hlen').
  split; [done|]. exists (en ++ en'), (cs ++ cs').
  rewrite Hs', Hs, Hc', Hc, !app_assoc. split; [done|]. split; [done|].
  rewrite !length_app. simpl in Hlen. destruct b; lia.
Qed.

Lemma grown_with_hook A h (body : M A) s :
  (∀ s', meets (stacks_grown true) never_off (stacks_grown false) body s') →
  meets (stacks_grown true) never_off (stacks_grown false) (with_hook h body) s.
Proof.
  intros Hb. unfold meets, with_hook, finally. mred.
  match goal with |- context [body ?s1] =>
    specialize (Hb s1); unfold meets in Hb; destruct (body s1) as [a s2|e s2]
  end.
  - intros Hoff. by destruct (Hb Hoff).
  - destruct e; try done; try (intros Hoff; by destruct (Hb Hoff)).
Qed.

Lemma grown_try_recompute run frame gid args s :
  (∀ p s', meets (stacks_grown true) never_off (stacks_grown false) (run p) s') →
  meets (stacks_grown true) never_off (stacks_grown false)
    (_checkpoint_hook.try_recompute run frame gid args) s.
Proof.
  intros Hr. unfold meets.
  destruct (frame_store s !! frame) as [fr|] eqn:Hfr.
  2:{ rewrite try_recompute_dangling by done. intros Hoff. split; [done|].
      eexists [_], []. mred. rewrite app_nil_r. split; [done|]. split; [done|].
      simpl. lia. }
  rewrite (try_recompute_cases _ _ _ _ _ _ Hfr).
  specialize (Hr (recompute_fn fr args) (recompute_entered frame gid args s)).
  unfold meets in Hr.
  assert (Hleft : ∀ b s1,
            stacks_grown b (recompute_entered frame gid args s) s1 →
            stacks_grown b s (recompute_left s s1)).
  { intros b s1 H Hoff. destruct (H Hoff) as (Hoff1 & en & cs & Hs & Hc & Hlen).
    split; [done|]. eexists (_ :: en), (_ :: cs).
    unfold recompute_left. mred. rewrite Hs, Hc. unfold recompute_entered. mred.
    rewrite <- !app_assoc. split; [done|]. split; [done|].
    simpl. destruct b; lia. }
  destruct (run _ _) as [out s1|e s1].
  - destruct (_enable_checkpoint_early_stop s1) eqn:Hs1.
    + apply Hleft. by apply grown_weaken.
    + by apply Hleft.
  - destruct e; try by apply Hleft.
    unfold _checkpoint_hook.pop_stack. mred.
    destruct (_checkpoint_stacks (recompute_left s s1)) as [|e es] eqn:Hst;
      intros Hoff; by destruct (Hr Hoff).
Qed.

Lemma never_off_of_control s s' :
  same_control s s' → _enable_checkpoint_early_stop s = true → never_off s s'.
Proof. intros _ Hon Hoff. congruence. Qed.

Lemma grown_then_never_off s1 s2 s3 :
  stacks_grown true s1 s2 → never_off s2 s3 → never_off s1 s3.
Proof. intros H12 H23 Hoff. destruct (H12 Hoff) as [Hoff2 _]. by apply H23. Qed.

Ltac grown_laws :=
  first [ done | apply grown_of_control | apply grown_trans
        | apply never_off_of_control | apply grown_then_never_off
        | apply grown_with_hook | apply grown_try_recompute ].

Lemma exec_stacks_grown depth p s :
  meets (stacks_grown true) never_off (stacks_grown false) (exec depth p) s.
Proof. apply meets_exec; grown_laws. Qed.

(** X15. With early stop disabled, a restore never ends in the early-stop
    signal and never removes an entry of [_checkpoint_stacks]: entries are
    only added at the end, at least one per call of a recomputation callback,
    and exactly one per call when the restore returns. *)
Theorem without_early_stop_entries_pile_up depth graph_task holder frames s :
  _enable_checkpoint_early_stop s = false →
  let outcome :=
    _checkpoint_hook.unpack_hook (exec depth) graph_task holder frames s in
  ∃ entries calls,
    _checkpoint_stacks (final_state outcome) = _checkpoint_stacks s ++ entries ∧
    recompute_calls (final_state outcome) = recompute_calls s ++ calls ∧
    length calls ≤ length entries ∧
    (∀ v s', outcome = Ok v s' → length calls = length entries) ∧
    (∀ s', outcome ≠ Raise _StopRecomputationError s').
Proof.
  intros Hoff outcome.
  assert (H : meets (stacks_grown true) never_off (stacks_grown false)
                (_checkpoint_hook.unpack_hook (exec depth) graph_task holder frames)
                s).
  { apply meets_unpack_hook; try grown_laws.
    intros p s'. apply exec_stacks_grown. }
  unfold meets in H. fold outcome in H.
  destruct outcome as [v s1|e s1] eqn:Ho; simpl.
  - destruct (H Hoff) as (_ & en & cs & Hs & Hc & Hlen). simpl in Hlen.
    exists en, cs. repeat split; try done. lia.
  - assert (e ≠ _StopRecomputationError) as He.
    { intros ->. by apply H. }
    assert (stacks_grown false s s1) as Hg by (by destruct e).
    destruct (Hg Hoff) as (_ & en & cs & Hs & Hc & Hlen). simpl in Hlen.
    exists en, cs. repeat split; try done. congruence.
Qed.

Lemma without_early_stop_entries_pile_up_witness :
  let outcome :=
    _checkpoint_hook.unpack_hook (exec 1) 7 5 [1] (Sample.after_forward false) in
  ∃ entries calls,
    _checkpoint_stacks (final_state outcome)
    = _checkpoint_stacks (Sample.after_forward false) ++ entries ∧
    recompute_calls (final_state outcome)
    = recompute_calls (Sample.after_forward false) ++ calls ∧
    length calls ≤ length entries ∧
    (∀ v s', outcome = Ok v s' → length calls = length entries) ∧
    (∀ s', outcome ≠ Raise _StopRecomputationError s').
Proof.
  apply (without_early_stop_entries_pile_up 1 7 5 [1] (Sample.after_forward false)).
  vm_compute. reflexivity.
Defined.

(* ===================================================================== *)
(** ** After [_reset_checkpoint_stacks] *)
(* ===================================================================== *)

Lemma checkpoint_impl_top_level (fn : list Value → M (list Value)) rfn args s
    entry :
  py_last (_checkpoint_stacks s) = Some entry →
  frame_lists s !! stack entry = Some [] →
  is_recompute entry = false →
  _checkpoint_impl fn rfn args s
  = leave_region (stack entry)
      (fn args
         (set_saved_tensors_hooks (saved_tensors_hooks s ++ [CheckpointHook])
            (set_frame_lists (<[stack entry := [next_id s]]> (frame_lists s))
               (set_frame_store
                  (<[next_id s := set_maybe_args (Some args) (new_frame rfn)]>
                     (frame_store s))
                  (set_next_id (S (next_id s)) s))))).
Proof.
  intros He Hfs Hrec. unfold _checkpoint_impl, with_hook, leave_region.
  mrun_with ltac:(rewrite ?He, ?Hfs, ?Hrec, ?lookup_insert_eq).
  simpl.
  mrun_with ltac:(rewrite ?He, ?Hfs, ?Hrec, ?lookup_insert_eq).
  mnorm. rewrite ?insert_insert_eq. simpl.
  destruct (fn args _) as [r s'|e s']; [|done]. mred.
  by destruct (frame_lists s' !! stack entry) as [[|]|].
Qed.


(* ===================================================================== *)
(** ** A restored value is handed out once *)
(* ===================================================================== *)

Section HandedOutOnce.
Context (gid : Z).
Variable run_callback : Prog → M (list Value).
Hypothesis run_callback_safe :
  ∀ p s, avoids gid p → safe gid (run_callback p) s.

(** A turn of the loop keeps [good], keeps every flag for [gid], and flags
    its own frame. *)
Lemma recompute_frame_flags frames i s s' :
  good gid s →
  _checkpoint_hook.recompute_frame run_callback frames gid i s = Ok tt s' →
  good gid s' ∧
  (∀ f, flagged s f gid → flagged s' f gid) ∧
  (∀ f, frames !! i = Some f → flagged s' f gid).
Proof.
  intros Hg Hturn.
  assert (Hown : ∀ f, frames !! i = Some f → flagged s' f gid)
    by (intros f Hf; by eapply recompute_frame_marks).
  revert Hturn. unfold _checkpoint_hook.recompute_frame.
  destruct (frames !! i) as [frame|]; [|done].
  rewrite (bind_step _ _ _ frame s) by done.
  intros H. apply bind_Ok in H as (fr & s1 & Hget & H).
  apply get_frame_inv in Hget as [-> Hfr].
  destruct (is_recomputed_at fr gid) eqn:Hflag.
  { injection H as <-. done. }
  apply bind_Ok in H as (args & s1 & Hargs & H).
  assert (s1 = s) as ->.
  { assert (Hro : final_state
                    (match maybe_args fr with
                     | Some args => ret args
                     | None =>
                         let! parent :=
                           or_raise IndexError
                             (py_getitem frames (Z.of_nat i - 1)) in
                         get_args_from_parent frame parent gid
                     end s) = s).
    { destruct (maybe_args fr); [done|].
      destruct (py_getitem frames (Z.of_nat i - 1)) as [parent|]; [|done].
      rewrite (bind_step _ _ _ parent s) by done.
      apply get_args_from_parent_reads_only. }
    by rewrite Hargs in Hro. }
  apply bind_Ok in H as ([] & s2 & Htry & H).
  destruct (try_recompute_once gid run_callback run_callback_safe
              frame args s Hg) as [Hg2 [_ Hk]].
  rewrite Htry in Hg2, Hk. simpl in Hg2, Hk.
  destruct (Hk frame fr Hfr) as (fr2 & Hfr2 & Hfn & _).
  rewrite (update_frame_Some _ _ _ _ Hfr2) in H. injection H as <-.
  split; [by eapply good_replace_frame|]. split; [|done].
  intros f (fr0 & Hfr0 & Hflag0).
  destruct (Hk f fr0 Hfr0) as (fr0' & Hfr0' & _ & Hflag0').
  destruct (decide (f = frame)) as [->|Hne].
  - eexists. simpl. rewrite lookup_insert_eq. split; [done|].
    apply is_recomputed_at_mark.
  - exists fr0'. simpl. rewrite lookup_insert_ne by done.
    split; [done|congruence].
Qed.

Lemma restore_loop_flags frames idxs : ∀ s s',
  good gid s →
  for_each idxs (_checkpoint_hook.recompute_frame run_callback frames gid) s
  = Ok tt s' →
  good gid s' ∧
  (∀ f, flagged s f gid → flagged s' f gid) ∧
  (∀ i f, i ∈ idxs → frames !! i = Some f → flagged s' f gid).
Proof.
  induction idxs as [|i idxs IH]; intros s s' Hg; simpl.
  - intros [= <-]. split; [done|]. split; [done|].
    intros i f Hi. by apply elem_of_nil in Hi.
  - intros H. apply bind_Ok in H as ([] & s1 & Hturn & Hrest).
    destruct (recompute_frame_flags _ _ _ _ Hg Hturn) as (Hg1 & Hmono1 & Hhere).
    destruct (IH _ _ Hg1 Hrest) as (Hg2 & Hmono2 & Hthere).
    split; [done|]. split; [by auto|].
    intros j f Hj Hf. apply elem_of_cons in Hj as [->|Hj]; [|by eauto].
    by apply Hmono2, Hhere.
Qed.

(** With every frame flagged, the loop does nothing. *)
Lemma restore_loop_settled frames idxs s :
  (∀ i, i ∈ idxs → ∃ f, frames !! i = Some f ∧ flagged s f gid) →
  for_each idxs (_checkpoint_hook.recompute_frame run_callback frames gid) s
  = Ok tt s.
Proof.
  induction idxs as [|i idxs IH]; intros Hall; simpl; [done|].
  destruct (Hall i) as (f & Hf & fr & Hfr & Hflag); [by left|].
  rewrite (bind_step _ _ _ tt s).
  - apply IH. intros j Hj. apply Hall. by right.
  - unfold _checkpoint_hook.recompute_frame. rewrite Hf.
    rewrite (bind_step _ _ _ f s) by done.
    rewrite (bind_step _ _ _ _ _ (get_frame_Some _ _ _ Hfr)).
    by rewrite Hflag.
Qed.

Lemma retrieve_clears_handle holder top s v s' :
  _checkpoint_hook.retrieve holder top gid s = Ok v s' →
  holder_store s' !! holder = Some {| handle := None |}.
Proof.
  unfold _checkpoint_hook.retrieve. intros H.
  apply bind_Ok in H as (ho & s1 & Hget & H).
  destruct (handle ho) as [hd|]; [|done].
  apply bind_Ok in H as (topfr & s2 & _ & H).
  destruct (recomputed_at topfr gid !! hd); [|done].
  revert H. mred. intros [= _ <-]. simpl.
  destruct (frame_store s2); apply lookup_insert_eq.
Qed.

Lemma unpack_hook_twice holder frames s v s' :
  gid ≠ (-1)%Z → good gid s →
  _checkpoint_hook.unpack_hook run_callback gid holder frames s = Ok v s' →
  _checkpoint_hook.unpack_hook run_callback gid holder frames s'
  = Raise DoubleConsumption s'.
Proof.
  intros Hgid Hg. unfold _checkpoint_hook.unpack_hook.
  destruct (py_last frames) as [top|]; [|done].
  rewrite !(bind_step _ _ _ top _) by done.
  rewrite (bind_step _ _ _ gid s)
    by (unfold _checkpoint_hook.current_gid; by rewrite decide_False).
  rewrite (bind_step _ _ _ gid s')
    by (unfold _checkpoint_hook.current_gid; by rewrite decide_False).
  intros H. apply bind_Ok in H as ([] & s1 & Hloop & Hret).
  destruct (restore_loop_flags _ _ _ _ Hg Hloop) as (Hg1 & _ & Hall).
  destruct (safe_retrieve gid holder top gid s1 Hg1) as [_ [_ Hk]].
  rewrite Hret in Hk. simpl in Hk.
  rewrite (bind_step _ _ _ tt s').
  2:{ apply restore_loop_settled. intros i Hi.
      apply elem_of_seq in Hi as [_ Hi].
      destruct (lookup_lt_is_Some_2 frames i) as [f Hf]; [lia|].
      exists f. split; [done|]. eapply flagged_kept; [exact Hk|].
      eapply Hall; [|done]. apply elem_of_seq. lia. }
  unfold _checkpoint_hook.retrieve.
  rewrite (bind_step _ _ _ {| handle := None |} s'); [done|].
  unfold get_holder. mred.
  by rewrite (retrieve_clears_handle _ _ _ _ _ Hret).
Qed.

End HandedOutOnce.

(** X17. A value is handed out once.  For a graph task of a backward pass
    under which no stored callback itself asks for a restore: after a
    restore of a holder returned, a second restore of the same holder for
    the same graph task raises the [RuntimeError] about calling
    [ctx.saved_tensor] more than once, recomputes nothing and changes
    nothing. *)
Theorem restored_value_is_handed_out_once depth gid holder frames s v s' :
  gid ≠ (-1)%Z → good gid s →
  _checkpoint_hook.unpack_hook (exec depth) gid holder frames s = Ok v s' →
  _checkpoint_hook.unpack_hook (exec depth) gid holder frames s'
  = Raise DoubleConsumption s'.
Proof.
  intros Hgid Hg. apply unpack_hook_twice; [|done..].
  intros p s0 Hp. by apply safe_exec.
Qed.

Lemma restored_value_is_handed_out_once_witness :
  let first :=
    _checkpoint_hook.unpack_hook (exec 1) 7 8 [1; 2]
      (Sample.after_nested_forward true) in
  _checkpoint_hook.unpack_hook (exec 1) 7 8 [1; 2] (final_state first)
  = Raise DoubleConsumption (final_state first).
Proof.
  intros first.
  apply (restored_value_is_handed_out_once 1 7 8 [1; 2]
           (Sample.after_nested_forward true) (detach Sample.y)).
  - done.
  - exact sample_nested_good.
  - vm_compute. reflexivity.
Defined.

(* ===================================================================== *)
(** ** Saves with no place, keywords through the adapter *)
(* ===================================================================== *)


(** X19. What [_checkpoint_without_reentrant] hands over as [flat_args] comes
    back apart: whenever the adapter that saves a nested region's inputs
    returns, [_unpack_kwargs] splits its result, with the keys kept from
    [_pack_kwargs], into as many positional arguments as were given and a
    dictionary with the given keys, in order; no argument is lost or moved. *)
Theorem keywords_survive_the_adapter (args : list Value)
    (kwargs : list (string * Value)) s out s' :
  NoDup kwargs.*1 →
  _applyAutogradFunctionToSaveInputs (_pack_kwargs args kwargs).1 s = Ok out s' →
  ∃ args' values,
    _unpack_kwargs out (_pack_kwargs args kwargs).2
    = Some (args', zip kwargs.*1 values) ∧
    out = args' ++ values ∧
    length args' = length args ∧ length values = length kwargs.
Proof.
  intros Hnd. rewrite _pack_kwargs_spec. simpl. rewrite adapter_unfold.
  destruct (_NoopSaveInputs.setup_context _ s) as [[] s1|]; [|done].
  intros [= <- <-].
  match goal with |- context [imap ?f ?l] => set (out := imap f l) end.
  assert (Hout : length out = length args + length kwargs).
  { subst out. rewrite length_imap.
    destruct (_ && _); rewrite ?length_fmap, length_app, length_fmap; done. }
  exists (take (length args) out), (drop (length args) out).
  split; [|split; [by rewrite take_drop|split]].
  - unfold _unpack_kwargs. rewrite length_fmap.
    rewrite decide_True by lia.
    destruct (decide (length kwargs = 0)) as [Hz|Hnz].
    + apply nil_length_inv in Hz. subst kwargs. simpl.
      simpl in Hout. by rewrite take_ge by lia.
    + unfold py_slice_until_neg, py_slice_from_neg.
      replace (length out - length kwargs) with (length args) by lia.
      rewrite dict_of_pairs_nodup; [done|].
      rewrite fst_zip; [done|]. rewrite length_fmap, length_drop. lia.
  - rewrite length_take. lia.
  - rewrite length_drop. lia.
Qed.

Lemma keywords_survive_the_adapter_witness :
  ∃ out args' values,
    _applyAutogradFunctionToSaveInputs
      (_pack_kwargs Sample.mixed [("scale", VTensor Sample.y); ("mode", VOther 3)]).1
      (initial_state false Sample.entropy)
    = Ok out (initial_state false Sample.entropy) ∧
    _unpack_kwargs out ["scale"; "mode"]
    = Some (args', zip ["scale"; "mode"] values) ∧
    out = args' ++ values ∧ length args' = 4 ∧ length values = 2.
Proof.
  pose (out :=
          [VTensor Sample.plain;
           VTensor {| data := 10; dtype := Floating; requires_grad := true;
                      grad_fn := Some NoopSaveInputsBackward |};
           VTensor Sample.index; VOther 5;
           VTensor {| data := 11; dtype := Floating; requires_grad := true;
                      grad_fn := Some NoopSaveInputsBackward |};
           VOther 3]).
  destruct (keywords_survive_the_adapter Sample.mixed
              [("scale", VTensor Sample.y); ("mode", VOther 3)]
              (initial_state false Sample.entropy) out
              (initial_state false Sample.entropy))
    as (args' & values & Hu & Ho & Ha & Hv).
  - compute_done.
  - vm_compute. reflexivity.
  - exists out, args', values.
    split; [vm_compute; reflexivity|]. done.
Defined.

(* ===================================================================== *)
(** ** Replaying a region that only saves *)
(* ===================================================================== *)

Lemma recomputation_pack_hook_cases target gid (x : Tensor) s fr w :
  frame_store s !! target = Some fr →
  weak_holders fr !! recomp_counter_at fr gid = Some w →
  let idx := recomp_counter_at fr gid in
  let v := _recomputation_hook.published fr idx x in
  let counted :=
    set_frame_store
      (<[target := _recomputation_hook.bump_counter gid fr]> (frame_store s)) s in
  let recorded (hd : nat) (s0 : State) : State :=
    set_frame_store
      (<[target := _recomputation_hook.store_recomputed gid hd v
                     (_recomputation_hook.bump_counter gid fr)]> (frame_store s0))
      s0 in
  let conclude (s' : State) : Outcome Packed :=
    if _enable_checkpoint_early_stop s && (S idx =? length (weak_holders fr))
    then Raise _StopRecomputationError s'
    else Ok (PDetached (detach x)) s' in
  _recomputation_hook.pack_hook target gid x s
  = match holder_store s !! w with
    | None => conclude counted
    | Some {| handle := Some hd |} => conclude (recorded hd s)
    | Some {| handle := None |} =>
        conclude
          (recorded (next_id s)
             (set_holder_store
                (<[w := {| handle := Some (next_id s) |}]> (holder_store s))
                (set_next_id (S (next_id s)) s)))
    end.
Proof.
  intros Hfr Hw idx v counted recorded conclude.
  unfold conclude, counted, recorded, v, idx.
  clear conclude counted recorded v idx.
  unfold _recomputation_hook.pack_hook.
  destruct (holder_store s !! w) as [[[hd|]]|] eqn:Hho;
    mrun_with ltac:(rewrite ?Hfr, ?Hw, ?Hho, ?lookup_insert_eq);
    rewrite ?weak_holders_store, ?weak_holders_bump,
      ?recomp_counter_at_store, ?recomp_counter_at_bump;
    mnorm; rewrite ?insert_insert_eq; by destruct (_ && _).
Qed.

Lemma recomputed_at_bump gid fr g :
  recomputed_at (_recomputation_hook.bump_counter gid fr) g = recomputed_at fr g.
Proof. done. Qed.

Lemma recomputed_at_store_ne gid hd hd' v fr :
  hd' ≠ hd →
  recomputed_at (_recomputation_hook.store_recomputed gid hd' v fr) gid !! hd
  = recomputed_at fr gid !! hd.
Proof.
  intros Hne. unfold recomputed_at at 1, _recomputation_hook.store_recomputed.
  simpl. rewrite lookup_insert_eq. simpl. by rewrite lookup_insert_ne.
Qed.

Lemma recomputed_at_mark gid fr g :
  recomputed_at (_checkpoint_hook.mark_recomputed gid fr) g = recomputed_at fr g.
Proof. done. Qed.

Lemma retrieve_after_turn h f gid hd v s fr :
  holder_store s !! h = Some {| handle := Some hd |} →
  frame_store s !! f = Some fr →
  recomputed_at fr gid !! hd = Some v →
  _checkpoint_hook.retrieve h f gid s
  = Ok v
      (forget_handle (Some hd)
         (set_holder_store (<[h := {| handle := None |}]> (holder_store s)) s)).
Proof.
  intros Hh Hfr Hv. unfold _checkpoint_hook.retrieve.
  rewrite (bind_step _ _ _ {| handle := Some hd |} s).
  2:{ unfold get_holder. mred. by rewrite Hh. }
  cbn beta iota delta [handle].
  rewrite (bind_step _ _ _ _ _ (get_frame_Some _ _ _ Hfr)).
  by rewrite Hv.
Qed.

Section Replay.
Context (f : nat) (gid : Z) (fr : _CheckpointFrame) (i h hd : nat) (s : State).
Context (xs : list Tensor) (x v : Tensor).
Hypothesis recorded_as_many : length (weak_holders fr) = length xs.
Hypothesis at_i : xs !! i = Some x.
Hypothesis holder_i : weak_holders fr !! i = Some h.
Hypothesis published_i : v = _recomputation_hook.published fr i x.

Lemma replay_step k xk t :
  replayed f gid fr i h hd v k s t → xs !! k = Some xk →
  ∃ t',
    replayed f gid fr i h hd v (S k) s t' ∧
    engine_save xk t
    = if _enable_checkpoint_early_stop s && (S k =? length xs)
      then Raise _StopRecomputationError t'
      else Ok (PDetached (detach xk)) t'.
Proof.
  intros (Hflag & Hstk & Hhook & Hlt & Hh & Hothers & frk & Hfrk & Hwh & Hch & Hk & Hv)
    Hxk.
  assert (k < length xs) as Hklen by (by eapply lookup_lt_Some).
  destruct (lookup_lt_is_Some_2 (weak_holders fr) k) as [w Hw]; [lia|].
  unfold engine_save. rewrite (bind_step _ _ _ t t) by done. rewrite Hhook.
  rewrite (recomputation_pack_hook_cases f gid xk t frk w Hfrk)
    by (by rewrite Hk, Hwh).
  cbv zeta. rewrite Hk, Hwh, Hflag, recorded_as_many.
  destruct (decide (k = i)) as [->|Hne].
  - (* the position asked for *)
    assert (w = h) as -> by congruence. assert (xk = x) as -> by congruence.
    rewrite Hh. eexists. split; [|reflexivity].
    split; [done|]. split; [done|]. split; [done|]. split; [done|].
    split; [done|]. split; [done|].
    eexists. split; [by apply lookup_insert_eq|].
    split; [done|]. split; [done|].
    split; [by rewrite recomp_counter_at_store, recomp_counter_at_bump, Hk|].
    intros _. rewrite published_i.
    unfold _recomputation_hook.published at 1. rewrite Hch.
    apply recomputed_at_store.
  - destruct (holder_store t !! w) as [[[hd'|]]|] eqn:Hho.
    + (* another live holder with a handle *)
      assert (hd' ≠ hd) as Hhd by (by eapply Hothers).
      eexists. split; [|reflexivity].
      split; [done|]. split; [done|]. split; [done|]. split; [done|].
      split; [done|]. split; [done|].
      eexists. split; [by apply lookup_insert_eq|].
      split; [done|]. split; [done|].
      split; [by rewrite recomp_counter_at_store, recomp_counter_at_bump, Hk|].
      intros Hi. rewrite recomputed_at_store_ne by done.
      rewrite recomputed_at_bump. apply Hv. lia.
    + (* a live holder whose handle was cleared: it gets a new one *)
      assert (w ≠ h) as Hwh' by (intros ->; congruence).
      eexists. split; [|reflexivity].
      split; [done|]. split; [done|]. split; [done|].
      split; [simpl; lia|].
      split; [simpl; by rewrite lookup_insert_ne|].
      split.
      { intros j h' hd' Hj Hh'. simpl.
        destruct (decide (w = h')) as [<-|Hwne].
        - rewrite lookup_insert_eq. intros [= <-]. lia.
        - rewrite lookup_insert_ne by done. by eapply Hothers. }
      eexists. split; [by apply lookup_insert_eq|].
      split; [done|]. split; [done|].
      split; [by rewrite recomp_counter_at_store, recomp_counter_at_bump, Hk|].
      intros Hi. rewrite recomputed_at_store_ne by lia.
      rewrite recomputed_at_bump. apply Hv. lia.
    + (* a dead holder *)
      eexists. split; [|reflexivity].
      split; [done|]. split; [done|]. split; [done|]. split; [done|].
      split; [done|]. split; [done|].
      eexists. split; [by apply lookup_insert_eq|].
      split; [done|]. split; [done|].
      split; [by rewrite recomp_counter_at_bump, Hk|].
      intros Hi. rewrite recomputed_at_bump. apply Hv. lia.
Qed.

Lemma replay_loop run_callback rest m : ∀ k t,
  replayed f gid fr i h hd v k s t → k + m = length xs →
  ∃ t',
    replayed f gid fr i h hd v (length xs) s t' ∧
    run run_callback (saves_then (drop k xs) rest) t
    = if _enable_checkpoint_early_stop s && (0 <? m)
      then Raise _StopRecomputationError t' else run run_callback rest t'.
Proof.
  induction m as [|m IH]; intros k t Hrep Hkm.
  - rewrite drop_ge by lia. exists t. rewrite andb_false_r.
    split; [|done]. by replace (length xs) with k by lia.
  - destruct (lookup_lt_is_Some_2 xs k) as [xk Hxk]; [lia|].
    rewrite (drop_S _ _ _ Hxk). cbn [saves_then foldr run].
    destruct (replay_step k xk t Hrep Hxk) as (t1 & Hrep1 & Hsave).
    fold (saves_then (drop (S k) xs) rest).
    destruct (IH (S k) t1 Hrep1) as (t2 & Hrep2 & Hrest); [lia|].
    destruct (_enable_checkpoint_early_stop s) eqn:Hflag; cbn [andb] in *.
    + destruct (S k =? length xs) eqn:Hlast.
      * exists t1. apply Nat.eqb_eq in Hlast.
        split; [by rewrite <- Hlast|]. by rewrite (bind_fail _ _ _ _ _ Hsave).
      * apply Nat.eqb_neq in Hlast.
        exists t2. split; [done|]. rewrite (bind_step _ _ _ _ _ Hsave).
        rewrite Hrest. destruct m; [lia|done].
    + exists t2. split; [done|]. by rewrite (bind_step _ _ _ _ _ Hsave).
Qed.

Lemma replay_run_then run_callback rest args :
  frame_store s !! f = Some fr → recomp_counter_at fr gid = 0 →
  holder_store s !! h = Some {| handle := Some hd |} → hd < next_id s →
  (∀ j h' hd', j ≠ i → weak_holders fr !! j = Some h' →
     holder_store s !! h' = Some {| handle := Some hd' |} → hd' ≠ hd) →
  ∃ t,
    replayed f gid fr i h hd v (length xs) s t ∧
    run run_callback (saves_then xs rest) (recompute_entered f gid args s)
    = if _enable_checkpoint_early_stop s && (0 <? length xs)
      then Raise _StopRecomputationError t else run run_callback rest t.
Proof.
  intros Hfr Hcount Hh Hlt Hothers.
  destruct (replay_loop run_callback rest (length xs) 0
              (recompute_entered f gid args s)) as (t & Hrep & Hrun).
  { unfold replayed, recompute_entered. mred.
    split; [done|]. split; [by intros [_ [=]]%app_eq_nil|].
    split; [by rewrite last_snoc|]. split; [lia|]. split; [done|].
    split; [done|]. exists fr. split; [done|]. split; [done|]. split; [done|].
    split; [done|]. lia. }
  { done. }
  rewrite drop_0 in Hrun. by exists t.
Qed.

Lemma replay_run run_callback args :
  frame_store s !! f = Some fr → recomp_counter_at fr gid = 0 →
  holder_store s !! h = Some {| handle := Some hd |} → hd < next_id s →
  (∀ j h' hd', j ≠ i → weak_holders fr !! j = Some h' →
     holder_store s !! h' = Some {| handle := Some hd' |} → hd' ≠ hd) →
  ∃ t,
    replayed f gid fr i h hd v (length xs) s t ∧
    run run_callback (saves xs) (recompute_entered f gid args s)
    = if _enable_checkpoint_early_stop s && (0 <? length xs)
      then Raise _StopRecomputationError t else Ok [] t.
Proof.
  intros Hfr Hcount Hh Hlt Hothers.
  destruct (replay_run_then run_callback (Ret []) args)
    as (t & Hrep & Hrun); try done.
  exists t. split; [done|exact Hrun].
Qed.

Lemma turn_after_replay depth frames k args t :
  frames !! k = Some f →
  frame_store s !! f = Some fr → is_recomputed_at fr gid = false →
  match maybe_args fr with
  | None =>
      let! parent :=
        or_raise IndexError (py_getitem frames (Z.of_nat k - 1)) in
      get_args_from_parent f parent gid
  | Some args => ret args
  end s = Ok args s →
  replayed f gid fr i h hd v (length xs) s t →
  exec (S depth) (recompute_fn fr args) (recompute_entered f gid args s)
  = (if _enable_checkpoint_early_stop s && (0 <? length xs)
     then Raise _StopRecomputationError t else Ok [] t) →
  ∃ frn t3,
    frame_store t !! f = Some frn ∧
    _checkpoint_hook.recompute_frame (exec (S depth)) frames gid k s = Ok tt t3 ∧
    holder_store t3 = holder_store t ∧
    frame_store t3
    = <[f := _checkpoint_hook.mark_recomputed gid frn]> (frame_store t) ∧
    recompute_calls t3 = recompute_calls t ∧
    next_id t3 = next_id t ∧
    holder_store t !! h = Some {| handle := Some hd |} ∧
    recomputed_at frn gid !! hd = Some v.
Proof.
  intros Hk Hfr Hflagged Hargs Hrep Hrun.
  assert (Hi : i < length xs) by (by eapply lookup_lt_Some).
  destruct Hrep as (Hflag & Hstk & _ & _ & Hht & _ & frn & Hfrn & _ & _ & _ & Hv).
  specialize (Hv Hi).
  (* the try statement *)
  assert (Htry : ∃ t2,
             _checkpoint_hook.try_recompute (exec (S depth)) f gid args s
             = Ok tt t2 ∧
             frame_store t2 = frame_store t ∧ holder_store t2 = holder_store t ∧
             recompute_calls t2 = recompute_calls t ∧ next_id t2 = next_id t).
  { rewrite (try_recompute_cases _ _ _ _ _ _ Hfr), Hrun.
    destruct (_enable_checkpoint_early_stop s) eqn:Hs; cbn [andb].
    - assert ((0 <? length xs) = true) as -> by (apply Nat.ltb_lt; lia).
      rewrite pop_stack_nonempty by done. by eexists.
    - rewrite Hflag. by eexists. }
  destruct Htry as (t2 & Htry & Hfs2 & Hhs2 & Hcs2 & Hn2).
  exists frn. eexists. split; [exact Hfrn|]. split.
  { unfold _checkpoint_hook.recompute_frame. rewrite Hk.
    rewrite (bind_step _ _ _ f s) by done.
    rewrite (bind_step _ _ _ _ _ (get_frame_Some _ _ _ Hfr)).
    rewrite Hflagged.
    rewrite (bind_step _ _ _ _ _ Hargs).
    rewrite (bind_step _ _ _ _ _ Htry).
    apply update_frame_Some. by rewrite Hfs2. }
  mred. by rewrite Hfs2, Hhs2, Hcs2, Hn2.
Qed.

Lemma restore_after_replay depth args t :
  gid ≠ (-1)%Z →
  frame_store s !! f = Some fr →
  maybe_args fr = Some args → is_recomputed_at fr gid = false →
  replayed f gid fr i h hd v (length xs) s t →
  exec (S depth) (recompute_fn fr args) (recompute_entered f gid args s)
  = (if _enable_checkpoint_early_stop s && (0 <? length xs)
     then Raise _StopRecomputationError t else Ok [] t) →
  ∃ frn s',
    frame_store t !! f = Some frn ∧
    _checkpoint_hook.unpack_hook (exec (S depth)) gid h [f] s = Ok v s' ∧
    holder_store s' = <[h := {| handle := None |}]> (holder_store t) ∧
    frame_store s'
    = forget_handle_in hd
      <$> <[f := _checkpoint_hook.mark_recomputed gid frn]> (frame_store t) ∧
    recompute_calls s' = recompute_calls t ∧
    next_id s' = next_id t.
Proof.
  intros Hgid Hfr Hargs Hflagged Hrep Hrun.
  destruct (turn_after_replay depth [f] 0 args t)
    as (frn & t3 & Hfrn & Hturn & Hhs3 & Hfs3 & Hcs3 & Hn3 & Hht & Hv);
    try done.
  { by rewrite Hargs. }
  exists frn. eexists. split; [exact Hfrn|].
  rewrite (unpack_hook_after_loop _ _ _ _ _ f gid s t3); [| done | |].
  - rewrite (retrieve_after_turn h f gid hd v t3
               (_checkpoint_hook.mark_recomputed gid frn)).
    + split; [reflexivity|]. mred. simpl. by rewrite Hhs3, Hfs3, Hcs3, Hn3.
    + by rewrite Hhs3.
    + rewrite Hfs3. apply lookup_insert_eq.
    + by rewrite recomputed_at_mark.
  - unfold _checkpoint_hook.current_gid. by rewrite decide_False.
  - simpl. by rewrite (bind_step _ _ _ _ _ Hturn).
Qed.

Lemma replay_restores depth args :
  gid ≠ (-1)%Z →
  frame_store s !! f = Some fr →
  maybe_args fr = Some args → recompute_fn fr args = saves xs →
  is_recomputed_at fr gid = false → recomp_counter_at fr gid = 0 →
  holder_store s !! h = Some {| handle := Some hd |} → hd < next_id s →
  (∀ j h' hd', j ≠ i → weak_holders fr !! j = Some h' →
     holder_store s !! h' = Some {| handle := Some hd' |} → hd' ≠ hd) →
  ∃ t frn s',
    run (exec depth) (saves xs) (recompute_entered f gid args s)
    = (if _enable_checkpoint_early_stop s && (0 <? length xs)
       then Raise _StopRecomputationError t else Ok [] t) ∧
    frame_store t !! f = Some frn ∧
    _checkpoint_hook.unpack_hook (exec (S depth)) gid h [f] s = Ok v s' ∧
    holder_store s' = <[h := {| handle := None |}]> (holder_store t) ∧
    frame_store s'
    = forget_handle_in hd
      <$> <[f := _checkpoint_hook.mark_recomputed gid frn]> (frame_store t) ∧
    recompute_calls s' = recompute_calls t ∧
    next_id s' = next_id t.
Proof.
  intros Hgid Hfr Hargs Hfn Hflagged Hcount Hh Hlt Hothers.
  destruct (replay_run (exec depth) args) as (t & Hrep & Hrun); try done.
  destruct (restore_after_replay depth args t)
    as (frn & s' & Hfrn & Hrest); try done.
  { rewrite Hfn. exact Hrun. }
  by exists t, frn, s'.
Qed.

End Replay.

(** X20. A restore returns the value of the replay.  For a top-level frame
    not yet recomputed for the graph task (no save counted for it yet),
    whose callback saves [xs] and returns, and which recorded as many
    holders as [xs] has tensors: the restore of the holder at position [i],
    whose handle no other holder of the frame shares, returns [xs[i]],
    detached unless the position is that of a nested region's input, under
    either setting of early stop; the holder's handle is cleared and the
    frame is marked recomputed. *)
Theorem restore_returns_the_replayed_value
    depth f gid fr args xs i x h hd s :
  gid ≠ (-1)%Z →
  frame_store s !! f = Some fr →
  maybe_args fr = Some args → recompute_fn fr args = saves xs →
  is_recomputed_at fr gid = false → recomp_counter_at fr gid = 0 →
  length (weak_holders fr) = length xs →
  xs !! i = Some x → weak_holders fr !! i = Some h →
  holder_store s !! h = Some {| handle := Some hd |} → hd < next_id s →
  (∀ j h' hd', j ≠ i → weak_holders fr !! j = Some h' →
     holder_store s !! h' = Some {| handle := Some hd' |} → hd' ≠ hd) →
  ∃ s',
    _checkpoint_hook.unpack_hook (exec (S depth)) gid h [f] s
    = Ok (if decide (i ∈ child_args_idx fr) then x else detach x) s' ∧
    holder_store s' !! h = Some {| handle := None |} ∧
    flagged s' f gid.
Proof.
  intros Hgid Hfr Hargs Hfn Hflagged Hcount Hlen Hx Hh Hho Hlt Hothers.
  destruct (replay_restores f gid fr i h hd s xs x _ Hlen Hx Hh eq_refl
              depth args) as (t & frn & s' & _ & _ & Hrestore & Hhs & Hfs & _);
    try done.
  exists s'. split; [done|]. split.
  - rewrite Hhs. apply lookup_insert_eq.
  - exists (forget_handle_in hd (_checkpoint_hook.mark_recomputed gid frn)).
    split; [by rewrite Hfs, lookup_fmap, lookup_insert_eq|].
    unfold is_recomputed_at. simpl. by rewrite lookup_insert_eq.
Qed.

Lemma restore_returns_the_replayed_value_witness :
  ∃ s',
    _checkpoint_hook.unpack_hook (exec 1) 7 5 [1] (Sample.after_forward true)
    = Ok (detach Sample.y) s' ∧
    holder_store s' !! 5 = Some {| handle := None |} ∧
    flagged s' 1 7.
Proof.
  apply (restore_returns_the_replayed_value 0 1 7
           (set_weak_holders [3; 5]
              (set_maybe_args (Some [VTensor Sample.x])
                 (new_frame Sample.sin_cos)))
           [VTensor Sample.x] [Sample.x; Sample.y] 1 Sample.y 5 4
           (Sample.after_forward true)).
  - done.
  - vm_compute. reflexivity.
  - reflexivity.
  - reflexivity.
  - reflexivity.
  - reflexivity.
  - reflexivity.
  - reflexivity.
  - reflexivity.
  - vm_compute. reflexivity.
  - vm_compute. lia.
  - intros [|[|j]] h' hd' Hj; simpl; [|done|by rewrite lookup_nil].
    intros [= <-] Hh. vm_compute in Hh. injection Hh as <-. lia.
Defined.

Lemma calm_saves run_callback xs : ∀ t, calm (run run_callback (saves xs)) t.
Proof.
  induction xs as [|x xs IH]; intros t; cbn [saves foldr run].
  - apply calm_ret.
  - apply calm_bind; [apply calm_engine_save|]. intros _ t1 _. apply IH.
Qed.

Lemma run_saves_then run_callback xs rest : ∀ s,
  run run_callback (saves_then xs rest) s
  = match run run_callback (saves xs) s with
    | Ok _ t => run run_callback rest t
    | Raise e t => Raise e t
    end.
Proof.
  induction xs as [|x xs IH]; intros s; cbn [saves saves_then foldr run].
  - reflexivity.
  - unfold bind. destruct (engine_save x s) as [p t|e t]; [|done]. apply IH.
Qed.

Lemma recomputation_pack_hook_past_the_end target gid (y : Tensor) t fr :
  frame_store t !! target = Some fr →
  length (weak_holders fr) ≤ recomp_counter_at fr gid →
  _recomputation_hook.pack_hook target gid y t
  = Raise IndexError
      (set_frame_store
         (<[target := _recomputation_hook.bump_counter gid fr]> (frame_store t))
         t).
Proof.
  intros Hfr Hlen. unfold _recomputation_hook.pack_hook.
  mrun_with ltac:(rewrite ?Hfr).
  by rewrite (lookup_ge_None_2 _ _ Hlen).
Qed.

(** X21. Early stop cuts the callback at the last recorded save.  For a
    top-level frame not yet recomputed for the graph task, which recorded as
    many holders as [xs] has tensors and whose callback saves [xs] and then
    goes on with [rest]: with early stop enabled, the restore of position
    [i] returns [xs[i]] (detached unless a nested region's input) whatever
    [rest] is, since [rest] is never run; with early stop disabled [rest] is
    run, and when it starts with one more save, the restore raises
    [IndexError], since the frame recorded no holder for that save. *)
Theorem early_stop_cuts_the_callback
    depth f gid fr args xs rest i x h hd s :
  gid ≠ (-1)%Z →
  frame_store s !! f = Some fr →
  maybe_args fr = Some args → recompute_fn fr args = saves_then xs rest →
  is_recomputed_at fr gid = false → recomp_counter_at fr gid = 0 →
  length (weak_holders fr) = length xs →
  xs !! i = Some x → weak_holders fr !! i = Some h →
  holder_store s !! h = Some {| handle := Some hd |} → hd < next_id s →
  (∀ j h' hd', j ≠ i → weak_holders fr !! j = Some h' →
     holder_store s !! h' = Some {| handle := Some hd' |} → hd' ≠ hd) →
  (_enable_checkpoint_early_stop s = true →
   ∃ s',
     _checkpoint_hook.unpack_hook (exec (S depth)) gid h [f] s
     = Ok (if decide (i ∈ child_args_idx fr) then x else detach x) s') ∧
  (_enable_checkpoint_early_stop s = false →
   ∀ y k, rest = Save y k →
          ∃ s',
            _checkpoint_hook.unpack_hook (exec (S depth)) gid h [f] s
            = Raise IndexError s' ∧
            recompute_calls s' = recompute_calls s ++ [(f, gid, args)]).
Proof.
  intros Hgid Hfr Hargs Hfn Hflagged Hcount Hlen Hx Hh Hho Hlt Hothers.
  assert (Hi : i < length xs) by (by eapply lookup_lt_Some).
  destruct (replay_run_then f gid fr i h hd s xs x _ Hlen Hx Hh eq_refl
              (exec depth) rest args) as (t & Hrep & Hrun); try done.
  split.
  - intros Hon.
    destruct (restore_after_replay f gid fr i h hd s xs x
                (_recomputation_hook.published fr i x) Hlen Hx depth args t)
      as (frn & s' & _ & Hrestore & _); try done.
    { rewrite Hfn. change (exec (S depth)) with (run (exec depth)).
      rewrite Hrun, Hon.
      by assert ((0 <? length xs) = true) as -> by (apply Nat.ltb_lt; lia). }
    by exists s'.
  - intros Hoff y k ->. clear t Hrep Hrun.
    destruct (replay_run f gid fr i h hd s xs x _ Hlen Hx Hh eq_refl
                (exec depth) args) as (t & Hrep & Hrun); try done.
    rewrite Hoff in Hrun. simpl in Hrun.
    assert (Hcalls : recompute_calls t = recompute_calls s ++ [(f, gid, args)]).
    { destruct (calm_saves (exec depth) xs (recompute_entered f gid args s))
        as [(_ & _ & Hc) _].
      by rewrite Hrun in Hc. }
    destruct Hrep as (_ & _ & Hhook & _ & _ & _ & frk & Hfrk & Hwh & _ & Hk & _).
    set (t' := set_frame_store
                 (<[f := _recomputation_hook.bump_counter gid frk]>
                    (frame_store t)) t).
    assert (Hreplay : exec (S depth) (recompute_fn fr args)
                        (recompute_entered f gid args s)
                      = Raise IndexError t').
    { rewrite Hfn. change (exec (S depth)) with (run (exec depth)).
      rewrite run_saves_then, Hrun. cbn [run].
      apply bind_fail. unfold engine_save.
      rewrite (bind_step _ _ _ t t) by done. rewrite Hhook.
      apply recomputation_pack_hook_past_the_end; [done|].
      rewrite Hwh, Hk, Hlen. lia. }
    exists (recompute_left s t'). split; [|exact Hcalls].
    unfold _checkpoint_hook.unpack_hook. simpl py_last.
    rewrite (bind_step _ _ _ f s) by done.
    rewrite (bind_step _ _ _ gid s)
      by (unfold _checkpoint_hook.current_gid; by rewrite decide_False).
    rewrite (bind_fail _ _ _ IndexError (recompute_left s t')); [done|].
    simpl. rewrite (bind_fail _ _ _ IndexError (recompute_left s t')); [done|].
    unfold _checkpoint_hook.recompute_frame. simpl.
    rewrite (bind_step _ _ _ f s) by done.
    rewrite (bind_step _ _ _ _ _ (get_frame_Some _ _ _ Hfr)).
    rewrite Hflagged, Hargs.
    rewrite (bind_step _ _ _ args s) by done.
    apply bind_fail.
    rewrite (try_recompute_cases _ _ _ _ _ _ Hfr).
    change (run (exec depth)) with (exec (S depth)). by rewrite Hreplay.
Qed.

Lemma early_stop_cuts_the_callback_witness :
  (∃ s',
     _checkpoint_hook.unpack_hook (exec 1) 7 5 [1]
       (final_state
          (exec 1
             (Checkpoint Sample.sin_cos
                (fun _ =>
                   saves_then [Sample.x; Sample.y]
                     (Save Sample.x (fun _ => Ret [])))
                [VTensor Sample.x] Ret)
             (initial_state true Sample.entropy)))
     = Ok (detach Sample.y) s') ∧
  (∃ s',
     _checkpoint_hook.unpack_hook (exec 1) 7 5 [1]
       (final_state
          (exec 1
             (Checkpoint Sample.sin_cos
                (fun _ =>
                   saves_then [Sample.x; Sample.y]
                     (Save Sample.x (fun _ => Ret [])))
                [VTensor Sample.x] Ret)
             (initial_state false Sample.entropy)))
     = Raise IndexError s' ∧
     recompute_calls s' = [(1, 7%Z, [VTensor Sample.x])]).
Proof.
  assert (Hboth : ∀ b,
    let fr :=
      set_weak_holders [3; 5]
        (set_maybe_args (Some [VTensor Sample.x])
           (new_frame
              (fun _ =>
                 saves_then [Sample.x; Sample.y]
                   (Save Sample.x (fun _ => Ret []))))) in
    let s :=
      final_state
        (exec 1
           (Checkpoint Sample.sin_cos
              (fun _ =>
                 saves_then [Sample.x; Sample.y]
                   (Save Sample.x (fun _ => Ret [])))
              [VTensor Sample.x] Ret)
           (initial_state b Sample.entropy)) in
    (_enable_checkpoint_early_stop s = true →
     ∃ s',
       _checkpoint_hook.unpack_hook (exec 1) 7 5 [1] s
       = Ok (if decide (1 ∈ child_args_idx fr) then Sample.y
             else detach Sample.y) s') ∧
    (_enable_checkpoint_early_stop s = false →
     ∀ y k, Save Sample.x (fun _ => Ret []) = Save y k →
            ∃ s',
              _checkpoint_hook.unpack_hook (exec 1) 7 5 [1] s
              = Raise IndexError s' ∧
              recompute_calls s' = recompute_calls s ++ [(1, 7%Z, [VTensor Sample.x])])).
  { intros b fr s.
    apply (early_stop_cuts_the_callback 0 1 7 fr [VTensor Sample.x]
             [Sample.x; Sample.y] (Save Sample.x (fun _ => Ret [])) 1 Sample.y
             5 4 s).
    - done.
    - by destruct b.
    - reflexivity.
    - reflexivity.
    - reflexivity.
    - reflexivity.
    - reflexivity.
    - reflexivity.
    - reflexivity.
    - by destruct b.
    - destruct b; vm_compute; lia.
    - intros [|[|j]] h' hd' Hj; simpl; [|done|by rewrite lookup_nil].
      intros [= <-] Hh. destruct b; vm_compute in Hh; injection Hh as <-; lia. }
  split.
  - destruct (Hboth true) as [Hon _].
    destruct Hon as [s' Hs']; [reflexivity|]. exists s'. exact Hs'.
  - destruct (Hboth false) as [_ Hoff].
    destruct (Hoff eq_refl Sample.x (fun _ => Ret []) eq_refl) as (s' & Hs' & Hc).
    exists s'. split; [exact Hs' | exact Hc].
Defined.


Lemma forward_saves run_callback xs : ∀ s entry fs top fr,
  last (saved_tensors_hooks s) = Some CheckpointHook →
  py_last (_checkpoint_stacks s) = Some entry →
  frame_lists s !! stack entry = Some fs →
  py_last fs = Some top →
  frame_store s !! top = Some fr →
  ∃ s',
    run run_callback (saves xs) s = Ok [] s' ∧
    frame_store s'
    = <[top := set_weak_holders
                 (weak_holders fr
                  ++ ((fun j => next_id s + 1 + 2 * j) <$> seq 0 (length xs)))
                 fr]> (frame_store s) ∧
    (∀ j, j < length xs →
          holder_store s' !! (next_id s + 1 + 2 * j)
          = Some {| handle := Some (next_id s + 2 * j) |}) ∧
    (∀ k, k < next_id s → holder_store s' !! k = holder_store s !! k) ∧
    next_id s' = next_id s + 2 * length xs ∧
    _checkpoint_stacks s' = _checkpoint_stacks s ∧
    frame_lists s' = frame_lists s ∧
    saved_tensors_hooks s' = saved_tensors_hooks s.
Proof.
  induction xs as [|x xs IH]; intros s entry fs top fr Hh He Hfs Htop Hfr.
  - exists s. simpl. rewrite app_nil_r.
    assert (set_weak_holders (weak_holders fr) fr = fr) as -> by by destruct fr.
    rewrite insert_id by done. repeat split; try done; lia.
  - cbn [saves foldr run]. fold (saves xs).
    pose proof (checkpoint_pack_hook_eval x s entry fs top fr He Hfs Htop Hfr)
      as Hpack.
    rewrite <- engine_save_outer in Hpack by done.
    rewrite (bind_step _ _ _ _ _ Hpack).
    match type of Hpack with _ = Ok _ ?s1' => set (s1 := s1') in * end.
    assert (Hn1 : next_id s1 = S (S (next_id s))) by done.
    assert (Hhs1 : holder_store s1
                   = <[S (next_id s) := {| handle := Some (next_id s) |}]>
                       (holder_store s)) by done.
    assert (Hfs1 : frame_store s1
                   = <[top := set_weak_holders
                                (weak_holders fr ++ [S (next_id s)]) fr]>
                       (frame_store s)) by done.
    destruct (IH s1 entry fs top
                (set_weak_holders (weak_holders fr ++ [S (next_id s)]) fr))
      as (s' & Hrun & Hfs' & Hnew & Hold & Hn' & Hst' & Hl' & Hh');
      [done|done|done|done|by rewrite Hfs1, lookup_insert_eq|].
    rewrite Hn1 in Hfs', Hnew, Hold, Hn'.
    exists s'. split; [done|].
    assert (Hws : [S (next_id s)]
                  ++ ((fun j => S (S (next_id s)) + 1 + 2 * j)
                        <$> seq 0 (length xs))
                  = (fun j => next_id s + 1 + 2 * j)
                      <$> seq 0 (length (x :: xs))).
    { simpl. f_equal; [lia|].
      rewrite <- fmap_S_seq, <- list_fmap_compose.
      apply list_fmap_ext. intros _ j _. simpl. lia. }
    split.
    { rewrite Hfs', Hfs1, insert_insert_eq. cbn [weak_holders set_weak_holders].
      by rewrite <- app_assoc, Hws. }
    split.
    { intros [|j] Hj.
      - rewrite Hold by lia. rewrite Hhs1.
        replace (next_id s + 1 + 2 * 0) with (S (next_id s)) by lia.
        rewrite lookup_insert_eq. do 3 f_equal. lia.
      - replace (next_id s + 1 + 2 * S j) with (S (S (next_id s)) + 1 + 2 * j)
          by lia.
        rewrite Hnew by (simpl in Hj; lia). do 3 f_equal. lia. }
    split.
    { intros k Hk. rewrite Hold by lia. rewrite Hhs1.
      by rewrite lookup_insert_ne by lia. }
    split; [simpl; lia|]. by rewrite Hst', Hl', Hh'.
Qed.

Lemma recomputed_at_forget_ne hd hd' fr gid :
  hd' ≠ hd →
  recomputed_at (forget_handle_in hd fr) gid !! hd' = recomputed_at fr gid !! hd'.
Proof.
  intros Hne. unfold recomputed_at, forget_handle_in. simpl. rewrite lookup_fmap.
  destruct (recomputed fr !! gid); simpl; [by apply lookup_delete_ne|done].
Qed.

Lemma restore_again depth f gid fr args xs i j xi xj hi hj hdi hdj s :
  gid ≠ (-1)%Z →
  frame_store s !! f = Some fr →
  maybe_args fr = Some args → recompute_fn fr args = saves xs →
  is_recomputed_at fr gid = false → recomp_counter_at fr gid = 0 →
  length (weak_holders fr) = length xs →
  xs !! i = Some xi → xs !! j = Some xj →
  weak_holders fr !! i = Some hi → weak_holders fr !! j = Some hj →
  holder_store s !! hi = Some {| handle := Some hdi |} →
  holder_store s !! hj = Some {| handle := Some hdj |} →
  hdi < next_id s → hdj < next_id s →
  (∀ k h' hd', k ≠ i → weak_holders fr !! k = Some h' →
     holder_store s !! h' = Some {| handle := Some hd' |} → hd' ≠ hdi) →
  (∀ k h' hd', k ≠ j → weak_holders fr !! k = Some h' →
     holder_store s !! h' = Some {| handle := Some hd' |} → hd' ≠ hdj) →
  i ≠ j →
  ∃ s1 s2,
    _checkpoint_hook.unpack_hook (exec (S depth)) gid hi [f] s
    = Ok (_recomputation_hook.published fr i xi) s1 ∧
    _checkpoint_hook.unpack_hook (exec (S depth)) gid hj [f] s1
    = Ok (_recomputation_hook.published fr j xj) s2 ∧
    recompute_calls s1 = recompute_calls s ++ [(f, gid, args)] ∧
    recompute_calls s2 = recompute_calls s1.
Proof.
  intros Hgid Hfr Hargs Hfn Hflagged Hcount Hlen Hxi Hxj Hhi Hhj Hhoi Hhoj
    Hlti Hltj Hothi Hothj Hij.
  destruct (replay_restores f gid fr i hi hdi s xs xi _ Hlen Hxi Hhi eq_refl
              depth args)
    as (t & frn & s1 & Hrun & Hfrn & Hres1 & Hhs1 & Hfs1 & Hcs1 & Hn1);
    try done.
  destruct (replay_run f gid fr j hj hdj s xs xj _ Hlen Hxj Hhj eq_refl
              (exec depth) args) as (t' & Hrep & Hrun'); try done.
  assert (t' = t) as ->.
  { rewrite Hrun in Hrun'. destruct (_ && _); congruence. }
  destruct Hrep as (_ & _ & _ & _ & Hhjt & _ & frn' & Hfrn' & _ & _ & _ & Hvj).
  assert (frn' = frn) as -> by congruence.
  assert (Hj : j < length xs) by (by eapply lookup_lt_Some).
  specialize (Hvj Hj).
  assert (Hhd : hdj ≠ hdi) by (by eapply Hothi).
  assert (Hh : hj ≠ hi) by (intros ->; congruence).
  assert (Hcalls : recompute_calls t = recompute_calls s ++ [(f, gid, args)]).
  { destruct (calm_saves (exec depth) xs (recompute_entered f gid args s))
      as [(_ & _ & Hc) _].
    rewrite Hrun in Hc. by destruct (_ && _). }
  set (fr1 := forget_handle_in hdi (_checkpoint_hook.mark_recomputed gid frn)).
  assert (Hfr1 : frame_store s1 !! f = Some fr1).
  { by rewrite Hfs1, lookup_fmap, lookup_insert_eq. }
  assert (Hflag1 : is_recomputed_at fr1 gid = true).
  { unfold is_recomputed_at. simpl. by rewrite lookup_insert_eq. }
  assert (Hho1 : holder_store s1 !! hj = Some {| handle := Some hdj |}).
  { by rewrite Hhs1, lookup_insert_ne. }
  assert (Hv1 : recomputed_at fr1 gid !! hdj
                = Some (_recomputation_hook.published fr j xj)).
  { unfold fr1. by rewrite recomputed_at_forget_ne, recomputed_at_mark. }
  eexists s1, _. split; [exact Hres1|]. split; [|split; [congruence|]].
  - rewrite (unpack_hook_after_loop _ _ _ _ _ f gid s1 s1); [| done | |].
    + unfold _checkpoint_hook.retrieve.
      rewrite (bind_step _ _ _ {| handle := Some hdj |} s1).
      2:{ unfold get_holder. mred. by rewrite Hho1. }
      cbn beta iota delta [handle].
      rewrite (bind_step _ _ _ _ _ (get_frame_Some _ _ _ Hfr1)).
      rewrite Hv1. reflexivity.
    + unfold _checkpoint_hook.current_gid. by rewrite decide_False.
    + simpl. rewrite (bind_step _ _ _ tt s1); [done|].
      unfold _checkpoint_hook.recompute_frame. simpl.
      rewrite (bind_step _ _ _ f s1) by done.
      rewrite (bind_step _ _ _ _ _ (get_frame_Some _ _ _ Hfr1)).
      by rewrite Hflag1.
  - mred. reflexivity.
Qed.

Lemma checkpoint_of_saves early_stop entropy xs args depth :
  ∃ s fr,
    exec (S depth) (Checkpoint (fun _ => saves xs) (fun _ => saves xs) args Ret)
      (initial_state early_stop entropy)
    = Ok [] s ∧
    frame_store s !! 1 = Some fr ∧
    maybe_args fr = Some args ∧ recompute_fn fr = (fun _ => saves xs) ∧
    (∀ gid, is_recomputed_at fr gid = false ∧ recomp_counter_at fr gid = 0) ∧
    child_args_idx fr = [] ∧
    length (weak_holders fr) = length xs ∧
    (∀ j, j < length xs →
          weak_holders fr !! j = Some (3 + 2 * j) ∧
          holder_store s !! (3 + 2 * j) = Some {| handle := Some (2 + 2 * j) |}) ∧
    next_id s = 2 + 2 * length xs ∧
    recompute_calls s = [].
Proof.
  set (s0 := initial_state early_stop entropy).
  set (fr0 := set_maybe_args (Some args) (new_frame (fun _ => saves xs))).
  set (entered :=
         set_saved_tensors_hooks (saved_tensors_hooks s0 ++ [CheckpointHook])
           (set_frame_lists (<[0 := [1]]> (frame_lists s0))
              (set_frame_store (<[1 := fr0]> (frame_store s0))
                 (set_next_id 2 s0)))).
  assert (Himpl : ∀ fn,
            _checkpoint_impl fn (fun _ => saves xs) args s0
            = leave_region 0 (fn args entered)).
  { intros fn.
    by rewrite (checkpoint_impl_top_level fn _ args s0
                  {| stack := 0; is_recompute := false |}). }
  destruct (forward_saves (exec depth) xs entered
              {| stack := 0; is_recompute := false |} [1] 1 fr0)
    as (s1 & Hrun & Hfs & Hnew & _ & Hn & _ & Hl & _);
    [reflexivity|reflexivity|by apply lookup_insert_eq|reflexivity
    |by apply lookup_insert_eq|].
  change (next_id entered) with 2 in *.
  set (ws := (fun j => 2 + 1 + 2 * j) <$> seq 0 (length xs)) in *.
  set (fr := set_weak_holders ws fr0).
  assert (Hws : ∀ j, j < length xs → ws !! j = Some (3 + 2 * j)).
  { intros j Hj. subst ws. rewrite list_lookup_fmap, lookup_seq_lt by done.
    simpl. f_equal; lia. }
  assert (Hcalls : recompute_calls s1 = []).
  { destruct (calm_saves (exec depth) xs entered) as [(_ & _ & Hc) _].
    by rewrite Hrun in Hc. }
  set (s := set_frame_lists (<[0 := removelast [1]]> (frame_lists s1))
              (set_saved_tensors_hooks (removelast (saved_tensors_hooks s1)) s1)).
  exists s, fr. split.
  { cbn [exec run]. rewrite (bind_step _ _ _ [] s); [done|].
    assert (Hl0 : frame_lists s1 !! 0 = Some [1])
      by (rewrite Hl; apply lookup_insert_eq).
    rewrite Himpl, Hrun. unfold leave_region. mred. by rewrite Hl0. }
  split; [change (frame_store s) with (frame_store s1); rewrite Hfs;
          apply lookup_insert_eq|].
  split; [done|]. split; [done|]. split; [done|]. split; [done|].
  split; [subst fr ws; simpl; by rewrite length_fmap, length_seq|].
  split.
  { intros j Hj. split; [by apply Hws|].
    change (holder_store s) with (holder_store s1).
    replace (3 + 2 * j) with (2 + 1 + 2 * j) by lia. by apply Hnew. }
  split; [done|]. exact Hcalls.
Qed.

(** X22. Checkpoint, then restore: from the initial state, under either
    setting of early stop, a region whose body saves the tensors [xs] and
    returns, returns; for every position [i], the holder it recorded there
    can then be restored for any graph task of a backward pass, and the
    restore returns [xs[i]], detached. *)
Theorem checkpoint_then_restore early_stop entropy xs args i x gid depth depth' :
  xs !! i = Some x → gid ≠ (-1)%Z →
  ∃ s fr s',
    exec (S depth) (Checkpoint (fun _ => saves xs) (fun _ => saves xs) args Ret)
      (initial_state early_stop entropy)
    = Ok [] s ∧
    frame_store s !! 1 = Some fr ∧ weak_holders fr !! i = Some (3 + 2 * i) ∧
    _checkpoint_hook.unpack_hook (exec (S depth')) gid (3 + 2 * i) [1] s
    = Ok (detach x) s'.
Proof.
  intros Hx Hgid.
  destruct (checkpoint_of_saves early_stop entropy xs args depth)
    as (s & fr & Hforward & Hfr & Hargs & Hfn & Hfresh & Hchild & Hlen & Hhs
        & Hn & _).
  assert (Hi : i < length xs) by (by eapply lookup_lt_Some).
  destruct (Hhs i Hi) as [Hwi Hhi]. destruct (Hfresh gid) as [Hflag Hcount].
  destruct (replay_restores 1 gid fr i (3 + 2 * i) (2 + 2 * i) s xs x (detach x))
    with (depth := depth') (args := args)
    as (t & frn & s' & _ & _ & Hrestore & _);
    try done.
  - unfold _recomputation_hook.published. rewrite Hchild.
    by rewrite decide_False by apply not_elem_of_nil.
  - by rewrite Hfn.
  - lia.
  - intros j h' hd' Hj Hh'.
    assert (j < length xs) as Hjl.
    { apply lookup_lt_Some in Hh'. by rewrite Hlen in Hh'. }
    destruct (Hhs j Hjl) as [Hwj Hhj].
    assert (h' = 3 + 2 * j) as -> by congruence.
    rewrite Hhj. intros [= <-]. lia.
  - by exists s, fr, s'.
Qed.

Lemma checkpoint_then_restore_witness :
  ∃ s fr s',
    exec 1
      (Checkpoint (fun _ => saves [Sample.x; Sample.y])
         (fun _ => saves [Sample.x; Sample.y]) [VTensor Sample.x] Ret)
      (initial_state false Sample.entropy)
    = Ok [] s ∧
    frame_store s !! 1 = Some fr ∧ weak_holders fr !! 1 = Some 5 ∧
    _checkpoint_hook.unpack_hook (exec 1) 7 5 [1] s = Ok (detach Sample.y) s'.
Proof.
  apply (checkpoint_then_restore false Sample.entropy [Sample.x; Sample.y]
           [VTensor Sample.x] 1 Sample.y 7 0 0).
  - reflexivity.
  - done.
Defined.

(** X23. One recomputation serves every holder of the frame.  After a
    top-level region whose body saves the tensors [xs] and returns, under
    either setting of early stop and for any graph task of a backward pass:
    the restore of one position returns the tensor saved there, detached;
    the restore of another position for the same graph task then returns
    the tensor saved there, detached, from what the first restore
    recomputed; over the region and both restores the recompute callback was
    called once. *)
Theorem one_recomputation_serves_every_holder
    early_stop entropy xs args i j xi xj gid depth depth' :
  xs !! i = Some xi → xs !! j = Some xj → i ≠ j → gid ≠ (-1)%Z →
  ∃ s s1 s2,
    exec (S depth) (Checkpoint (fun _ => saves xs) (fun _ => saves xs) args Ret)
      (initial_state early_stop entropy)
    = Ok [] s ∧
    _checkpoint_hook.unpack_hook (exec (S depth')) gid (3 + 2 * i) [1] s
    = Ok (detach xi) s1 ∧
    _checkpoint_hook.unpack_hook (exec (S depth')) gid (3 + 2 * j) [1] s1
    = Ok (detach xj) s2 ∧
    recompute_calls s2 = [(1, gid, args)].
Proof.
  intros Hxi Hxj Hij Hgid.
  destruct (checkpoint_of_saves early_stop entropy xs args depth)
    as (s & fr & Hforward & Hfr & Hargs & Hfn & Hfresh & Hchild & Hlen & Hhs
        & Hn & Hcalls).
  assert (Hi : i < length xs) by (by eapply lookup_lt_Some).
  assert (Hj : j < length xs) by (by eapply lookup_lt_Some).
  destruct (Hhs i Hi) as [Hwi Hhi]. destruct (Hhs j Hj) as [Hwj Hhj].
  destruct (Hfresh gid) as [Hflag Hcount].
  assert (Hothers : ∀ p k h' hd', k ≠ p → weak_holders fr !! k = Some h' →
            holder_store s !! h' = Some {| handle := Some hd' |} →
            hd' ≠ 2 + 2 * p).
  { intros p k h' hd' Hk Hh'.
    assert (k < length xs) as Hkl.
    { apply lookup_lt_Some in Hh'. by rewrite Hlen in Hh'. }
    destruct (Hhs k Hkl) as [Hwk Hhk].
    assert (h' = 3 + 2 * k) as -> by congruence.
    rewrite Hhk. intros [= <-]. lia. }
  assert (Hpub : ∀ p x, _recomputation_hook.published fr p x = detach x).
  { intros p x. unfold _recomputation_hook.published. rewrite Hchild.
    by rewrite decide_False by apply not_elem_of_nil. }
  destruct (restore_again depth' 1 gid fr args xs i j xi xj
              (3 + 2 * i) (3 + 2 * j) (2 + 2 * i) (2 + 2 * j) s)
    as (s1 & s2 & Hr1 & Hr2 & Hc1 & Hc2); try done.
  - by rewrite Hfn.
  - lia.
  - lia.
  - by apply Hothers.
  - by apply Hothers.
  - exists s, s1, s2. rewrite !Hpub in *. split; [done|]. split; [done|].
    split; [done|]. by rewrite Hc2, Hc1, Hcalls.
Qed.

Lemma one_recomputation_serves_every_holder_witness :
  ∃ s s1 s2,
    exec 1
      (Checkpoint (fun _ => saves [Sample.x; Sample.y])
         (fun _ => saves [Sample.x; Sample.y]) [VTensor Sample.x] Ret)
      (initial_state true Sample.entropy)
    = Ok [] s ∧
    _checkpoint_hook.unpack_hook (exec 1) 7 5 [1] s = Ok (detach Sample.y) s1 ∧
    _checkpoint_hook.unpack_hook (exec 1) 7 3 [1] s1 = Ok (detach Sample.x) s2 ∧
    recompute_calls s2 = [(1, 7%Z, [VTensor Sample.x])].
Proof.
  apply (one_recomputation_serves_every_holder true Sample.entropy
           [Sample.x; Sample.y] [VTensor Sample.x] 1 0 Sample.y Sample.x 7 0 0).
  - reflexivity.
  - reflexivity.
  - lia.
  - done.
Defined.

(* ===================================================================== *)
(** ** The lists of frames stay balanced *)
(* ===================================================================== *)

Lemma py_last_last {A} (l : list A) : py_last l = last l.
Proof.
  unfold py_last, py_getitem. rewrite last_lookup. simpl.
  destruct l as [|x l]; [done|].
  destruct (Z.ltb_spec (-1 + Z.of_nat (length (x :: l))) 0) as [Hlt|Hge].
  - simpl length in Hlt. lia.
  - f_equal. simpl length. lia.
Qed.

Lemma still_ret {A} (a : A) s : still (ret a) s.
Proof. done. Qed.

Lemma still_raise {A} e s : still (raise (A:=A) e) s.
Proof. done. Qed.

Lemma still_get s : still get s.
Proof. done. Qed.

Lemma still_or_raise {A} e (o : option A) s : still (or_raise e o) s.
Proof. by destruct o. Qed.

Lemma still_modify (f : State → State) s :
  frame_lists (f s) = frame_lists s → next_id s ≤ next_id (f s) →
  still (modify f) s.
Proof. by split. Qed.

Lemma still_bind {A B} (m : M A) (k : A → M B) s :
  still m s → (∀ a s1, m s = Ok a s1 → still (k a) s1) → still (bind m k) s.
Proof.
  intros [Hl Hn] Hk. unfold still, bind.
  destruct (m s) as [a s1|e s1]; simpl in *; [|done].
  destruct (Hk a s1 eq_refl) as [Hl1 Hn1]. split; [congruence|lia].
Qed.

Lemma still_for_each {A} (l : list A) (body : A → M unit) s :
  (∀ x s', still (body x) s') → still (for_each l body) s.
Proof.
  intros Hb. revert s. induction l as [|x l IH]; intros s; simpl.
  - apply still_ret.
  - apply still_bind; [apply Hb|]. intros _ s1 _. apply IH.
Qed.

Lemma still_map_m {A B} (l : list A) (f : A → M B) s :
  (∀ x s', still (f x) s') → still (map_m f l) s.
Proof.
  intros Hf. revert s. induction l as [|x l IH]; intros s; simpl.
  - apply still_ret.
  - apply still_bind; [apply Hf|]. intros y s1 _.
    apply still_bind; [apply IH|]. intros ys s2 _. apply still_ret.
Qed.

Lemma still_alloc s : still alloc s.
Proof. split; simpl; [done|lia]. Qed.

Lemma still_get_frame f s : still (get_frame f) s.
Proof.
  unfold get_frame. apply still_bind; [apply still_get|].
  intros ? ? _. apply still_or_raise.
Qed.

Lemma still_get_holder h s : still (get_holder h) s.
Proof.
  unfold get_holder. apply still_bind; [apply still_get|].
  intros ? ? _. apply still_or_raise.
Qed.

Lemma still_get_list l s : still (get_list l) s.
Proof.
  unfold get_list. apply still_bind; [apply still_get|].
  intros ? ? _. apply still_or_raise.
Qed.

Lemma still_deref_weak_holder h s : still (deref_weak_holder h) s.
Proof. done. Qed.

Lemma still_update_frame f upd s : still (update_frame f upd) s.
Proof.
  unfold update_frame. apply still_bind; [apply still_get_frame|].
  intros fr s1 _. by apply still_modify.
Qed.

Lemma still_put_holder h ho s : still (put_holder h ho) s.
Proof. by apply still_modify. Qed.

Lemma still_release_holder h s : still (release_holder h) s.
Proof.
  unfold still, release_holder.
  destruct (holder_store s !! h) as [ho|]; simpl; [|done].
  by destruct (handle ho).
Qed.

Create HintDb still.
#[local] Hint Resolve still_ret still_raise still_get still_or_raise still_alloc
  still_get_frame still_get_holder still_get_list still_deref_weak_holder
  still_update_frame still_put_holder still_release_holder : still.

Ltac still_step :=
  first
    [ solve [auto 1 with still nocore]
    | apply still_modify; [done|simpl; lia]
    | apply still_for_each; intros ? ?
    | apply still_map_m; intros ? ?
    | apply still_bind; [|intros ? ? ?] ].

Ltac still_auto := repeat (still_step || case_match).

Lemma still_recomputation_pack_hook target gid x s :
  still (_recomputation_hook.pack_hook target gid x) s.
Proof. unfold _recomputation_hook.pack_hook. cbv zeta. still_auto. Qed.

Lemma still_checkpoint_pack_hook x s : still (_checkpoint_hook.pack_hook x) s.
Proof. unfold _checkpoint_hook.pack_hook. still_auto. Qed.

Lemma still_engine_save x s : still (engine_save x) s.
Proof.
  unfold engine_save. apply still_bind; [apply still_get|]. intros s0 ? _.
  destruct (last _) as [[|f g]|]; [apply still_checkpoint_pack_hook
                                  |apply still_recomputation_pack_hook
                                  |apply still_ret].
Qed.

#[local] Hint Resolve still_engine_save : still.

Lemma still_adapter args s : still (_applyAutogradFunctionToSaveInputs args) s.
Proof.
  unfold _applyAutogradFunctionToSaveInputs, _NoopSaveInputs.apply,
    _NoopSaveInputs.setup_context. cbv zeta.
  still_auto.
Qed.

#[local] Hint Resolve still_adapter : still.

Lemma still_save_args_to_parent self parent args s :
  still (save_args_to_parent self parent args) s.
Proof. unfold save_args_to_parent. cbv zeta. still_auto. Qed.

Lemma still_get_args_from_parent self parent gid s :
  still (get_args_from_parent self parent gid) s.
Proof. unfold get_args_from_parent. still_auto. Qed.

Lemma still_retrieve holder top gid s :
  still (_checkpoint_hook.retrieve holder top gid) s.
Proof.
  unfold _checkpoint_hook.retrieve.
  apply still_bind; [apply still_get_holder|]. intros ho s1 _.
  destruct (handle ho) as [hd|]; [|apply still_raise].
  apply still_bind; [apply still_get_frame|]. intros top_fr s2 _.
  destruct (_ !! hd); [|apply still_raise].
  apply still_bind; [apply still_put_holder|]. intros _ s3 _.
  apply still_bind; [by apply still_modify|]. intros _ s4 _. apply still_ret.
Qed.

Lemma still_current_gid graph_task s :
  still (_checkpoint_hook.current_gid graph_task) s.
Proof.
  unfold _checkpoint_hook.current_gid. case_decide; [|apply still_ret].
  split; simpl; [done|lia].
Qed.

#[local] Hint Resolve still_recomputation_pack_hook still_checkpoint_pack_hook
  still_save_args_to_parent still_get_args_from_parent still_retrieve
  still_current_gid : still.

Lemma meets_weaken (N T E T' E' : State → State → Prop) {A} (m : M A) s :
  (∀ s s', T s s' → T' s s') → (∀ s s', E s s' → E' s s') →
  meets N T E m s → meets N T' E' m s.
Proof. unfold meets. intros HT HE. destruct (m s) as [a s'|[] s']; auto. Qed.

Lemma lists_kept_left s s' : lists_kept s s' → lists_left s s'.
Proof.
  intros H l fs Hl. exists []. rewrite app_nil_r. split; [by apply H|done].
Qed.

Lemma current_list_added s s' l fs :
  lists_below_next s → entries_added s s' → frame_lists s !! l = Some fs →
  current_list s' = Some l → current_list s = Some l.
Proof.
  intros Hinv (entries & Hst & Hfresh & _) Hl. unfold current_list.
  rewrite !py_last_last, Hst.
  destruct entries as [|e entries _] using rev_ind; [by rewrite app_nil_r|].
  rewrite app_assoc, last_snoc. simpl. intros [= <-].
  apply Forall_app in Hfresh as [_ Hfresh]. apply Forall_inv in Hfresh.
  apply Hinv in Hl. lia.
Qed.

Lemma kept_then_rest (b : bool) s1 s2 s3 :
  lists_below_next s1 → lists_kept s1 s2 → entries_added s1 s2 →
  (if b then lists_kept s2 s3 else lists_left s2 s3) →
  if b then lists_kept s1 s3 else lists_left s1 s3.
Proof.
  intros Hinv Hk Hadd H23. destruct b.
  - intros l fs Hl. by apply H23, Hk.
  - intros l fs Hl. destruct (H23 l fs (Hk _ _ Hl)) as (more & Hm & Hcur).
    exists more. split; [done|]. intros Hne. apply Hcur. intros Hc2.
    apply Hne. by eapply current_list_added.
Qed.

Lemma balanced_trans s1 s2 s3 : balanced s1 s2 → balanced s2 s3 → balanced s1 s3.
Proof.
  intros H12 H23 Hinv.
  destruct (H12 Hinv) as (Hi2 & Hn2 & Hk2 & Hf2 & (en1 & Hs1 & Hfr1 & Hon1)).
  destruct (H23 Hi2) as (Hi3 & Hn3 & Hk3 & Hf3 & (en2 & Hs2 & Hfr2 & Hon2)).
  split; [done|]. split; [lia|]. split; [|split; [congruence|]].
  { intros l fs Hl. by apply Hk3, Hk2. }
  exists (en1 ++ en2). split; [by rewrite Hs2, Hs1, app_assoc|]. split.
  - apply Forall_app. split; [done|].
    eapply Forall_impl; [exact Hfr2|]. simpl. intros. lia.
  - intros Hon. rewrite (Hon1 Hon). rewrite Hon2; [done|]. congruence.
Qed.

Lemma balanced_then_cut_short b s1 s2 s3 :
  balanced s1 s2 → cut_short b s2 s3 → cut_short b s1 s3.
Proof.
  intros H12 H23 Hinv.
  destruct (H12 Hinv) as (Hi2 & Hn2 & Hk2 & Hf2 & Hadd).
  destruct (H23 Hi2) as (Hi3 & Hn3 & Hl3 & Hon2 & Hon3 & Hst).
  split; [done|]. split; [lia|].
  split; [by apply (kept_then_rest b s1 s2 s3)|].
  split; [congruence|]. split; [done|].
  destruct Hadd as (en & Hs & _ & Hon). rewrite Hst, Hs.
  rewrite Hon by congruence. apply app_nil_r.
Qed.

Lemma balanced_then_abandoned b s1 s2 s3 :
  balanced s1 s2 → abandoned b s2 s3 → abandoned b s1 s3.
Proof.
  intros H12 H23 Hinv.
  destruct (H12 Hinv) as (Hi2 & Hn2 & Hk2 & Hf2 & Hadd).
  destruct (H23 Hi2) as (Hi3 & Hn3 & Hl3).
  split; [done|]. split; [lia|]. by apply (kept_then_rest b s1 s2 s3).
Qed.

Lemma meets_of_quiet b {A} (m : M A) s :
  calm m s → still m s → meets balanced (cut_short b) (abandoned b) m s.
Proof.
  intros [Hc Hs] [Hl Hn]. unfold meets.
  destruct (m s) as [a s'|e s'] eqn:Hm; simpl in *.
  all: destruct Hc as ((Hflag & _ & _) & Hst & _).
  all: assert (Hinv' : lists_below_next s → lists_below_next s')
    by (intros Hinv l fs; rewrite Hl; intros H%Hinv; lia).
  all: assert (Hk : lists_kept s s') by (intros l fs; by rewrite Hl).
  all: assert (Hb : if b then lists_kept s s' else lists_left s s')
    by (destruct b; [done|by apply lists_kept_left]).
  - intros Hinv. repeat (split; [by auto|]).
    exists []. by rewrite app_nil_r.
  - destruct e; try (intros Hinv; by auto).
    intros Hinv. specialize (Hs s' eq_refl).
    repeat (split; [by auto|]). split; [congruence|done].
Qed.

Lemma meets_then b {A B} (m : M A) (k : A → M B) s :
  meets balanced (cut_short b) (abandoned b) m s →
  (∀ a s1, m s = Ok a s1 →
           meets balanced (cut_short b) (abandoned b) (k a) s1) →
  meets balanced (cut_short b) (abandoned b) (bind m k) s.
Proof.
  apply meets_bind;
    [apply balanced_trans|apply balanced_then_cut_short
    |apply balanced_then_abandoned].
Qed.

Ltac quiet_step :=
  apply meets_of_quiet; [solve [calm_auto]|solve [still_auto]].

Lemma region_body_balanced (body : M (list Value)) curr new s frames :
  current_list s = Some curr → frame_lists s !! curr = Some frames →
  (∀ s', meets balanced (cut_short false) (abandoned false) body s') →
  meets balanced (cut_short false) (abandoned false)
    ((let! frames := get_list curr in put_list curr (frames ++ [new])) ;;;
     let! ret_ := with_hook CheckpointHook body in
     (let! frames := get_list curr in
      match frames with
      | [] => raise IndexError
      | _ => put_list curr (removelast frames)
      end) ;;;
     ret ret_) s.
Proof.
  intros Hcur Hfs Hbody. unfold meets, with_hook, finally.
  mrun_with ltac:(rewrite ?Hfs).
  match goal with |- context [body ?s0] => set (entered := s0) end.
  specialize (Hbody entered). unfold meets in Hbody.
  assert (Hin : lists_below_next s → lists_below_next entered).
  { intros Hinv l fs. unfold entered. mred.
    destruct (decide (l = curr)) as [->|Hne].
    - intros _. by eapply Hinv.
    - rewrite lookup_insert_ne by done. apply Hinv. }
  assert (Hleft : ∀ s1 hooks,
            lists_left entered s1 →
            lists_left s (set_saved_tensors_hooks hooks s1)).
  { intros s1 hooks Hl l fs Hlfs. mred.
    destruct (decide (l = curr)) as [->|Hne].
    - assert (fs = frames) as -> by congruence.
      destruct (Hl curr (frames ++ [new])) as (more & Hm & _).
      { unfold entered. mred. apply lookup_insert_eq. }
      exists ([new] ++ more). split; [by rewrite app_assoc|]. by intros [].
    - destruct (Hl l fs) as (more & Hm & Hcurr).
      { unfold entered. mred. by rewrite lookup_insert_ne. }
      exists more. split; [done|]. intros _. apply Hcurr.
      change (current_list entered) with (current_list s). rewrite Hcur.
      by intros [= ->]. }
  destruct (body entered) as [r s1|e s1].
  - mred.
    assert (Hpopped : lists_below_next s →
              frame_lists s1 !! curr = Some (frames ++ [new])).
    { intros Hinv. destruct (Hbody (Hin Hinv)) as (_ & _ & Hk & _).
      apply Hk. unfold entered. mred. apply lookup_insert_eq. }
    destruct (frame_lists s1 !! curr) as [[|f fs]|] eqn:Hl1.
    + intros Hinv. specialize (Hpopped Hinv). by destruct frames.
    + intros Hinv. specialize (Hpopped Hinv).
      destruct (Hbody (Hin Hinv)) as (Hi1 & Hn1 & Hk & Hf & Hadd).
      injection Hpopped as Hpopped. rewrite Hpopped, removelast_last.
      split.
      { intros l fs'. mred. destruct (decide (l = curr)) as [->|Hne].
        - intros _. by eapply Hi1.
        - rewrite lookup_insert_ne by done. apply Hi1. }
      split; [done|]. split; [|split; [done|done]].
      intros l fs' Hlfs. mred. destruct (decide (l = curr)) as [->|Hne].
      * rewrite lookup_insert_eq. congruence.
      * rewrite lookup_insert_ne by done. apply Hk.
        unfold entered. mred. by rewrite lookup_insert_ne.
    + intros Hinv. by specialize (Hpopped Hinv).
  - destruct e; intros Hinv.
    1: destruct (Hbody (Hin Hinv)) as (Hi1 & Hn1 & Hl1 & Hrest);
       (split; [done|split; [done|split; [by apply Hleft|done]]]).
    all: destruct (Hbody (Hin Hinv)) as (Hi1 & Hn1 & Hl1);
      (split; [done|split; [done|by apply Hleft]]).
Qed.

Lemma calm_Ok {A} (m : M A) s a s' :
  calm m s → m s = Ok a s' → same_control s s'.
Proof. intros [Hc _] Hm. by rewrite Hm in Hc. Qed.

Lemma still_Ok {A} (m : M A) s a s' :
  still m s → m s = Ok a s' → frame_lists s' = frame_lists s.
Proof. intros [Hl _] Hm. by rewrite Hm in Hl. Qed.

Lemma checkpoint_impl_balanced (fn : list Value → M (list Value)) rfn args s :
  (∀ a s', meets balanced (cut_short false) (abandoned false) (fn a) s') →
  meets balanced (cut_short false) (abandoned false)
    (_checkpoint_impl fn rfn args) s.
Proof.
  intros Hfn. unfold _checkpoint_impl.
  apply meets_then; [quiet_step|]. intros s0 t0 [= <- <-].
  apply meets_then; [quiet_step|]. intros entry t1 Hentry.
  destruct (py_last (_checkpoint_stacks s)) as [e|] eqn:Htop; [|done].
  injection Hentry as <- <-. cbv zeta.
  apply meets_then; [quiet_step|]. intros new t2 [= <- <-].
  apply meets_then; [quiet_step|]. intros [] t3 [= <-].
  apply meets_then; [quiet_step|]. intros frames t4 Hfs.
  unfold get_list, bind, get, or_raise in Hfs.
  match type of Hfs with context [frame_lists ?t !! _] =>
    destruct (frame_lists t !! stack e) as [fs|] eqn:Hl; [|done]
  end.
  injection Hfs as <- <-.
  apply meets_then; [quiet_step|]. intros args' t5 Hargs.
  match type of Hargs with ?m ?t = _ =>
    assert (Hc : calm m t) by calm_auto;
    assert (Hst : still m t) by still_auto
  end.
  apply (calm_Ok _ _ _ _ Hc) in Hargs as Hsame.
  apply (still_Ok _ _ _ _ Hst) in Hargs as Hlists.
  destruct Hsame as (_ & Hstacks & _).
  apply (region_body_balanced _ _ _ _ fs); [| |by intros s'].
  - unfold current_list. rewrite Hstacks. mred. by rewrite Htop.
  - by rewrite Hlists.
Qed.

Lemma try_recompute_balanced run frame gid args s :
  (∀ p s', meets balanced (cut_short false) (abandoned false) (run p) s') →
  meets balanced (cut_short true) (abandoned true)
    (_checkpoint_hook.try_recompute run frame gid args) s.
Proof.
  intros Hr.
  assert (Hfresh : ∀ t, lists_below_next s →
            frame_lists t = <[next_id s := []]> (frame_lists s) →
            lists_kept s t).
  { intros t Hinv Ht l fs Hl. rewrite Ht, lookup_insert_ne; [done|].
    apply Hinv in Hl. lia. }
  assert (Hbelow : ∀ t, lists_below_next s →
            frame_lists t = <[next_id s := []]> (frame_lists s) →
            next_id t = S (next_id s) → lists_below_next t).
  { intros t Hinv Ht Hn l fs. rewrite Ht, Hn.
    destruct (decide (l = next_id s)) as [->|Hne]; [lia|].
    rewrite lookup_insert_ne by done. intros Hl%Hinv. lia. }
  destruct (frame_store s !! frame) as [fr|] eqn:Hfr.
  2:{ unfold meets. rewrite try_recompute_dangling by done.
      intros Hinv. split; [by apply Hbelow|]. split; [simpl; lia|].
      by apply Hfresh. }
  unfold meets. rewrite (try_recompute_cases _ _ _ _ _ _ Hfr).
  set (entered := recompute_entered frame gid args s).
  specialize (Hr (recompute_fn fr args) entered). unfold meets in Hr.
  assert (Hin : lists_below_next s → lists_below_next entered)
    by (intros Hinv; by apply Hbelow).
  assert (Hcur : current_list entered = Some (next_id s)).
  { unfold current_list, entered, recompute_entered. mred.
    by rewrite py_last_last, last_snoc. }
  assert (Hkept : ∀ s1, lists_below_next s →
            lists_left entered s1 → lists_kept s (recompute_left s s1)).
  { intros s1 Hinv Hl l fs Hlfs.
    destruct (Hl l fs) as (more & Hm & Hmore).
    { by apply Hfresh. }
    rewrite Hmore in Hm.
    - by rewrite app_nil_r in Hm.
    - rewrite Hcur. intros [= <-]. apply Hinv in Hlfs. lia. }
  destruct (run _ entered) as [out s1|e s1].
  - destruct (_enable_checkpoint_early_stop s1) eqn:Hflag; intros Hinv;
      destruct (Hr (Hin Hinv)) as (Hi1 & Hn1 & Hk1 & Hf1 & (en & Hst & Hen & Hon)).
    + split; [done|]. split; [simpl in *; lia|].
      by apply Hkept, lists_kept_left.
    + split; [done|]. split; [simpl in *; lia|].
      split; [by apply Hkept, lists_kept_left|]. split; [exact Hf1|].
      exists ({| stack := next_id s; is_recompute := true |} :: en).
      split; [|split].
      * unfold recompute_left. mred. rewrite Hst. unfold entered, recompute_entered.
        mred. by rewrite <- app_assoc.
      * apply Forall_cons. split; [done|].
        eapply Forall_impl; [exact Hen|]. simpl. intros. lia.
      * intros Hon'. change (_enable_checkpoint_early_stop entered)
          with (_enable_checkpoint_early_stop s) in Hf1. congruence.
  - destruct e.
    1:{ assert (Hst : lists_below_next s →
                  _checkpoint_stacks s1
                  = _checkpoint_stacks s
                    ++ [ {| stack := next_id s; is_recompute := true |} ]).
        { intros Hinv. by destruct (Hr (Hin Hinv)) as (_ & _ & _ & _ & _ & Hst). }
        destruct (decide (_checkpoint_stacks s1 = [])) as [Hnil|Hne].
        - unfold _checkpoint_hook.pop_stack, recompute_left. mred. rewrite Hnil.
          intros Hinv. specialize (Hst Hinv). rewrite Hnil in Hst.
          by destruct (_checkpoint_stacks s).
        - rewrite pop_stack_nonempty by done.
          intros Hinv. specialize (Hst Hinv).
          destruct (Hr (Hin Hinv)) as (Hi1 & Hn1 & Hl1 & Hon & Hon1 & _).
          split; [done|]. split; [simpl in *; lia|].
          split; [by apply Hkept|]. split; [exact (eq_trans Hon1 (eq_sym Hon))|].
          exists []. rewrite app_nil_r. split; [|done].
          unfold recompute_left. mred. rewrite Hst. by rewrite removelast_last. }
    all: intros Hinv; destruct (Hr (Hin Hinv)) as (Hi1 & Hn1 & Hl1);
      (split; [done|split; [simpl in *; lia|by apply Hkept]]).
Qed.

Section BalancedCallbacks.
Variable run_callback : Prog → M (list Value).
Hypothesis run_callback_balanced :
  ∀ p s, meets balanced (cut_short false) (abandoned false) (run_callback p) s.

Lemma recompute_frame_balanced frames gid i s :
  meets balanced (cut_short true) (abandoned true)
    (_checkpoint_hook.recompute_frame run_callback frames gid i) s.
Proof.
  unfold _checkpoint_hook.recompute_frame.
  apply meets_then; [quiet_step|]. intros frame t0 _.
  apply meets_then; [quiet_step|]. intros fr t1 _.
  destruct (is_recomputed_at fr gid); [quiet_step|].
  apply meets_then; [quiet_step|]. intros args' t2 _.
  apply meets_then; [by apply try_recompute_balanced|]. intros _ t3 _.
  quiet_step.
Qed.

Lemma unpack_hook_balanced graph_task holder frames s :
  meets balanced (cut_short true) (abandoned true)
    (_checkpoint_hook.unpack_hook run_callback graph_task holder frames) s.
Proof.
  unfold _checkpoint_hook.unpack_hook.
  apply meets_then; [quiet_step|]. intros top t0 _.
  apply meets_then; [quiet_step|]. intros gid t1 _.
  apply meets_then; [|intros _ t2 _; quiet_step].
  generalize (seq 0 (length frames)). intros l. revert t1.
  induction l as [|i l IH]; intros t1; simpl.
  - quiet_step.
  - apply meets_then; [apply recompute_frame_balanced|]. intros _ t2 _. apply IH.
Qed.

Lemma engine_restore_balanced graph_task saved s :
  meets balanced (cut_short false) (abandoned false)
    (engine_restore run_callback graph_task saved) s.
Proof.
  destruct saved; simpl; [|quiet_step..].
  eapply meets_weaken; [| |apply unpack_hook_balanced].
  - intros t t' H Hinv. destruct (H Hinv) as (?&?&?&?).
    repeat (split; [done|]). split; [by apply lists_kept_left|done].
  - intros t t' H Hinv. destruct (H Hinv) as (?&?&?).
    repeat (split; [done|]). by apply lists_kept_left.
Qed.

Lemma run_balanced p : ∀ s,
  meets balanced (cut_short false) (abandoned false) (run run_callback p) s.
Proof.
  induction p as [out|x k IH|g saved k IH|h k IH|fn IHfn rfn _ args k IH];
    intros s; simpl.
  - quiet_step.
  - apply meets_then; [quiet_step|]. intros packed t0 _. apply IH.
  - apply meets_then; [apply engine_restore_balanced|]. intros x t0 _. apply IH.
  - apply meets_then; [quiet_step|]. intros _ t0 _. apply IH.
  - apply meets_then; [|intros out t0 _; apply IH].
    apply checkpoint_impl_balanced. intros a t0. apply IHfn.
Qed.

End BalancedCallbacks.

Lemma exec_balanced depth : ∀ p s,
  meets balanced (cut_short false) (abandoned false) (exec depth p) s.
Proof.
  induction depth as [|d IH]; intros p s.
  - apply meets_of_quiet; [by apply calm_raise|apply still_raise].
  - apply run_balanced. apply IH.
Qed.

(** X24. The lists of frames stay balanced.  From a state whose lists were
    allocated in the past: a callback run or a region that returns leaves
    every list with the frames it had (each region has popped its own frame,
    through any nesting and any restores inside); one that ends in an
    exception removes and reorders nothing, and leaves frames behind only at
    the end of the current list, that of the last entry of
    [_checkpoint_stacks]; a restore leaves every list with the frames it
    had, however it ends.  In each case the lists of the final state were
    again allocated in the past. *)
Theorem frame_lists_balanced depth s :
  lists_below_next s →
  (∀ p,
     let o := exec depth p s in
     lists_below_next (final_state o) ∧
     match o with
     | Ok _ s' => lists_kept s s'
     | Raise _ s' => lists_left s s'
     end) ∧
  (∀ fn rfn args,
     let o := _checkpoint_impl (fun a => exec depth (fn a)) rfn args s in
     lists_below_next (final_state o) ∧
     match o with
     | Ok _ s' => lists_kept s s'
     | Raise _ s' => lists_left s s'
     end) ∧
  (∀ graph_task holder frames,
     let o :=
       _checkpoint_hook.unpack_hook (exec depth) graph_task holder frames s in
     lists_below_next (final_state o) ∧ lists_kept s (final_state o)).
Proof.
  intros Hinv.
  assert (Hrun : ∀ (m : M (list Value)),
            meets balanced (cut_short false) (abandoned false) m s →
            lists_below_next (final_state (m s)) ∧
            match m s with
            | Ok _ s' => lists_kept s s'
            | Raise _ s' => lists_left s s'
            end).
  { intros m H. unfold meets in H. destruct (m s) as [out s'|e s']; simpl.
    - by destruct (H Hinv) as (? & _ & ? & _).
    - destruct e; destruct (H Hinv) as (? & _ & Hl); [by destruct Hl|done..]. }
  split; [|split].
  - intros p. apply Hrun, exec_balanced.
  - intros fn rfn args. apply Hrun, checkpoint_impl_balanced.
    intros a s'. apply exec_balanced.
  - intros graph_task holder frames. cbv zeta.
    pose proof (unpack_hook_balanced (exec depth) (exec_balanced depth)
                  graph_task holder frames s) as H.
    unfold meets in H.
    destruct (_checkpoint_hook.unpack_hook _ _ _ _ s) as [out s'|e s']; simpl.
    + by destruct (H Hinv) as (? & _ & ? & _).
    + destruct e; destruct (H Hinv) as (? & _ & Hl); [by destruct Hl|done..].
Qed.

Lemma initial_lists_below_next early_stop entropy :
  lists_below_next (initial_state early_stop entropy).
Proof.
  intros l fs Hl. simpl in Hl. apply lookup_singleton_Some in Hl as [<- _].
  simpl. lia.
Qed.

Lemma frame_lists_balanced_witness :
  (∀ p,
     let o := exec 2 p (initial_state true Sample.entropy) in
     lists_below_next (final_state o) ∧
     match o with
     | Ok _ s' => lists_kept (initial_state true Sample.entropy) s'
     | Raise _ s' => lists_left (initial_state true Sample.entropy) s'
     end) ∧
  (∀ fn rfn args,
     let o :=
       _checkpoint_impl (fun a => exec 2 (fn a)) rfn args
         (initial_state true Sample.entropy) in
     lists_below_next (final_state o) ∧
     match o with
     | Ok _ s' => lists_kept (initial_state true Sample.entropy) s'
     | Raise _ s' => lists_left (initial_state true Sample.entropy) s'
     end) ∧
  (∀ graph_task holder frames,
     let o :=
       _checkpoint_hook.unpack_hook (exec 2) graph_task holder frames
         (initial_state true Sample.entropy) in
     lists_below_next (final_state o) ∧
     lists_kept (initial_state true Sample.entropy) (final_state o)).
Proof.
  apply (frame_lists_balanced 2 (initial_state true Sample.entropy)).
  apply initial_lists_below_next.
Defined.

(** X25. A region that fails leaves its frame behind.  For a top-level region
    (the current list is empty and its entry is not one of a recomputation):
    when the region returns, the current list is empty again; when its body
    ends in an exception, the region's frame is still the first on the
    current list, since [curr_stack.pop()] is not reached. *)
Theorem failed_region_leaves_its_frame depth fn rfn args s entry :
  lists_below_next s →
  py_last (_checkpoint_stacks s) = Some entry →
  frame_lists s !! stack entry = Some [] → is_recompute entry = false →
  match _checkpoint_impl (fun a => exec depth (fn a)) rfn args s with
  | Ok _ s' => frame_lists s' !! stack entry = Some []
  | Raise _ s' =>
      ∃ more, frame_lists s' !! stack entry = Some (next_id s :: more)
  end.
Proof.
  intros Hinv Htop Hfs Hrec.
  rewrite (checkpoint_impl_top_level _ rfn args s entry Htop Hfs Hrec).
  match goal with |- context [exec depth (fn args) ?s0] => set (entered := s0) end.
  assert (Hin : lists_below_next entered).
  { intros l fs. unfold entered. mred.
    destruct (decide (l = stack entry)) as [->|Hne].
    - intros _. apply Hinv in Hfs. lia.
    - rewrite lookup_insert_ne by done. intros Hl%Hinv. lia. }
  assert (Hl : frame_lists entered !! stack entry = Some [next_id s]).
  { unfold entered. mred. apply lookup_insert_eq. }
  pose proof (exec_balanced depth (fn args) entered) as H. unfold meets in H.
  destruct (exec depth (fn args) entered) as [out s1|e s1]; unfold leave_region.
  - destruct (H Hin) as (_ & _ & Hk & _). mred. rewrite (Hk _ _ Hl).
    mred. apply lookup_insert_eq.
  - assert (Hleft : lists_left entered s1).
    { destruct e; destruct (H Hin) as (_ & _ & Hleft); [by destruct Hleft|done..]. }
    destruct (Hleft _ _ Hl) as (more & Hm & _). by exists more.
Qed.

Lemma failed_region_leaves_its_frame_witness :
  let o :=
    _checkpoint_impl
      (fun a => exec 2 (Save Sample.x (fun _ => Restore 7 (PPair 0 []) (fun _ => Ret []))))
      Sample.sin_cos [VTensor Sample.x] (initial_state false Sample.entropy) in
  ∃ more,
    o = Raise IndexError (final_state o) ∧
    frame_lists (final_state o) !! 0 = Some (1 :: more).
Proof.
  intros o.
  pose proof (failed_region_leaves_its_frame 2
                (fun _ => Save Sample.x
                            (fun _ => Restore 7 (PPair 0 []) (fun _ => Ret [])))
                Sample.sin_cos [VTensor Sample.x]
                (initial_state false Sample.entropy)
                {| stack := 0; is_recompute := false |}
                (initial_lists_below_next _ _) eq_refl eq_refl eq_refl) as H.
  assert (Hrun : o = Raise IndexError (final_state o)) by (vm_compute; reflexivity).
  cbv beta in H. fold o in H. rewrite Hrun in H. destruct H as [more Hm].
  exists more. split; [exact Hrun|exact Hm].
Defined.

(* ===================================================================== *)
(** ** Nested regions *)
(* ===================================================================== *)

Lemma setup_context_runs_saves run_callback args : ∀ s,
  _NoopSaveInputs.setup_context args s
  = match run run_callback (saves (tensors_of args)) s with
    | Ok _ s' => Ok tt s'
    | Raise e s' => Raise e s'
    end.
Proof.
  unfold _NoopSaveInputs.setup_context.
  induction args as [|[t|o] args IH]; intros s.
  - reflexivity.
  - change (tensors_of (VTensor t :: args)) with (t :: tensors_of args).
    cbn [for_each saves foldr run]. fold (saves (tensors_of args)).
    unfold bind at 1 2 4.
    destruct (engine_save t s) as [p s1|e s1]; [|done].
    unfold ret at 1. apply IH.
  - change (tensors_of (VOther o :: args)) with (tensors_of args).
    cbn [for_each]. unfold bind at 1, ret at 1. apply IH.
Qed.

Lemma checkpoint_impl_nested (fn : list Value → M (list Value)) rfn args s
    entry frames parent pfr args' s1 p1 :
  py_last (_checkpoint_stacks s) = Some entry →
  frame_lists s !! stack entry = Some frames →
  py_last frames = Some parent →
  parent ≠ next_id s →
  frame_store s !! parent = Some pfr →
  let new := next_id s in
  let created :=
    set_frame_store (<[new := new_frame rfn]> (frame_store s))
      (set_next_id (S new) s) in
  _applyAutogradFunctionToSaveInputs args created = Ok args' s1 →
  frame_store s1 !! parent = Some p1 →
  frame_store s1 !! new = Some (new_frame rfn) →
  frame_lists s1 !! stack entry = Some frames →
  let pre := length (weak_holders pfr) in
  let post := length (weak_holders p1) in
  let indices := seq pre (post - pre) in
  let child :=
    set_args_idx (Some indices)
      (set_args_handles (Some (drop pre (take post (weak_holders p1))))
         (new_frame rfn)) in
  _checkpoint_impl fn rfn args s
  = leave_region (stack entry)
      (fn args'
         (set_saved_tensors_hooks (saved_tensors_hooks s1 ++ [CheckpointHook])
            (set_frame_lists (<[stack entry := frames ++ [new]]> (frame_lists s1))
               (set_frame_store
                  (<[new := child]>
                     (<[parent := set_child_args_idx (child_args_idx p1 ++ indices) p1]>
                        (frame_store s1)))
                  s1)))).
Proof.
  intros He Hfs Hparent Hne Hpfr new created Hadapt Hp1 Hnew1 Hl1
    pre post indices child.
  assert (Hlt : (0 <? length frames) = true).
  { apply Nat.ltb_lt. destruct frames; [done|simpl; lia]. }
  unfold _checkpoint_impl.
  rewrite (bind_step _ _ _ s s) by done. rewrite He.
  rewrite (bind_step _ _ _ entry s) by done.
  rewrite (bind_step _ _ _ new (set_next_id (S new) s)) by done.
  rewrite (bind_step _ _ _ tt created) by done.
  assert (Hfs' : frame_lists created !! stack entry = Some frames) by done.
  rewrite (bind_step _ _ _ frames created).
  2:{ unfold get_list. mred. by rewrite Hfs'. }
  rewrite Hlt, Hparent.
  assert (Hsave :
            save_args_to_parent new parent args created
            = Ok args'
                (set_frame_store
                   (<[new := child]>
                      (<[parent := set_child_args_idx
                                     (child_args_idx p1 ++ indices) p1]>
                         (frame_store s1))) s1)).
  { unfold save_args_to_parent.
    rewrite (bind_step _ _ _ pfr created).
    2:{ apply get_frame_Some. subst created. mred.
        by rewrite lookup_insert_ne. }
    rewrite (bind_step _ _ _ _ _ Hadapt).
    rewrite (bind_step _ _ _ _ _ (get_frame_Some _ _ _ Hp1)).
    rewrite (bind_step _ _ _ _ _ (update_frame_Some _ _ _ _ Hnew1)).
    fold post. fold indices.
    erewrite bind_step.
    2:{ apply update_frame_Some. mred. rewrite lookup_insert_ne by done.
        exact Hp1. }
    erewrite bind_step.
    2:{ apply update_frame_Some. mred. rewrite lookup_insert_ne by done.
        apply lookup_insert_eq. }
    mred. mnorm. do 2 f_equal.
    rewrite (insert_insert_ne _ parent new) by done.
    by rewrite !insert_insert_eq. }
  rewrite (bind_step _ _ _ _ _ Hsave).
  unfold with_hook, leave_region.
  mrun_with ltac:(rewrite ?Hl1, ?lookup_insert_eq).
  mnorm. rewrite ?insert_insert_eq.
  destruct (fn args' _) as [r s'|e s']; [|done]. mred.
  by destruct (frame_lists s' !! stack entry) as [[|]|].
Qed.

Lemma saves_keep_control run_callback xs s s' out :
  run run_callback (saves xs) s = Ok out s' → same_control s s'.
Proof.
  intros H. destruct (calm_saves run_callback xs s) as [Hc _].
  by rewrite H in Hc.
Qed.

Lemma nested_forward early_stop entropy xs a oargs depth :
  ∃ s f1 f2,
    exec (S depth) (Checkpoint (nests xs a) (nests xs a) oargs Ret)
      (initial_state early_stop entropy)
    = Ok [] s ∧
    frame_store s !! 1 = Some f1 ∧ frame_store s !! 2 = Some f2 ∧
    maybe_args f1 = Some oargs ∧ recompute_fn f1 = nests xs a ∧
    weak_holders f1 = [4] ∧ child_args_idx f1 = [0] ∧
    (∀ gid, is_recomputed_at f1 gid = false ∧ recomp_counter_at f1 gid = 0) ∧
    maybe_args f2 = None ∧ args_idx f2 = Some [0] ∧
    args_handles f2 = Some [4] ∧
    recompute_fn f2 = (fun _ => saves xs) ∧ child_args_idx f2 = [] ∧
    length (weak_holders f2) = length xs ∧
    (∀ gid, is_recomputed_at f2 gid = false ∧ recomp_counter_at f2 gid = 0) ∧
    holder_store s !! 4 = Some {| handle := Some 3 |} ∧
    (∀ j, j < length xs →
          weak_holders f2 !! j = Some (6 + 2 * j) ∧
          holder_store s !! (6 + 2 * j) = Some {| handle := Some (5 + 2 * j) |}) ∧
    next_id s = 5 + 2 * length xs ∧
    recompute_calls s = [] ∧
    _enable_checkpoint_early_stop s = early_stop ∧
    _checkpoint_stacks s = [ {| stack := 0; is_recompute := false |} ] ∧
    saved_tensors_hooks s = [].
Proof.
  set (s0 := initial_state early_stop entropy).
  set (inner := fun _ : list Value => saves xs).
  set (e0 := {| stack := 0; is_recompute := false |}).
  set (fo0 := set_maybe_args (Some oargs) (new_frame (nests xs a))).
  set (e1 :=
         set_saved_tensors_hooks (saved_tensors_hooks s0 ++ [CheckpointHook])
           (set_frame_lists (<[0 := [1]]> (frame_lists s0))
              (set_frame_store (<[1 := fo0]> (frame_store s0))
                 (set_next_id 2 s0)))).
  set (created :=
         set_frame_store (<[2 := new_frame inner]> (frame_store e1))
           (set_next_id 3 e1)).
  (* the adapter saves the inner region's input onto the outer frame *)
  destruct (forward_saves (exec depth) [a] created e0 [1] 1 fo0)
    as (s1 & Hrun1 & Hfs1 & Hnew1 & Hold1 & Hn1 & Hst1 & Hl1 & Hh1).
  { reflexivity. }
  { reflexivity. }
  { by apply lookup_insert_eq. }
  { reflexivity. }
  { subst created. mred. rewrite lookup_insert_ne by done.
    apply lookup_insert_eq. }
  pose proof (saves_keep_control _ _ _ _ _ Hrun1) as ((Hflag1 & _ & Hg1) & _ & Hc1).
  change (next_id created) with 3 in *.
  set (p1 := set_weak_holders [4] fo0).
  assert (Hp1 : frame_store s1 !! 1 = Some p1).
  { rewrite Hfs1, lookup_insert_eq. reflexivity. }
  assert (Hadapt : ∃ args',
            _applyAutogradFunctionToSaveInputs [VTensor a] created = Ok args' s1).
  { rewrite adapter_unfold, (setup_context_runs_saves (exec depth)).
    change (tensors_of [VTensor a]) with [a]. rewrite Hrun1. by eexists. }
  destruct Hadapt as [args' Hadapt].
  set (child := set_args_idx (Some [0]) (set_args_handles (Some [4]) (new_frame inner))).
  set (e2 :=
         set_saved_tensors_hooks (saved_tensors_hooks s1 ++ [CheckpointHook])
           (set_frame_lists (<[0 := [1] ++ [2]]> (frame_lists s1))
              (set_frame_store
                 (<[2 := child]>
                    (<[1 := set_child_args_idx ([] ++ [0]) p1]> (frame_store s1)))
                 s1))).
  assert (Hinner : ∀ fn,
            _checkpoint_impl fn inner [VTensor a] e1
            = leave_region 0 (fn args' e2)).
  { intros fn.
    assert (H1 : frame_lists e1 !! 0 = Some [1]) by (by apply lookup_insert_eq).
    assert (H2 : frame_store e1 !! 1 = Some fo0) by (by apply lookup_insert_eq).
    assert (H3 : frame_store s1 !! 2 = Some (new_frame inner)).
    { rewrite Hfs1. rewrite lookup_insert_ne by done. subst created. mred.
      apply lookup_insert_eq. }
    assert (H4 : frame_lists s1 !! 0 = Some [1]) by (by rewrite Hl1).
    exact (checkpoint_impl_nested fn inner [VTensor a] e1 e0 [1] 1 fo0 args' s1
             p1 eq_refl H1 eq_refl (ltac:(done)) H2 Hadapt Hp1 H3 H4). }
  (* the body of the inner region *)
  set (f1 := set_child_args_idx ([] ++ [0]) p1) in *.
  destruct (forward_saves (exec depth) xs e2 e0 [1; 2] 2 child)
    as (s2 & Hrun2 & Hfs2 & Hnew2 & Hold2 & Hn2 & Hst2 & Hl2 & Hh2).
  { subst e2. mred. by rewrite last_snoc. }
  { subst e2. mred. by rewrite Hst1. }
  { subst e2. mred. by apply lookup_insert_eq. }
  { reflexivity. }
  { subst e2. mred. by apply lookup_insert_eq. }
  pose proof (saves_keep_control _ _ _ _ _ Hrun2) as ((Hflag2 & _ & Hg2) & _ & Hc2).
  change (next_id e2) with (next_id s1) in *. rewrite Hn1 in *.
  change (3 + 2 * length [a]) with 5 in *.
  set (ws := (fun j => 5 + 1 + 2 * j) <$> seq 0 (length xs)) in *.
  set (f2 := set_weak_holders (weak_holders child ++ ws) child) in *.
  assert (Hws : ∀ j, j < length xs → ws !! j = Some (6 + 2 * j)).
  { intros j Hj. subst ws. rewrite list_lookup_fmap, lookup_seq_lt by done.
    simpl. f_equal; lia. }
  (* leaving the two regions *)
  set (s3 := set_frame_lists (<[0 := [1]]> (frame_lists s2))
               (set_saved_tensors_hooks (removelast (saved_tensors_hooks s2)) s2)).
  set (s := set_frame_lists (<[0 := []]> (frame_lists s3))
              (set_saved_tensors_hooks (removelast (saved_tensors_hooks s3)) s3)).
  assert (Hl2' : frame_lists s2 !! 0 = Some [1; 2]).
  { rewrite Hl2. subst e2. mred. by apply lookup_insert_eq. }
  assert (Hs2 : saved_tensors_hooks s2 = [CheckpointHook; CheckpointHook]).
  { rewrite Hh2. subst e2. mred. by rewrite Hh1. }
  assert (Hbody : run (exec depth) (nests xs a oargs) e1 = Ok [] s3).
  { unfold nests. cbn [run].
    rewrite (bind_step _ _ _ [] s3); [done|].
    rewrite Hinner, Hrun2. unfold leave_region.
    change (frame_lists (set_saved_tensors_hooks _ s2)) with (frame_lists s2).
    rewrite Hl2'. reflexivity. }
  assert (Hl3 : frame_lists s3 !! 0 = Some [1]).
  { subst s3. mred. by apply lookup_insert_eq. }
  assert (Hout : exec (S depth) (Checkpoint (nests xs a) (nests xs a) oargs Ret) s0
                 = Ok [] s).
  { cbn [exec run].
    rewrite (bind_step _ _ _ [] s); [done|].
    rewrite (checkpoint_impl_top_level _ (nests xs a) oargs s0 e0 eq_refl eq_refl eq_refl).
    change (run (exec depth) (nests xs a oargs) _)
      with (run (exec depth) (nests xs a oargs) e1).
    rewrite Hbody. unfold leave_region.
    change (frame_lists (set_saved_tensors_hooks _ s3) !! stack e0)
      with (frame_lists s3 !! 0).
    rewrite Hl3. reflexivity. }
  assert (Hfs : frame_store s = <[2 := f2]> (<[2 := child]> (<[1 := f1]> (frame_store s1)))).
  { subst s s3. mred. rewrite Hfs2. reflexivity. }
  exists s, f1, f2. split; [exact Hout|].
  assert (Hlen : length ws = length xs).
  { subst ws. by rewrite length_fmap, length_seq. }
  split. { rewrite Hfs. by rewrite !lookup_insert_ne, lookup_insert_eq by done. }
  split. { rewrite Hfs. by rewrite lookup_insert_eq. }
  do 4 (split; [reflexivity|]).
  split. { by intros gid. }
  do 5 (split; [reflexivity|]).
  split. { exact Hlen. }
  split. { by intros gid. }
  split.
  { change (holder_store s) with (holder_store s2).
    rewrite Hold2 by lia. change (holder_store e2) with (holder_store s1).
    exact (Hnew1 0 ltac:(simpl; lia)). }
  split.
  { intros j Hj. split.
    - change (weak_holders f2) with ws. by apply Hws.
    - change (holder_store s) with (holder_store s2).
      exact (Hnew2 j Hj). }
  split. { exact Hn2. }
  split. { change (recompute_calls s) with (recompute_calls s2).
           rewrite Hc2. change (recompute_calls e2) with (recompute_calls s1).
           by rewrite Hc1. }
  split. { change (_enable_checkpoint_early_stop s)
             with (_enable_checkpoint_early_stop s2).
           rewrite Hflag2.
           change (_enable_checkpoint_early_stop e2)
             with (_enable_checkpoint_early_stop s1).
           by rewrite Hflag1. }
  split. { change (_checkpoint_stacks s) with (_checkpoint_stacks s2).
           rewrite Hst2. change (_checkpoint_stacks e2) with (_checkpoint_stacks s1).
           by rewrite Hst1. }
  change (saved_tensors_hooks s)
    with (removelast (removelast (saved_tensors_hooks s2))).
  by rewrite Hs2.
Qed.

Lemma checkpoint_impl_replay_stops (fn : list Value → M (list Value)) rfn args
    s entry e s1 :
  py_last (_checkpoint_stacks s) = Some entry →
  frame_lists s !! stack entry = Some [] →
  is_recompute entry = true →
  _applyAutogradFunctionToSaveInputs args
    (set_frame_store (<[next_id s := new_frame rfn]> (frame_store s))
       (set_next_id (S (next_id s)) s))
  = Raise e s1 →
  _checkpoint_impl fn rfn args s = Raise e s1.
Proof.
  intros He Hfs Hrec Hadapt. unfold _checkpoint_impl.
  mrun_with ltac:(rewrite ?He, ?Hfs, ?Hrec, ?lookup_insert_eq).
  simpl.
  mrun_with ltac:(rewrite ?He, ?Hfs, ?Hrec, ?Hadapt, ?lookup_insert_eq).
  reflexivity.
Qed.

Lemma checkpoint_impl_replay_goes_on (fn : list Value → M (list Value)) rfn args
    s entry args' s1 fr1 frames1 :
  py_last (_checkpoint_stacks s) = Some entry →
  frame_lists s !! stack entry = Some [] →
  is_recompute entry = true →
  _applyAutogradFunctionToSaveInputs args
    (set_frame_store (<[next_id s := new_frame rfn]> (frame_store s))
       (set_next_id (S (next_id s)) s))
  = Ok args' s1 →
  frame_store s1 !! next_id s = Some fr1 →
  frame_lists s1 !! stack entry = Some frames1 →
  _checkpoint_impl fn rfn args s
  = leave_region (stack entry)
      (fn args'
         (set_saved_tensors_hooks (saved_tensors_hooks s1 ++ [CheckpointHook])
            (set_frame_lists
               (<[stack entry := frames1 ++ [next_id s]]> (frame_lists s1))
               (set_frame_store
                  (<[next_id s := set_maybe_args (Some args') fr1]>
                     (frame_store s1))
                  s1)))).
Proof.
  intros He Hfs Hrec Hadapt Hfr1 Hl1.
  unfold _checkpoint_impl, with_hook, leave_region.
  mrun_with ltac:(rewrite ?He, ?Hfs, ?Hrec, ?lookup_insert_eq).
  simpl.
  mrun_with ltac:(rewrite ?He, ?Hfs, ?Hrec, ?Hadapt, ?Hfr1, ?Hl1, ?lookup_insert_eq).
  mnorm. rewrite ?insert_insert_eq. simpl.
  destruct (fn args' _) as [r s'|e s']; [|done]. mred.
  by destruct (frame_lists s' !! stack entry) as [[|]|].
Qed.

Lemma adapter_in_replay f gid fr w hd (a : Tensor) c :
  last (saved_tensors_hooks c) = Some (RecomputationHook f gid) →
  frame_store c !! f = Some fr →
  recomp_counter_at fr gid = 0 → weak_holders fr = [w] →
  holder_store c !! w = Some {| handle := Some hd |} →
  ∃ args',
    _applyAutogradFunctionToSaveInputs [VTensor a] c
    = if _enable_checkpoint_early_stop c
      then Raise _StopRecomputationError
             (set_frame_store
                (<[f := _recomputation_hook.store_recomputed gid hd
                          (_recomputation_hook.published fr 0 a)
                          (_recomputation_hook.bump_counter gid fr)]>
                   (frame_store c)) c)
      else Ok args'
             (set_frame_store
                (<[f := _recomputation_hook.store_recomputed gid hd
                          (_recomputation_hook.published fr 0 a)
                          (_recomputation_hook.bump_counter gid fr)]>
                   (frame_store c)) c).
Proof.
  intros Hhook Hfr Hcount Hwh Hho.
  assert (Hw : weak_holders fr !! recomp_counter_at fr gid = Some w)
    by (by rewrite Hcount, Hwh).
  assert (Hsave : engine_save a c
                  = if _enable_checkpoint_early_stop c
                    then Raise _StopRecomputationError
                           (set_frame_store
                              (<[f := _recomputation_hook.store_recomputed gid hd
                                        (_recomputation_hook.published fr 0 a)
                                        (_recomputation_hook.bump_counter gid fr)]>
                                 (frame_store c)) c)
                    else Ok (PDetached (detach a))
                           (set_frame_store
                              (<[f := _recomputation_hook.store_recomputed gid hd
                                        (_recomputation_hook.published fr 0 a)
                                        (_recomputation_hook.bump_counter gid fr)]>
                                 (frame_store c)) c)).
  { unfold engine_save. rewrite (bind_step _ _ _ c c) by done. rewrite Hhook.
    rewrite (recomputation_pack_hook_cases f gid a c fr w Hfr Hw).
    cbv zeta. rewrite Hho, Hcount, Hwh. simpl.
    by destruct (_enable_checkpoint_early_stop c). }
  eexists. rewrite adapter_unfold.
  rewrite (setup_context_runs_saves (fun _ => ret [])).
  change (tensors_of [VTensor a]) with [a]. cbn [saves foldr run].
  unfold bind at 1. rewrite Hsave.
  destruct (_enable_checkpoint_early_stop c); reflexivity.
Qed.

Lemma py_last_snoc {A} (l : list A) (x : A) : py_last (l ++ [x]) = Some x.
Proof.
  unfold py_last, py_getitem. rewrite length_app. simpl length.
  change (-1 <? 0)%Z with true. cbv iota.
  destruct (Z.ltb_spec (-1 + Z.of_nat (length l + 1)) 0); [lia|].
  replace (Z.to_nat (-1 + Z.of_nat (length l + 1))) with (length l + 0) by lia.
  by rewrite lookup_app_r, Nat.add_0_r, Nat.sub_diag by lia.
Qed.

Lemma outer_turn depth gid xs a oargs frames f w hd s fr :
  frames !! 0 = Some f →
  frame_store s !! f = Some fr → f < next_id s →
  maybe_args fr = Some oargs → recompute_fn fr = nests xs a →
  weak_holders fr = [w] → child_args_idx fr = [0] →
  is_recomputed_at fr gid = false → recomp_counter_at fr gid = 0 →
  holder_store s !! w = Some {| handle := Some hd |} →
  ∃ t g,
    _checkpoint_hook.recompute_frame (exec (S depth)) frames gid 0 s = Ok tt t ∧
    frame_store t !! f = Some g ∧ weak_holders g = [w] ∧
    recomputed_at g gid !! hd = Some a ∧
    (∀ k, k < next_id s → k ≠ f → frame_store t !! k = frame_store s !! k) ∧
    (∀ k, k < next_id s → holder_store t !! k = holder_store s !! k) ∧
    next_id s ≤ next_id t ∧
    recompute_calls t = recompute_calls s ++ [(f, gid, oargs)] ∧
    _enable_checkpoint_early_stop t = _enable_checkpoint_early_stop s.
Proof.
  intros Hk Hfr Hlt Hargs Hfn Hwh Hch Hflagged Hcount Hho.
  set (inner := fun _ : list Value => saves xs).
  set (E := recompute_entered f gid oargs s).
  set (c := set_frame_store (<[next_id E := new_frame inner]> (frame_store E))
              (set_next_id (S (next_id E)) E)).
  set (g0 := _recomputation_hook.store_recomputed gid hd
               (_recomputation_hook.published fr 0 a)
               (_recomputation_hook.bump_counter gid fr)).
  set (R := set_frame_store (<[f := g0]> (frame_store c)) c).
  assert (Hne : f ≠ S (next_id s)) by lia.
  destruct (adapter_in_replay f gid fr w hd a c) as [args' Hadapt]; try done.
  { subst c E. unfold recompute_entered. mred. by rewrite last_snoc. }
  { subst c E. unfold recompute_entered. mred. by rewrite lookup_insert_ne. }
  fold g0 in Hadapt. fold R in Hadapt.
  change (_enable_checkpoint_early_stop c)
    with (_enable_checkpoint_early_stop s) in Hadapt.
  assert (Hpub : _recomputation_hook.published fr 0 a = a).
  { unfold _recomputation_hook.published. rewrite Hch.
    rewrite decide_True; [done|]. set_solver. }
  assert (Hturn : ∀ t2,
            _checkpoint_hook.try_recompute (exec (S depth)) f gid oargs s
            = Ok tt t2 →
            frame_store t2 !! f = Some g0 →
            _checkpoint_hook.recompute_frame (exec (S depth)) frames gid 0 s
            = Ok tt (set_frame_store
                       (<[f := _checkpoint_hook.mark_recomputed gid g0]>
                          (frame_store t2)) t2)).
  { intros t2 Htry Hg0.
    unfold _checkpoint_hook.recompute_frame. rewrite Hk.
    rewrite (bind_step _ _ _ f s) by done.
    rewrite (bind_step _ _ _ _ _ (get_frame_Some _ _ _ Hfr)).
    rewrite Hflagged, Hargs.
    rewrite (bind_step _ _ _ oargs s) by done.
    rewrite (bind_step _ _ _ _ _ Htry).
    by apply update_frame_Some. }
  assert (Hv : recomputed_at (_checkpoint_hook.mark_recomputed gid g0) gid !! hd
               = Some a).
  { rewrite recomputed_at_mark. subst g0. rewrite Hpub.
    apply recomputed_at_store. }
  destruct (_enable_checkpoint_early_stop s) eqn:Hflag.
  - (* early stop: the replay ends at the save of the nested input *)
    assert (Hrun : exec (S depth) (recompute_fn fr oargs) E
                   = Raise _StopRecomputationError R).
    { rewrite Hfn. unfold nests. cbn [exec run].
      apply bind_fail.
      apply (checkpoint_impl_replay_stops _ inner [VTensor a] E
               {| stack := next_id s; is_recompute := true |}); try done.
      - subst E. unfold recompute_entered. mred. by rewrite py_last_snoc.
      - subst E. unfold recompute_entered. mred. apply lookup_insert_eq. }
    assert (Htry : _checkpoint_hook.try_recompute (exec (S depth)) f gid oargs s
                   = Ok tt (set_checkpoint_stacks
                              (removelast (_checkpoint_stacks (recompute_left s R)))
                              (recompute_left s R))).
    { rewrite (try_recompute_cases _ _ _ _ _ _ Hfr). fold E. rewrite Hrun.
      apply pop_stack_nonempty.
      subst R c E. unfold recompute_left, recompute_entered. mred.
      by intros [_ [=]]%app_eq_nil. }
    eexists _, _. split.
    { apply (Hturn _ Htry). subst R. mred. apply lookup_insert_eq. }
    split. { mred. apply lookup_insert_eq. }
    split. { exact Hwh. }
    split. { exact Hv. }
    split.
    { intros k Hkn Hkf. subst R c E. unfold recompute_left, recompute_entered.
      mred. by rewrite !lookup_insert_ne by lia. }
    split. { intros k Hkn. reflexivity. }
    split. { subst R c E. unfold recompute_left, recompute_entered. mred. lia. }
    split. { reflexivity. }
    exact Hflag.
  - (* no early stop: the replay runs the nested region again *)
    set (entry := {| stack := next_id s; is_recompute := true |}).
    set (child := set_maybe_args (Some args') (new_frame inner)).
    set (e2 :=
           set_saved_tensors_hooks (saved_tensors_hooks R ++ [CheckpointHook])
             (set_frame_lists
                (<[stack entry := [] ++ [next_id E]]> (frame_lists R))
                (set_frame_store (<[next_id E := child]> (frame_store R)) R))).
    assert (Himpl : ∀ fn,
              _checkpoint_impl fn inner [VTensor a] E
              = leave_region (stack entry) (fn args' e2)).
    { intros fn.
      apply (checkpoint_impl_replay_goes_on fn inner [VTensor a] E entry args' R
               (new_frame inner) []); try done.
      - subst E. unfold recompute_entered. mred. by rewrite py_last_snoc.
      - subst E. unfold recompute_entered. mred. apply lookup_insert_eq.
      - subst R c. mred. rewrite lookup_insert_ne by done.
        apply lookup_insert_eq.
      - subst R c E. unfold recompute_entered. mred. apply lookup_insert_eq. }
    destruct (forward_saves (exec depth) xs e2 entry [next_id E] (next_id E) child)
      as (s2 & Hrun2 & Hfs2 & _ & Hold2 & Hn2 & _ & Hl2 & _).
    { subst e2. mred. by rewrite last_snoc. }
    { subst e2 R c E. unfold recompute_entered. mred. by rewrite py_last_snoc. }
    { subst e2. mred. apply lookup_insert_eq. }
    { reflexivity. }
    { subst e2. mred. apply lookup_insert_eq. }
    pose proof (saves_keep_control _ _ _ _ _ Hrun2) as ((Hflag2 & _ & _) & _ & Hc2).
    set (s3 := set_frame_lists (<[stack entry := []]> (frame_lists s2))
                 (set_saved_tensors_hooks (removelast (saved_tensors_hooks s2)) s2)).
    assert (Hrun : exec (S depth) (recompute_fn fr oargs) E = Ok [] s3).
    { rewrite Hfn. unfold nests. cbn [exec run].
      rewrite (bind_step _ _ _ [] s3); [done|].
      rewrite Himpl, Hrun2. unfold leave_region.
      change (frame_lists (set_saved_tensors_hooks _ s2)) with (frame_lists s2).
      assert (frame_lists s2 !! stack entry = Some [next_id E]) as ->.
      { rewrite Hl2. subst e2. mred. apply lookup_insert_eq. }
      reflexivity. }
    assert (Htry : _checkpoint_hook.try_recompute (exec (S depth)) f gid oargs s
                   = Ok tt (recompute_left s s3)).
    { rewrite (try_recompute_cases _ _ _ _ _ _ Hfr). fold E. rewrite Hrun.
      change (_enable_checkpoint_early_stop s3)
        with (_enable_checkpoint_early_stop s2).
      rewrite Hflag2.
      change (_enable_checkpoint_early_stop e2)
        with (_enable_checkpoint_early_stop s).
      by rewrite Hflag. }
    assert (Hfs : frame_store (recompute_left s s3)
                  = <[next_id E := set_weak_holders
                        (weak_holders child
                         ++ ((fun j => next_id e2 + 1 + 2 * j)
                               <$> seq 0 (length xs))) child]>
                      (<[next_id E := child]>
                         (<[f := g0]>
                            (<[next_id E := new_frame inner]> (frame_store s))))).
    { unfold recompute_left. subst s3. mred. rewrite Hfs2. reflexivity. }
    eexists _, _. split.
    { apply (Hturn _ Htry). rewrite Hfs.
      rewrite !lookup_insert_ne by done. apply lookup_insert_eq. }
    split. { mred. apply lookup_insert_eq. }
    split. { exact Hwh. }
    split. { exact Hv. }
    split.
    { intros k Hkn Hkf. mred. rewrite Hfs.
      change (next_id E) with (S (next_id s)).
      by rewrite !lookup_insert_ne by lia. }
    split.
    { intros k Hkn. transitivity (holder_store s2 !! k); [reflexivity|].
      rewrite Hold2; [reflexivity|].
      change (next_id e2) with (S (S (next_id s))). lia. }
    split.
    { assert (next_id s ≤ next_id s2) as Hle; [|exact Hle].
      rewrite Hn2. change (next_id e2) with (S (S (next_id s))). lia. }
    split.
    { transitivity (recompute_calls s2); [reflexivity|].
      rewrite Hc2. reflexivity. }
    transitivity (_enable_checkpoint_early_stop s2); [reflexivity|].
    rewrite Hflag2. exact Hflag.
Qed.

(** X26. Nested regions.  From the initial state, under either setting of
    early stop, an outer region whose body enters an inner region on the
    tensor [a], the inner body saving the tensors [xs], returns; the inner
    frame keeps no arguments of its own.  For a graph task of a backward
    pass, the restore of the holder the inner frame recorded at position
    [i], with both frames, returns [xs[i]], detached; it calls the outer
    frame's recompute callback on the outer arguments first and then the
    inner frame's recompute callback on [a], as the outer replay saved it. *)
Theorem nested_restore_replays_parent_first
    early_stop entropy xs a oargs i x gid depth depth' :
  xs !! i = Some x → gid ≠ (-1)%Z →
  ∃ s f2 s',
    exec (S depth) (Checkpoint (nests xs a) (nests xs a) oargs Ret)
      (initial_state early_stop entropy)
    = Ok [] s ∧
    frame_store s !! 2 = Some f2 ∧ maybe_args f2 = None ∧
    weak_holders f2 !! i = Some (6 + 2 * i) ∧
    _checkpoint_hook.unpack_hook (exec (S depth')) gid (6 + 2 * i) [1; 2] s
    = Ok (detach x) s' ∧
    recompute_calls s' = [(1, gid, oargs); (2, gid, [VTensor a])].
Proof.
  intros Hx Hgid.
  destruct (nested_forward early_stop entropy xs a oargs depth)
    as (s & f1 & f2 & Hforward & Hf1 & Hf2 & Hargs1 & Hfn1 & Hwh1 & Hch1
        & Hfresh1 & Hargs2 & Hidx2 & _ & Hfn2 & Hch2 & Hlen2 & Hfresh2 & Hho4
        & Hhs & Hn & Hcalls & _).
  assert (Hi : i < length xs) by (by eapply lookup_lt_Some).
  destruct (Hhs i Hi) as [Hwi Hhi].
  destruct (Hfresh1 gid) as [Hflag1 Hcount1].
  destruct (Hfresh2 gid) as [Hflag2 Hcount2].
  (* the outer frame's turn *)
  destruct (outer_turn depth' gid xs a oargs [1; 2] 1 4 3 s f1)
    as (t & g & Hturn0 & Hg & Hgw & Hgv & Hfrk & Hhok & Hnle & Hc0 & _);
    try done.
  { lia. }
  assert (Hf2t : frame_store t !! 2 = Some f2).
  { rewrite Hfrk; [done|lia|done]. }
  (* the inner frame's arguments come from what the outer replay saved *)
  assert (Hparent : get_args_from_parent 2 1 gid t = Ok [VTensor a] t).
  { apply (get_args_from_parent_reads 2 1 gid t f2 g [0] [a]); try done.
    constructor; [|constructor].
    exists 4, 3. split; [by rewrite Hgw|]. split; [|done].
    rewrite Hhok; [done|lia]. }
  (* the inner frame's turn *)
  assert (Hpub : detach x = _recomputation_hook.published f2 i x).
  { unfold _recomputation_hook.published. rewrite Hch2.
    by rewrite decide_False by apply not_elem_of_nil. }
  destruct (replay_run 2 gid f2 i (6 + 2 * i) (5 + 2 * i) t xs x (detach x)
              Hlen2 Hx Hwi Hpub (exec depth') [VTensor a])
    as (u & Hrep & Hrun); try done.
  { rewrite Hhok; [done|lia]. }
  { lia. }
  { intros j h' hd' Hj Hh'.
    assert (j < length xs) as Hjl.
    { apply lookup_lt_Some in Hh'. by rewrite Hlen2 in Hh'. }
    destruct (Hhs j Hjl) as [Hwj Hhj].
    assert (h' = 6 + 2 * j) as -> by congruence.
    rewrite Hhok by lia. rewrite Hhj. intros [= <-]. lia. }
  assert (Hcu : recompute_calls u
                = recompute_calls t ++ [(2, gid, [VTensor a])]).
  { destruct (calm_saves (exec depth') xs
                (recompute_entered 2 gid [VTensor a] t)) as [(_ & _ & Hc) _].
    rewrite Hrun in Hc. by destruct (_ && _). }
  destruct (turn_after_replay 2 gid f2 i (6 + 2 * i) (5 + 2 * i) t xs x
              (detach x) Hlen2 Hx depth' [1; 2] 1 [VTensor a] u)
    as (frn & t3 & Hfrn & Hturn1 & Hhs3 & Hfs3 & Hcs3 & Hn3 & Hhu & Hv);
    try done.
  { rewrite Hargs2. exact Hparent. }
  { rewrite Hfn2. exact Hrun. }
  exists s, f2. eexists. split; [exact Hforward|].
  split; [exact Hf2|]. split; [exact Hargs2|]. split; [exact Hwi|].
  rewrite (unpack_hook_after_loop _ _ _ _ _ 2 gid s t3); [| done | |].
  - rewrite (retrieve_after_turn (6 + 2 * i) 2 gid (5 + 2 * i) (detach x) t3
               (_checkpoint_hook.mark_recomputed gid frn)).
    + split; [reflexivity|]. mred. simpl.
      rewrite Hcs3, Hcu, Hc0, Hcalls. reflexivity.
    + by rewrite Hhs3.
    + rewrite Hfs3. apply lookup_insert_eq.
    + by rewrite recomputed_at_mark.
  - unfold _checkpoint_hook.current_gid. by rewrite decide_False.
  - cbn [length seq for_each].
    rewrite (bind_step _ _ _ _ _ Hturn0).
    by rewrite (bind_step _ _ _ _ _ Hturn1).
Qed.

Lemma nested_restore_replays_parent_first_witness :
  ∃ s f2 s',
    exec 1
      (Checkpoint (nests [Sample.x; Sample.y] Sample.plain)
         (nests [Sample.x; Sample.y] Sample.plain) [VTensor Sample.x] Ret)
      (initial_state true Sample.entropy)
    = Ok [] s ∧
    frame_store s !! 2 = Some f2 ∧ maybe_args f2 = None ∧
    weak_holders f2 !! 1 = Some 8 ∧
    _checkpoint_hook.unpack_hook (exec 1) 7 8 [1; 2] s
    = Ok (detach Sample.y) s' ∧
    recompute_calls s'
    = [(1, 7%Z, [VTensor Sample.x]); (2, 7%Z, [VTensor Sample.plain])].
Proof.
  apply (nested_restore_replays_parent_first true Sample.entropy
           [Sample.x; Sample.y] Sample.plain [VTensor Sample.x] 1 Sample.y 7 0 0).
  - reflexivity.
  - done.
Defined.
